(** * The video mixer core of gst-plugins-good: [gstbasemixer.c] and [videomixer2.c]

    A shallow embedding of the base video mixer
    ([gst/videomixer/basemixer/gstbasemixer.c]) and of its positioned subclass
    ([gst/videomixer/videomixer2.c]), followed by the properties of the
    negotiation, queue-filling, QoS and z-order code.

    Conventions.
    - [guint64] values ([GstClockTime], [nframes], ...) are integers of [Z]
      kept in [0, 2^64); every C operation writes its wrap-around with [u64].
      [GST_CLOCK_TIME_NONE] is [2^64 - 1], the value the source writes [-1].
    - [gint], [gint64] and [guint] values are integers of [Z]; conversions
      between signed and unsigned are [s64], [s32], [u32].
    - [gdouble] values are IEEE-754 binary64 numbers, [spec_float] with
      precision 53 and maximal exponent 1024.
    - Functions of GStreamer, GLib and of the base aggregator class, whose code
      is not part of the mixer sources, are the fields of the class [GstHost]
      or are modelled from their documentation where a claim needs them. *)

From Stdlib Require Import ZArith List Bool Lia String.
From Stdlib Require Import Sorting.Sorted Sorting.Permutation.
From Stdlib Require Import Floats.SpecFloat.
From stdpp Require Import gmap.

Import ListNotations.
Local Open Scope Z_scope.

(** ** Machine integers *)

Definition u64 (z : Z) : Z := z mod 2 ^ 64.
Definition u32 (z : Z) : Z := z mod 2 ^ 32.

Definition s64 (z : Z) : Z :=
  let w := u64 z in if w <? 2 ^ 63 then w else w - 2 ^ 64.

Definition s32 (z : Z) : Z :=
  let w := u32 z in if w <? 2 ^ 31 then w else w - 2 ^ 32.

Definition G_MAXUINT64 : Z := 2 ^ 64 - 1.
Definition G_MAXINT : Z := 2 ^ 31 - 1.
Definition GST_CLOCK_TIME_NONE : Z := 2 ^ 64 - 1.
Definition GST_SECOND : Z := 1000000000.

Definition GST_CLOCK_TIME_IS_VALID (t : Z) : bool := negb (t =? GST_CLOCK_TIME_NONE).

(** [GST_CLOCK_DIFF (s, e)] is [(GstClockTimeDiff) ((e) - (s))]. *)
Definition GST_CLOCK_DIFF (s e : Z) : Z := s64 (e - s).

(** ** Doubles *)

Definition gdouble : Set := spec_float.

Definition dbl_prec : Z := 53.
Definition dbl_emax : Z := 1024.

Definition dmul : gdouble -> gdouble -> gdouble := SFmul dbl_prec dbl_emax.
Definition ddiv : gdouble -> gdouble -> gdouble := SFdiv dbl_prec dbl_emax.
Definition dlt : gdouble -> gdouble -> bool := SFltb.
Definition deq : gdouble -> gdouble -> bool := SFeqb.

(** Conversion of an integer to double, rounding to nearest even. *)
Definition double_of_Z (z : Z) : gdouble := binary_normalize dbl_prec dbl_emax z 0 false.

Definition d_zero : gdouble := S754_zero false.
Definition d_one : gdouble := double_of_Z 1.
Definition d_two : gdouble := double_of_Z 2.
Definition d_half : gdouble := ddiv d_one d_two.
Definition d_minus_one : gdouble := double_of_Z (-1).
Definition d_25 : gdouble := double_of_Z 25.

(** Conversion of a double to an integer truncates toward zero. *)
Definition double_trunc (f : gdouble) : Z :=
  match f with
  | S754_finite s m e =>
      let a := match e with
               | Zneg k => Z.shiftr (Zpos m) (Zpos k)
               | _ => Z.shiftl (Zpos m) e
               end in
      if s then - a else a
  | _ => 0
  end.

(** The conversion to [guint64] is undefined in C when the truncated value is
    outside [0, 2^64); the model wraps there and no property below depends on
    it. *)
Definition guint64_of_double (f : gdouble) : Z := u64 (double_trunc f).

(** The macro [ABS(x)] is [((x) < 0) ? -(x) : (x)]. *)
Definition ABS (x : gdouble) : gdouble := if dlt x d_zero then SFopp x else x.

(** [t *= r] and [t /= r] for a [guint64] [t] and a [gdouble] [r]: the integer
    is converted to double, the operation is done in double, the result is
    converted back. *)
Definition mul_by_double (t : Z) (r : gdouble) : Z := guint64_of_double (dmul (double_of_Z t) r).
Definition div_by_double (t : Z) (r : gdouble) : Z := guint64_of_double (ddiv (double_of_Z t) r).

(** [gst_util_fraction_to_double]: [(gdouble) n / (gdouble) d]. *)
Definition gst_util_fraction_to_double (n d : Z) : gdouble :=
  ddiv (double_of_Z n) (double_of_Z d).

Example double_two_shape : d_two = S754_finite false 4503599627370496 (-51).
Proof. reflexivity. Qed.

Example mul_by_two_100 : mul_by_double 100 d_two = 200.
Proof. reflexivity. Qed.

Example div_by_two_100 : div_by_double 100 d_two = 50.
Proof. reflexivity. Qed.

Example fps_30000_1001 : dlt (gst_util_fraction_to_double 25 1) (gst_util_fraction_to_double 30000 1001) = true.
Proof. reflexivity. Qed.

(** ** GStreamer utility functions *)

(** Modelled from the spec: [gst_util_uint64_scale_round] is a GStreamer core
    function, absent from the mixer sources.  The spec gives the cadence as
    [round (val * num / denom)] in nanoseconds; GStreamer documents the
    rounding as to nearest (half up), the result [G_MAXUINT64] on overflow and
    on a zero denominator. *)
Definition gst_util_uint64_scale_round (val num denom : Z) : Z :=
  if denom =? 0 then G_MAXUINT64
  else if num =? 0 then 0
  else if num =? denom then val
  else Z.min ((val * num + denom / 2) / denom) G_MAXUINT64.

(** Modelled from the spec: [gst_util_uint64_scale_int_round], the same with
    [gint] numerator and denominator; GStreamer refuses a non-positive
    denominator and a negative numerator with [G_MAXUINT64]. *)
Definition gst_util_uint64_scale_int_round (val num denom : Z) : Z :=
  if denom <=? 0 then G_MAXUINT64
  else if num <? 0 then G_MAXUINT64
  else gst_util_uint64_scale_round val num denom.

(** ** Video formats and video info *)

Inductive GstVideoFormat : Set :=
  | GST_VIDEO_FORMAT_UNKNOWN
  | GST_VIDEO_FORMAT_AYUV | GST_VIDEO_FORMAT_BGRA | GST_VIDEO_FORMAT_ARGB
  | GST_VIDEO_FORMAT_RGBA | GST_VIDEO_FORMAT_ABGR | GST_VIDEO_FORMAT_Y444
  | GST_VIDEO_FORMAT_Y42B | GST_VIDEO_FORMAT_YUY2 | GST_VIDEO_FORMAT_UYVY
  | GST_VIDEO_FORMAT_YVYU | GST_VIDEO_FORMAT_I420 | GST_VIDEO_FORMAT_YV12
  | GST_VIDEO_FORMAT_NV12 | GST_VIDEO_FORMAT_NV21 | GST_VIDEO_FORMAT_Y41B
  | GST_VIDEO_FORMAT_RGB | GST_VIDEO_FORMAT_BGR | GST_VIDEO_FORMAT_xRGB
  | GST_VIDEO_FORMAT_xBGR | GST_VIDEO_FORMAT_RGBx | GST_VIDEO_FORMAT_BGRx.

(** The integer value of the enumeration, which the format election uses as
    hash-table key ([GINT_TO_POINTER (format)]). *)
Definition format_code (f : GstVideoFormat) : Z :=
  match f with
  | GST_VIDEO_FORMAT_UNKNOWN => 0
  | GST_VIDEO_FORMAT_I420 => 2 | GST_VIDEO_FORMAT_YV12 => 3
  | GST_VIDEO_FORMAT_YUY2 => 4 | GST_VIDEO_FORMAT_UYVY => 5
  | GST_VIDEO_FORMAT_AYUV => 6 | GST_VIDEO_FORMAT_RGBx => 7
  | GST_VIDEO_FORMAT_BGRx => 8 | GST_VIDEO_FORMAT_xRGB => 9
  | GST_VIDEO_FORMAT_xBGR => 10 | GST_VIDEO_FORMAT_RGBA => 11
  | GST_VIDEO_FORMAT_BGRA => 12 | GST_VIDEO_FORMAT_ARGB => 13
  | GST_VIDEO_FORMAT_ABGR => 14 | GST_VIDEO_FORMAT_RGB => 15
  | GST_VIDEO_FORMAT_BGR => 16 | GST_VIDEO_FORMAT_Y41B => 17
  | GST_VIDEO_FORMAT_Y42B => 18 | GST_VIDEO_FORMAT_YVYU => 19
  | GST_VIDEO_FORMAT_Y444 => 20 | GST_VIDEO_FORMAT_NV12 => 23
  | GST_VIDEO_FORMAT_NV21 => 24
  end.

Definition format_eqb (f g : GstVideoFormat) : bool := format_code f =? format_code g.

Definition GST_VIDEO_FORMAT_FLAG_YUV : Z := 1.
Definition GST_VIDEO_FORMAT_FLAG_RGB : Z := 2.
Definition GST_VIDEO_FORMAT_FLAG_ALPHA : Z := 8.

Record GstVideoFormatInfo : Set := {
  format : GstVideoFormat;
  flags : Z
}.

(** The rows of GStreamer's format table for the formats of the pad
    templates. *)
Definition gst_video_format_get_info (f : GstVideoFormat) : GstVideoFormatInfo :=
  let fl :=
    match f with
    | GST_VIDEO_FORMAT_UNKNOWN => 0
    | GST_VIDEO_FORMAT_AYUV =>
        Z.lor GST_VIDEO_FORMAT_FLAG_YUV GST_VIDEO_FORMAT_FLAG_ALPHA
    | GST_VIDEO_FORMAT_BGRA | GST_VIDEO_FORMAT_ARGB
    | GST_VIDEO_FORMAT_RGBA | GST_VIDEO_FORMAT_ABGR =>
        Z.lor GST_VIDEO_FORMAT_FLAG_RGB GST_VIDEO_FORMAT_FLAG_ALPHA
    | GST_VIDEO_FORMAT_RGB | GST_VIDEO_FORMAT_BGR | GST_VIDEO_FORMAT_xRGB
    | GST_VIDEO_FORMAT_xBGR | GST_VIDEO_FORMAT_RGBx | GST_VIDEO_FORMAT_BGRx =>
        GST_VIDEO_FORMAT_FLAG_RGB
    | _ => GST_VIDEO_FORMAT_FLAG_YUV
    end in
  {| format := f; flags := fl |}.

(** [finfo->flags & GST_VIDEO_FORMAT_FLAG_ALPHA], as a truth value. *)
Definition has_alpha_flag (fi : GstVideoFormatInfo) : bool :=
  negb (Z.land (flags fi) GST_VIDEO_FORMAT_FLAG_ALPHA =? 0).

Record GstVideoColorimetry : Set := {
  range : Z; matrix : Z; transfer : Z; primaries : Z
}.

Record GstVideoInfo : Set := {
  finfo : option GstVideoFormatInfo;   (* NULL in a zero-filled pad *)
  interlace_mode : Z;
  width : Z;
  height : Z;
  size : Z;
  chroma_site : Z;
  colorimetry : GstVideoColorimetry;
  par_n : Z;
  par_d : Z;
  fps_n : Z;
  fps_d : Z
}.

(** [GST_VIDEO_INFO_FORMAT (i)] is [(i)->finfo->format]; the source only
    evaluates it where [finfo] is set, and the model answers UNKNOWN for a
    missing [finfo]. *)
Definition GST_VIDEO_INFO_FORMAT (i : GstVideoInfo) : GstVideoFormat :=
  match finfo i with
  | Some fi => format fi
  | None => GST_VIDEO_FORMAT_UNKNOWN
  end.

Definition zero_colorimetry : GstVideoColorimetry :=
  {| range := 0; matrix := 0; transfer := 0; primaries := 0 |}.

(** [gst_video_info_init]: everything cleared, the format UNKNOWN, the
    framerate 0/1 and the pixel aspect ratio 1/1. *)
Definition gst_video_info_init : GstVideoInfo :=
  {| finfo := Some (gst_video_format_get_info GST_VIDEO_FORMAT_UNKNOWN);
     interlace_mode := 0; width := 0; height := 0; size := 0;
     chroma_site := 0; colorimetry := zero_colorimetry;
     par_n := 1; par_d := 1; fps_n := 0; fps_d := 1 |}.

(** The content of a pad structure that [g_object_new] has zero-filled. *)
Definition zeroed_video_info : GstVideoInfo :=
  {| finfo := None; interlace_mode := 0; width := 0; height := 0; size := 0;
     chroma_site := 0; colorimetry := zero_colorimetry;
     par_n := 0; par_d := 0; fps_n := 0; fps_d := 0 |}.

Definition set_fps (i : GstVideoInfo) (n d : Z) : GstVideoInfo :=
  {| finfo := finfo i; interlace_mode := interlace_mode i; width := width i;
     height := height i; size := size i; chroma_site := chroma_site i;
     colorimetry := colorimetry i; par_n := par_n i; par_d := par_d i;
     fps_n := n; fps_d := d |}.

Definition set_par (i : GstVideoInfo) (n d : Z) : GstVideoInfo :=
  {| finfo := finfo i; interlace_mode := interlace_mode i; width := width i;
     height := height i; size := size i; chroma_site := chroma_site i;
     colorimetry := colorimetry i; par_n := n; par_d := d;
     fps_n := fps_n i; fps_d := fps_d i |}.

Definition set_width_height (i : GstVideoInfo) (w h : Z) : GstVideoInfo :=
  {| finfo := finfo i; interlace_mode := interlace_mode i; width := w;
     height := h; size := size i; chroma_site := chroma_site i;
     colorimetry := colorimetry i; par_n := par_n i; par_d := par_d i;
     fps_n := fps_n i; fps_d := fps_d i |}.

(** ** Segments and buffers *)

Record GstSegment : Set := {
  rate : gdouble;
  applied_rate : gdouble;
  base : Z;
  offset : Z;
  start : Z;
  stop : Z;
  time : Z;
  position : Z;
  duration : Z
}.

(** [gst_segment_init (segment, GST_FORMAT_TIME)]. *)
Definition gst_segment_init : GstSegment :=
  {| rate := d_one; applied_rate := d_one; base := 0; offset := 0; start := 0;
     stop := GST_CLOCK_TIME_NONE; time := 0; position := 0;
     duration := GST_CLOCK_TIME_NONE |}.

Definition set_position (s : GstSegment) (p : Z) : GstSegment :=
  {| rate := rate s; applied_rate := applied_rate s; base := base s;
     offset := offset s; start := start s; stop := stop s; time := time s;
     position := p; duration := duration s |}.

Record GstBuffer : Set := {
  GST_BUFFER_TIMESTAMP : Z;
  GST_BUFFER_DURATION : Z;
  payload : Z                     (* stands for the pixel data *)
}.

(** The macros [MAX] and [MIN] on unsigned values. *)
Definition MAX (a b : Z) : Z := if a >? b then a else b.
Definition MIN (a b : Z) : Z := if a <? b then a else b.

(** ** Frames, converters and the painted output *)

(** A converter made by [videoconvert_convert_new (in_info, out_info)]. *)
Record VideoConvert : Set := {
  conv_in : GstVideoInfo;
  conv_out : GstVideoInfo
}.

(** A mapped video frame: either the pad's buffer mapped with the info frozen
    at its selection, or the scratch buffer a converter has filled. *)
Inductive GstVideoFrame : Set :=
  | MappedFrame (vinfo : GstVideoInfo) (buf : GstBuffer)
  | ConvertedFrame (cv : VideoConvert) (cinfo : GstVideoInfo)
      (converted_size : Z) (vinfo : GstVideoInfo) (buf : GstBuffer).

Inductive GstVideoMixer2Background : Set :=
  | VIDEO_MIXER2_BACKGROUND_CHECKER
  | VIDEO_MIXER2_BACKGROUND_BLACK
  | VIDEO_MIXER2_BACKGROUND_WHITE
  | VIDEO_MIXER2_BACKGROUND_TRANSPARENT.

Definition DEFAULT_BACKGROUND := VIDEO_MIXER2_BACKGROUND_CHECKER.

(** What [mix_frames] does to the output frame, in the order of the calls: one
    background operation, then one call of the composite primitive per
    contributing pad. *)
Inductive Paint : Set :=
  | FillChecker
  | FillColor (y u v : Z)
  | ZeroPlanes
  | Composite (overlay : bool) (pad : Z) (frame : GstVideoFrame)
      (x y : Z) (a : gdouble).

Definition GstTagList : Set := list Z.

(** The buffer [gst_basemixer_blend_buffers] produces. *)
Record OutBuffer : Set := {
  out_timestamp : Z;
  out_duration : Z;
  out_size : Z;
  out_paint : list Paint
}.

Inductive GstFlowReturn : Set :=
  | GST_FLOW_OK | GST_FLOW_NOT_NEGOTIATED | GST_FLOW_EOS | GST_FLOW_ERROR
  | GST_FLOW_DOWNSTREAM (code : Z).   (* what pushing downstream returned *)

Inductive GstStateChange : Set :=
  | GST_STATE_CHANGE_NULL_TO_READY | GST_STATE_CHANGE_READY_TO_PAUSED
  | GST_STATE_CHANGE_PAUSED_TO_PLAYING | GST_STATE_CHANGE_PLAYING_TO_PAUSED
  | GST_STATE_CHANGE_PAUSED_TO_READY | GST_STATE_CHANGE_READY_TO_NULL.

Record SeekEvent : Set := {
  seek_rate : gdouble;
  seek_flush : bool;              (* flags & GST_SEEK_FLAG_FLUSH *)
  seek_start : Z;
  seek_stop : Z
}.

(** ** Pads and the aggregator part of the mixer *)

(** The fields of the parent pad class [GstBaseAggregatorPad] the mixer
    reads. *)
Record GstBaseAggregatorPad : Set := {
  bpad_segment : GstSegment;
  bpad_eos : bool;
  bpad_buffer : option GstBuffer
}.

(** [GstBasemixerPad], with the fields [xpos], [ypos] and [alpha] of its
    subclass [GstVideomixer2Pad].  [pad_name] stands for the address of the
    pad object. *)
Record GstBasemixerPad : Set := {
  pad_name : Z;
  bpad : GstBaseAggregatorPad;
  pad_info : GstVideoInfo;
  zorder : Z;
  convert : option VideoConvert;
  need_conversion_update : bool;
  conversion_info : GstVideoInfo;
  mixed_frame : option GstVideoFrame;
  converted_buffer : option Z;
  queued : option GstBuffer;
  queued_vinfo : GstVideoInfo;
  pad_buffer : option GstBuffer;
  buffer_vinfo : GstVideoInfo;
  start_time : Z;
  end_time : Z;
  xpos : Z;
  ypos : Z;
  alpha : gdouble
}.

(** The fields of the parent class [GstBaseAggregator] the mixer uses: the
    output segment and the reconfigure flag of the source pad. *)
Record GstBaseAggregator : Set := {
  segment : GstSegment;
  srcpad_need_reconfigure : bool
}.

(** ** The host framework

    GStreamer functions the mixer calls and whose code is outside the mixer:
    segment conversions, caps algebra, the answers of the downstream peer, the
    converter factory of [videoconvert.c], and the virtual methods of the
    parent class the mixer chains up to. *)
Class GstHost : Type := {
  GstCaps : Set;
  gst_segment_to_running_time : GstSegment -> Z -> Z;
  gst_segment_to_stream_time : GstSegment -> Z -> Z;
  gst_video_colorimetry_to_string : GstVideoColorimetry -> option string;
  gst_video_chroma_to_string : Z -> option string;
  default_colorimetry : GstVideoFormat -> GstVideoColorimetry;
  video_frame_size : GstVideoFormat -> Z -> Z -> Z;
  gst_video_info_to_caps : GstVideoInfo -> GstCaps;
  gst_video_info_from_caps : GstCaps -> option GstVideoInfo;
  gst_caps_is_equal : GstCaps -> GstCaps -> bool;
  gst_caps_is_empty : GstCaps -> bool;
  gst_caps_intersect : GstCaps -> GstCaps -> GstCaps;
  gst_caps_can_intersect : GstCaps -> GstCaps -> bool;
  gst_caps_fixate : GstCaps -> GstCaps;
  (* gst_structure_remove_fields on width, height, framerate,
     pixel-aspect-ratio and interlace-mode of the first structure *)
  caps_remove_geometry_fields : GstCaps -> GstCaps;
  (* gst_structure_set of width, height and framerate to their full ranges *)
  caps_set_geometry_ranges : GstCaps -> GstCaps;
  (* gst_caps_truncate, the three fixate_field_nearest calls and the three
     getters: the width, height and framerate downstream settles on *)
  caps_fixate_nearest : GstCaps -> Z -> Z -> Z -> Z -> Z * Z * (Z * Z);
  gst_pad_get_allowed_caps : option GstCaps;
  gst_pad_peer_query_caps : option GstCaps;
  videoconvert_convert_new : GstVideoInfo -> GstVideoInfo -> option VideoConvert;
  gst_base_aggregator_pad_get_buffer : GstBaseAggregatorPad -> option GstBuffer;
  gst_base_aggregator_finish_buffer : OutBuffer -> GstFlowReturn;
  parent_change_state_agg : GstStateChange -> GstBaseAggregator -> GstBaseAggregator;
  parent_change_state_pad : GstStateChange -> GstBaseAggregatorPad -> GstBaseAggregatorPad;
  parent_src_event_seek : SeekEvent -> GstBaseAggregator -> GstBaseAggregator * bool
}.

(** Field updates of a pad. *)
Definition set_bpad (p : GstBasemixerPad) (b : GstBaseAggregatorPad) : GstBasemixerPad :=
  {| pad_name := pad_name p; bpad := b; pad_info := pad_info p; zorder := zorder p;
     convert := convert p; need_conversion_update := need_conversion_update p;
     conversion_info := conversion_info p; mixed_frame := mixed_frame p;
     converted_buffer := converted_buffer p; queued := queued p;
     queued_vinfo := queued_vinfo p; pad_buffer := pad_buffer p;
     buffer_vinfo := buffer_vinfo p; start_time := start_time p;
     end_time := end_time p; xpos := xpos p; ypos := ypos p; alpha := alpha p |}.

Definition set_pad_info (p : GstBasemixerPad) (i : GstVideoInfo) : GstBasemixerPad :=
  {| pad_name := pad_name p; bpad := bpad p; pad_info := i; zorder := zorder p;
     convert := convert p; need_conversion_update := need_conversion_update p;
     conversion_info := conversion_info p; mixed_frame := mixed_frame p;
     converted_buffer := converted_buffer p; queued := queued p;
     queued_vinfo := queued_vinfo p; pad_buffer := pad_buffer p;
     buffer_vinfo := buffer_vinfo p; start_time := start_time p;
     end_time := end_time p; xpos := xpos p; ypos := ypos p; alpha := alpha p |}.

Definition set_zorder (p : GstBasemixerPad) (z : Z) : GstBasemixerPad :=
  {| pad_name := pad_name p; bpad := bpad p; pad_info := pad_info p; zorder := z;
     convert := convert p; need_conversion_update := need_conversion_update p;
     conversion_info := conversion_info p; mixed_frame := mixed_frame p;
     converted_buffer := converted_buffer p; queued := queued p;
     queued_vinfo := queued_vinfo p; pad_buffer := pad_buffer p;
     buffer_vinfo := buffer_vinfo p; start_time := start_time p;
     end_time := end_time p; xpos := xpos p; ypos := ypos p; alpha := alpha p |}.

Definition set_convert (p : GstBasemixerPad) (c : option VideoConvert) (upd : bool)
  : GstBasemixerPad :=
  {| pad_name := pad_name p; bpad := bpad p; pad_info := pad_info p; zorder := zorder p;
     convert := c; need_conversion_update := upd;
     conversion_info := conversion_info p; mixed_frame := mixed_frame p;
     converted_buffer := converted_buffer p; queued := queued p;
     queued_vinfo := queued_vinfo p; pad_buffer := pad_buffer p;
     buffer_vinfo := buffer_vinfo p; start_time := start_time p;
     end_time := end_time p; xpos := xpos p; ypos := ypos p; alpha := alpha p |}.

Definition set_conversion_info (p : GstBasemixerPad) (i : GstVideoInfo) (upd : bool)
  : GstBasemixerPad :=
  {| pad_name := pad_name p; bpad := bpad p; pad_info := pad_info p; zorder := zorder p;
     convert := convert p; need_conversion_update := upd;
     conversion_info := i; mixed_frame := mixed_frame p;
     converted_buffer := converted_buffer p; queued := queued p;
     queued_vinfo := queued_vinfo p; pad_buffer := pad_buffer p;
     buffer_vinfo := buffer_vinfo p; start_time := start_time p;
     end_time := end_time p; xpos := xpos p; ypos := ypos p; alpha := alpha p |}.

Definition set_mixed_frame (p : GstBasemixerPad) (f : option GstVideoFrame)
    (cb : option Z) : GstBasemixerPad :=
  {| pad_name := pad_name p; bpad := bpad p; pad_info := pad_info p; zorder := zorder p;
     convert := convert p; need_conversion_update := need_conversion_update p;
     conversion_info := conversion_info p; mixed_frame := f;
     converted_buffer := cb; queued := queued p;
     queued_vinfo := queued_vinfo p; pad_buffer := pad_buffer p;
     buffer_vinfo := buffer_vinfo p; start_time := start_time p;
     end_time := end_time p; xpos := xpos p; ypos := ypos p; alpha := alpha p |}.

Definition set_queued (p : GstBasemixerPad) (q : option GstBuffer) (qi : GstVideoInfo)
  : GstBasemixerPad :=
  {| pad_name := pad_name p; bpad := bpad p; pad_info := pad_info p; zorder := zorder p;
     convert := convert p; need_conversion_update := need_conversion_update p;
     conversion_info := conversion_info p; mixed_frame := mixed_frame p;
     converted_buffer := converted_buffer p; queued := q;
     queued_vinfo := qi; pad_buffer := pad_buffer p;
     buffer_vinfo := buffer_vinfo p; start_time := start_time p;
     end_time := end_time p; xpos := xpos p; ypos := ypos p; alpha := alpha p |}.

(** [gst_buffer_replace (&pad->buffer, b)] together with the two times. *)
Definition set_buffer_times (p : GstBasemixerPad) (b : option GstBuffer) (s e : Z)
  : GstBasemixerPad :=
  {| pad_name := pad_name p; bpad := bpad p; pad_info := pad_info p; zorder := zorder p;
     convert := convert p; need_conversion_update := need_conversion_update p;
     conversion_info := conversion_info p; mixed_frame := mixed_frame p;
     converted_buffer := converted_buffer p; queued := queued p;
     queued_vinfo := queued_vinfo p; pad_buffer := b;
     buffer_vinfo := buffer_vinfo p; start_time := s;
     end_time := e; xpos := xpos p; ypos := ypos p; alpha := alpha p |}.

Definition set_times (p : GstBasemixerPad) (s e : Z) : GstBasemixerPad :=
  set_buffer_times p (pad_buffer p) s e.

Definition set_buffer_vinfo (p : GstBasemixerPad) (i : GstVideoInfo) : GstBasemixerPad :=
  {| pad_name := pad_name p; bpad := bpad p; pad_info := pad_info p; zorder := zorder p;
     convert := convert p; need_conversion_update := need_conversion_update p;
     conversion_info := conversion_info p; mixed_frame := mixed_frame p;
     converted_buffer := converted_buffer p; queued := queued p;
     queued_vinfo := queued_vinfo p; pad_buffer := pad_buffer p;
     buffer_vinfo := i; start_time := start_time p;
     end_time := end_time p; xpos := xpos p; ypos := ypos p; alpha := alpha p |}.

(** ** GLib singly linked lists of pads *)

(** [pad_zorder_compare]: the difference of two [guint] values, returned as
    [int]. *)
Definition pad_zorder_compare (pad1 pad2 : GstBasemixerPad) : Z :=
  s32 (u32 (zorder pad1 - zorder pad2)).

Section GSList.
Context {A : Type} (compare : A -> A -> Z).

(** [g_slist_insert_sorted]: the new element goes before the first element
    it does not compare greater than. *)
Fixpoint g_slist_insert_sorted (l : list A) (data : A) : list A :=
  match l with
  | [] => [data]
  | e :: tl =>
      if compare data e >? 0 then e :: g_slist_insert_sorted tl data
      else data :: l
  end.

(** The merge step of [g_slist_sort]: the head of the first list is taken
    when it compares less than or equal. *)
Fixpoint g_slist_sort_merge (l1 : list A) : list A -> list A :=
  fix merge_second (l2 : list A) : list A :=
    match l1, l2 with
    | [], _ => l2
    | _, [] => l1
    | a :: t1, b :: t2 =>
        if compare a b <=? 0 then a :: g_slist_sort_merge t1 l2
        else b :: merge_second t2
    end.

(** [g_slist_sort_real]: the list is cut in two halves, the first of
    [length / 2] elements, each half is sorted and the two are merged.
    [fuel] bounds the depth of the recursion. *)
Fixpoint g_slist_sort_real (fuel : nat) (l : list A) : list A :=
  match fuel with
  | O => l
  | S fuel' =>
      match l with
      | [] | [_] => l
      | _ =>
          let half := Nat.div2 (List.length l) in
          g_slist_sort_merge
            (g_slist_sort_real fuel' (firstn half l))
            (g_slist_sort_real fuel' (skipn half l))
      end
  end.

Definition g_slist_sort (l : list A) : list A :=
  g_slist_sort_real (List.length l) l.
End GSList.

(** [g_slist_find (list, pad)] and [g_slist_remove (list, pad)] compare
    addresses. *)
Definition g_slist_find (l : list GstBasemixerPad) (name : Z) : option GstBasemixerPad :=
  List.find (fun p => pad_name p =? name) l.

Fixpoint g_slist_remove (l : list GstBasemixerPad) (name : Z) : list GstBasemixerPad :=
  match l with
  | [] => []
  | p :: tl => if pad_name p =? name then tl else p :: g_slist_remove tl name
  end.

Example sort_stable_example :
  g_slist_sort (fun a b : Z * Z => fst a - fst b) [(3,0); (1,1); (3,2); (0,3); (1,4)]
  = [(0,3); (1,1); (1,4); (3,0); (3,2)].
Proof. reflexivity. Qed.

(** * The base mixer *)

Section Basemixer.
Context `{host : GstHost}.

(** What the mixer sends to the rest of the pipeline, in the order it does. *)
Inductive Effect : Type :=
  | PushTagEvent (tags : GstTagList)
  | PushEosEvent
  | SetSrcCaps (caps : option GstCaps)
  | PostQosMessage (running_time stream_time timestamp dur : Z)
      (jitter : Z) (prop : gdouble) (quality : Z) (processed dropped : Z)
  | FinishBuffer (b : OutBuffer)
  | ElementErrorNegotiation
  | SyncValues (pad : Z) (stream_time : Z)
  | ChildAdded (pad : Z)
  | ChildRemoved (pad : Z)
  | ForwardEvent.

(** [GstBasemixer], with the fields [background] and the installed pixel
    primitives of its subclass [GstVideoMixer2] ([functions] is the format
    [set_functions] installed [blend], [overlay], [fill_checker] and
    [fill_color] for). *)
Record GstBasemixer : Type := {
  agg : GstBaseAggregator;
  mix_info : GstVideoInfo;
  sinkpads : list GstBasemixerPad;
  numpads : Z;
  ts_offset : Z;
  nframes : Z;
  current_caps : option GstCaps;
  send_caps : bool;
  send_stream_start : bool;
  newseg_pending : bool;
  pending_tags : option GstTagList;
  proportion : gdouble;
  earliest_time : Z;
  qos_processed : Z;
  qos_dropped : Z;
  background : GstVideoMixer2Background;
  functions : option GstVideoFormat
}.

Definition set_agg (m : GstBasemixer) (a : GstBaseAggregator) : GstBasemixer :=
  {| agg := a; mix_info := mix_info m; sinkpads := sinkpads m; numpads := numpads m;
     ts_offset := ts_offset m; nframes := nframes m; current_caps := current_caps m;
     send_caps := send_caps m; send_stream_start := send_stream_start m;
     newseg_pending := newseg_pending m; pending_tags := pending_tags m;
     proportion := proportion m; earliest_time := earliest_time m;
     qos_processed := qos_processed m; qos_dropped := qos_dropped m;
     background := background m; functions := functions m |}.

Definition set_mix_info (m : GstBasemixer) (i : GstVideoInfo) : GstBasemixer :=
  {| agg := agg m; mix_info := i; sinkpads := sinkpads m; numpads := numpads m;
     ts_offset := ts_offset m; nframes := nframes m; current_caps := current_caps m;
     send_caps := send_caps m; send_stream_start := send_stream_start m;
     newseg_pending := newseg_pending m; pending_tags := pending_tags m;
     proportion := proportion m; earliest_time := earliest_time m;
     qos_processed := qos_processed m; qos_dropped := qos_dropped m;
     background := background m; functions := functions m |}.

Definition set_sinkpads (m : GstBasemixer) (l : list GstBasemixerPad) (n : Z)
  : GstBasemixer :=
  {| agg := agg m; mix_info := mix_info m; sinkpads := l; numpads := n;
     ts_offset := ts_offset m; nframes := nframes m; current_caps := current_caps m;
     send_caps := send_caps m; send_stream_start := send_stream_start m;
     newseg_pending := newseg_pending m; pending_tags := pending_tags m;
     proportion := proportion m; earliest_time := earliest_time m;
     qos_processed := qos_processed m; qos_dropped := qos_dropped m;
     background := background m; functions := functions m |}.

Definition set_pads (m : GstBasemixer) (l : list GstBasemixerPad) : GstBasemixer :=
  set_sinkpads m l (numpads m).

Definition set_cadence (m : GstBasemixer) (off n : Z) : GstBasemixer :=
  {| agg := agg m; mix_info := mix_info m; sinkpads := sinkpads m; numpads := numpads m;
     ts_offset := off; nframes := n; current_caps := current_caps m;
     send_caps := send_caps m; send_stream_start := send_stream_start m;
     newseg_pending := newseg_pending m; pending_tags := pending_tags m;
     proportion := proportion m; earliest_time := earliest_time m;
     qos_processed := qos_processed m; qos_dropped := qos_dropped m;
     background := background m; functions := functions m |}.

Definition set_caps (m : GstBasemixer) (c : option GstCaps) (send : bool) : GstBasemixer :=
  {| agg := agg m; mix_info := mix_info m; sinkpads := sinkpads m; numpads := numpads m;
     ts_offset := ts_offset m; nframes := nframes m; current_caps := c;
     send_caps := send; send_stream_start := send_stream_start m;
     newseg_pending := newseg_pending m; pending_tags := pending_tags m;
     proportion := proportion m; earliest_time := earliest_time m;
     qos_processed := qos_processed m; qos_dropped := qos_dropped m;
     background := background m; functions := functions m |}.

Definition set_flags (m : GstBasemixer) (stream_start newseg : bool) : GstBasemixer :=
  {| agg := agg m; mix_info := mix_info m; sinkpads := sinkpads m; numpads := numpads m;
     ts_offset := ts_offset m; nframes := nframes m; current_caps := current_caps m;
     send_caps := send_caps m; send_stream_start := stream_start;
     newseg_pending := newseg; pending_tags := pending_tags m;
     proportion := proportion m; earliest_time := earliest_time m;
     qos_processed := qos_processed m; qos_dropped := qos_dropped m;
     background := background m; functions := functions m |}.

Definition set_pending_tags (m : GstBasemixer) (t : option GstTagList) : GstBasemixer :=
  {| agg := agg m; mix_info := mix_info m; sinkpads := sinkpads m; numpads := numpads m;
     ts_offset := ts_offset m; nframes := nframes m; current_caps := current_caps m;
     send_caps := send_caps m; send_stream_start := send_stream_start m;
     newseg_pending := newseg_pending m; pending_tags := t;
     proportion := proportion m; earliest_time := earliest_time m;
     qos_processed := qos_processed m; qos_dropped := qos_dropped m;
     background := background m; functions := functions m |}.

Definition set_qos_observation (m : GstBasemixer) (p : gdouble) (e : Z) : GstBasemixer :=
  {| agg := agg m; mix_info := mix_info m; sinkpads := sinkpads m; numpads := numpads m;
     ts_offset := ts_offset m; nframes := nframes m; current_caps := current_caps m;
     send_caps := send_caps m; send_stream_start := send_stream_start m;
     newseg_pending := newseg_pending m; pending_tags := pending_tags m;
     proportion := p; earliest_time := e;
     qos_processed := qos_processed m; qos_dropped := qos_dropped m;
     background := background m; functions := functions m |}.

Definition set_qos_stats (m : GstBasemixer) (processed dropped : Z) : GstBasemixer :=
  {| agg := agg m; mix_info := mix_info m; sinkpads := sinkpads m; numpads := numpads m;
     ts_offset := ts_offset m; nframes := nframes m; current_caps := current_caps m;
     send_caps := send_caps m; send_stream_start := send_stream_start m;
     newseg_pending := newseg_pending m; pending_tags := pending_tags m;
     proportion := proportion m; earliest_time := earliest_time m;
     qos_processed := processed; qos_dropped := dropped;
     background := background m; functions := functions m |}.

Definition set_functions_field (m : GstBasemixer) (f : option GstVideoFormat) : GstBasemixer :=
  {| agg := agg m; mix_info := mix_info m; sinkpads := sinkpads m; numpads := numpads m;
     ts_offset := ts_offset m; nframes := nframes m; current_caps := current_caps m;
     send_caps := send_caps m; send_stream_start := send_stream_start m;
     newseg_pending := newseg_pending m; pending_tags := pending_tags m;
     proportion := proportion m; earliest_time := earliest_time m;
     qos_processed := qos_processed m; qos_dropped := qos_dropped m;
     background := background m; functions := f |}.

Definition set_segment (m : GstBasemixer) (s : GstSegment) : GstBasemixer :=
  set_agg m {| segment := s; srcpad_need_reconfigure := srcpad_need_reconfigure (agg m) |}.

Definition set_segment_position (m : GstBasemixer) (p : Z) : GstBasemixer :=
  set_segment m (set_position (segment (agg m)) p).

(** The virtual methods of [GstBasemixerClass]. *)
Record GstBasemixerClass : Type := {
  modify_src_pad_info :
    option (GstBasemixer -> GstVideoInfo -> GstBasemixer * GstVideoInfo * bool);
  get_preferred_input_caps : option (GstBasemixer -> GstCaps);
  mix_frames : GstBasemixer -> list Paint
}.

(** [gst_video_info_set_format]: the info is reinitialised, then format,
    width and height are set and the default colorimetry and the plane sizes
    are filled in. *)
Definition gst_video_info_set_format (f : GstVideoFormat) (w h : Z) : GstVideoInfo :=
  {| finfo := Some (gst_video_format_get_info f);
     interlace_mode := 0; width := w; height := h;
     size := video_frame_size f w h; chroma_site := 0;
     colorimetry := default_colorimetry f;
     par_n := 1; par_d := 1; fps_n := 0; fps_d := 1 |}.

(** ** QoS bookkeeping *)

Definition gst_basemixer_update_qos (mix : GstBasemixer) (prop : gdouble)
    (diff : Z) (timestamp : Z) : GstBasemixer :=
  if negb (timestamp =? GST_CLOCK_TIME_NONE) then
    if diff >? 0 then
      set_qos_observation mix prop
        (u64 (timestamp + 2 * diff
              + gst_util_uint64_scale_int_round GST_SECOND
                  (fps_d (mix_info mix)) (fps_n (mix_info mix))))
    else
      set_qos_observation mix prop (u64 (timestamp + diff))
  else
    set_qos_observation mix prop GST_CLOCK_TIME_NONE.

Definition gst_basemixer_reset_qos (mix : GstBasemixer) : GstBasemixer :=
  set_qos_stats (gst_basemixer_update_qos mix d_half 0 GST_CLOCK_TIME_NONE) 0 0.

Definition gst_basemixer_read_qos (mix : GstBasemixer) : gdouble * Z :=
  (proportion mix, earliest_time mix).

(** [gst_basemixer_do_qos] returns the jitter; both of its last two branches
    return it, they differ by the logged text only. *)
Definition gst_basemixer_do_qos (mix : GstBasemixer) (timestamp : Z) : Z :=
  if negb (GST_CLOCK_TIME_IS_VALID timestamp) then -1
  else
    let '(_, earliest) := gst_basemixer_read_qos mix in
    if negb (GST_CLOCK_TIME_IS_VALID earliest) then -1
    else
      let qostime := gst_segment_to_running_time (segment (agg mix)) timestamp in
      GST_CLOCK_DIFF qostime earliest.

(** ** Reset and state changes *)

Definition reset_pad (p : GstBasemixerPad) : GstBasemixerPad :=
  set_pad_info
    (set_buffer_times p None GST_CLOCK_TIME_NONE GST_CLOCK_TIME_NONE)
    gst_video_info_init.

Definition gst_basemixer_reset (mix : GstBasemixer) : GstBasemixer :=
  let mix := set_mix_info mix gst_video_info_init in
  let mix := set_cadence mix 0 0 in
  let mix := set_segment mix (set_position gst_segment_init GST_CLOCK_TIME_NONE) in
  let mix := gst_basemixer_reset_qos mix in
  let mix := set_pads mix (map reset_pad (sinkpads mix)) in
  set_flags mix (send_stream_start mix) true.

(** The parent's [change_state] works on the aggregator and on the
    aggregator part of each pad. *)
Definition parent_change_state (t : GstStateChange) (mix : GstBasemixer) : GstBasemixer :=
  let mix := set_agg mix (parent_change_state_agg t (agg mix)) in
  set_pads mix
    (map (fun p => set_bpad p (parent_change_state_pad t (bpad p))) (sinkpads mix)).

Definition gst_basemixer_change_state (mix : GstBasemixer) (transition : GstStateChange)
  : GstBasemixer :=
  let mix :=
    match transition with
    | GST_STATE_CHANGE_READY_TO_PAUSED =>
        let mix := set_flags mix true (newseg_pending mix) in
        let mix := set_caps mix (current_caps mix) true in
        let mix := set_segment mix gst_segment_init in
        set_caps mix None (send_caps mix)
    | _ => mix
    end in
  let mix := parent_change_state transition mix in
  match transition with
  | GST_STATE_CHANGE_PAUSED_TO_READY => gst_basemixer_reset mix
  | _ => mix
  end.

(** ** Output caps *)

(** The re-anchoring of the output cadence both caps functions do when the
    framerate changes. *)
Definition reanchor_cadence (mix : GstBasemixer) : GstBasemixer :=
  let seg := segment (agg mix) in
  if negb (position seg =? GST_CLOCK_TIME_NONE) then
    set_cadence mix (u64 (position seg - start seg)) 0
  else mix.

Definition gst_basemixer_src_setcaps (mix : GstBasemixer) (caps : GstCaps)
  : GstBasemixer * bool :=
  match gst_video_info_from_caps caps with
  | None => (mix, false)
  | Some info =>
      let mix :=
        if negb (fps_n (mix_info mix) =? fps_n info)
           || negb (fps_d (mix_info mix) =? fps_d info)
        then gst_basemixer_reset_qos (reanchor_cadence mix)
        else mix in
      let mix := set_mix_info mix info in
      let mix :=
        match current_caps mix with
        | None => set_caps mix (Some caps) true
        | Some cur =>
            if negb (gst_caps_is_equal caps cur) then set_caps mix (Some caps) true
            else mix
        end in
      (mix, true)
  end.

(** The local variables of the scan of [gst_basemixer_update_src_caps]. *)
Record BestCaps : Set := {
  best_width : Z;
  best_height : Z;
  best_fps : gdouble;
  best_fps_n : Z;
  best_fps_d : Z
}.

Definition best_caps_init : BestCaps :=
  {| best_width := -1; best_height := -1; best_fps := d_minus_one;
     best_fps_n := -1; best_fps_d := -1 |}.

(** The framerate of a pad as the scan computes it. *)
Definition cur_fps_of (i : GstVideoInfo) : gdouble :=
  if fps_d i =? 0 then d_zero else gst_util_fraction_to_double (fps_n i) (fps_d i).

(** One iteration of the scan. *)
Definition update_src_caps_scan_pad (b : BestCaps) (mpad : GstBasemixerPad) : BestCaps :=
  let i := pad_info mpad in
  if (width i =? 0) || (height i =? 0) then b
  else
    let bw := if best_width b <? width i then width i else best_width b in
    let bh := if best_height b <? height i then height i else best_height b in
    let cur_fps := cur_fps_of i in
    if dlt (best_fps b) cur_fps then
      {| best_width := bw; best_height := bh; best_fps := cur_fps;
         best_fps_n := fps_n i; best_fps_d := fps_d i |}
    else
      {| best_width := bw; best_height := bh; best_fps := best_fps b;
         best_fps_n := best_fps_n b; best_fps_d := best_fps_d b |}.

Definition update_src_caps_scan (pads : list GstBasemixerPad) : BestCaps :=
  fold_left update_src_caps_scan_pad pads best_caps_init.

(** The default framerate applied after the scan. *)
Definition update_src_caps_default (b : BestCaps) : BestCaps :=
  if (best_fps_n b <=? 0) || (best_fps_d b <=? 0) || deq (best_fps b) d_zero then
    {| best_width := best_width b; best_height := best_height b;
       best_fps := d_25; best_fps_n := 25; best_fps_d := 1 |}
  else b.

Definition update_src_caps_best (mix : GstBasemixer) : BestCaps :=
  update_src_caps_default (update_src_caps_scan (sinkpads mix)).

(** The info [gst_basemixer_update_src_caps] builds from the selection,
    before the subclass and downstream adjust it. *)
Definition update_src_caps_proposal (mix : GstBasemixer) (b : BestCaps) : GstVideoInfo :=
  let info :=
    gst_video_info_set_format (GST_VIDEO_INFO_FORMAT (mix_info mix))
      (best_width b) (best_height b) in
  let info := set_fps info (best_fps_n b) (best_fps_d b) in
  set_par info (par_n (mix_info mix)) (par_d (mix_info mix)).

Definition gst_basemixer_update_src_caps (klass : GstBasemixerClass) (mix : GstBasemixer)
  : GstBasemixer * bool :=
  let b := update_src_caps_best mix in
  if (best_width b >? 0) && (best_height b >? 0) && dlt d_zero (best_fps b) then
    let mix :=
      if negb (fps_n (mix_info mix) =? best_fps_n b)
         || negb (fps_d (mix_info mix) =? best_fps_d b)
      then reanchor_cadence mix else mix in
    let info := update_src_caps_proposal mix b in
    let hooked :=
      match modify_src_pad_info klass with
      | Some hook => hook mix info
      | None => (mix, info, true)
      end in
    let '(mix, info, ok) := hooked in
    if negb ok then (mix, false)
    else
      let caps := gst_video_info_to_caps info in
      match gst_pad_peer_query_caps with
      | Some peercaps =>
          let tmp := gst_caps_intersect (caps_set_geometry_ranges caps) peercaps in
          if gst_caps_is_empty tmp then (mix, false)
          else
            let '(w, h, (n, d)) :=
              caps_fixate_nearest tmp (width info) (height info)
                (best_fps_n b) (best_fps_d b) in
            let info := set_fps (set_width_height info w h) n d in
            gst_basemixer_src_setcaps mix (gst_video_info_to_caps info)
      | None =>
          gst_basemixer_src_setcaps mix (gst_video_info_to_caps info)
      end
  else (mix, true).

(** ** Format election and converters *)

(** The local variables of the first loop of
    [gst_basemixer_update_converters]; [formats_table] is the hash table from
    format to the number of pads seen with it. *)
Record Election : Type := {
  need_alpha : bool;
  at_least_one_alpha : bool;
  best_format : GstVideoFormat;
  best_info : GstVideoInfo;
  best_format_number : Z;
  formats_table : gmap Z Z
}.

Definition election_init : Election :=
  {| need_alpha := false; at_least_one_alpha := false;
     best_format := GST_VIDEO_FORMAT_UNKNOWN; best_info := gst_video_info_init;
     best_format_number := 0; formats_table := ∅ |}.

(** [finfo->flags & GST_VIDEO_FORMAT_FLAG_ALPHA] of an info; the source
    dereferences [finfo] only where it is set. *)
Definition info_has_alpha (i : GstVideoInfo) : bool :=
  match finfo i with
  | Some fi => has_alpha_flag fi
  | None => false
  end.

(** One iteration of the election loop. *)
Definition elect_pad (downstream_caps : GstCaps) (e : Election) (pad : GstBasemixerPad)
  : Election :=
  match finfo (pad_info pad) with
  | None => e
  | Some fi =>
      let one_alpha := if has_alpha_flag fi then true else at_least_one_alpha e in
      let skip :=
        {| need_alpha := need_alpha e; at_least_one_alpha := one_alpha;
           best_format := best_format e; best_info := best_info e;
           best_format_number := best_format_number e;
           formats_table := formats_table e |} in
      if need_alpha e && negb (has_alpha_flag fi) then skip
      else if format_eqb (format fi) GST_VIDEO_FORMAT_UNKNOWN then skip
      else
        let possible_caps :=
          caps_remove_geometry_fields (gst_video_info_to_caps (pad_info pad)) in
        if negb (gst_caps_can_intersect downstream_caps possible_caps) then skip
        else
          let key := format_code (format fi) in
          let format_number := default 0 (formats_table e !! key) + 1 in
          let table := <[key := format_number]> (formats_table e) in
          if negb (need_alpha e) && has_alpha_flag fi then
            {| need_alpha := true; at_least_one_alpha := one_alpha;
               best_format := format fi; best_info := pad_info pad;
               best_format_number := format_number; formats_table := table |}
          else if format_number >? best_format_number e then
            {| need_alpha := need_alpha e; at_least_one_alpha := one_alpha;
               best_format := format fi; best_info := pad_info pad;
               best_format_number := format_number; formats_table := table |}
          else
            {| need_alpha := need_alpha e; at_least_one_alpha := one_alpha;
               best_format := best_format e; best_info := best_info e;
               best_format_number := best_format_number e;
               formats_table := table |}
  end.

(** The election: the loop over the pads, then the fallback to the fixated
    downstream caps when no pad format was retained.  The result is the
    elected info and whether some pad has an alpha format. *)
Definition elect_format (downstream_caps : GstCaps) (pads : list GstBasemixerPad)
  : GstVideoInfo * bool :=
  let e := fold_left (elect_pad downstream_caps) pads election_init in
  let info :=
    if format_eqb (best_format e) GST_VIDEO_FORMAT_UNKNOWN then
      match gst_video_info_from_caps (gst_caps_fixate downstream_caps) with
      | Some i => i
      | None => best_info e
      end
    else best_info e in
  (info, at_least_one_alpha e).

(** [g_strcmp0] on strings that may be NULL, as a truth value: [true] when
    the strings differ. *)
Definition g_strcmp0 (a b : option string) : bool :=
  match a, b with
  | None, None => false
  | Some x, Some y => negb (String.eqb x y)
  | _, _ => true
  end.

(** The second loop of [gst_basemixer_update_converters]: the pads as the
    loop left them, and [false] when it stopped at a pad no converter could be
    made for. *)
Fixpoint update_converters_pads (best : GstVideoInfo) (pads : list GstBasemixerPad)
  : list GstBasemixerPad * bool :=
  match pads with
  | [] => ([], true)
  | pad :: tl =>
      match finfo (pad_info pad) with
      | None =>
          let '(tl', ok) := update_converters_pads best tl in (pad :: tl', ok)
      | Some fi =>
          if format_eqb (format fi) GST_VIDEO_FORMAT_UNKNOWN then
            let '(tl', ok) := update_converters_pads best tl in (pad :: tl', ok)
          else
            let pad := set_convert pad None (need_conversion_update pad) in
            if negb (format_eqb (GST_VIDEO_INFO_FORMAT best) (format fi))
               || g_strcmp0 (gst_video_colorimetry_to_string (colorimetry (pad_info pad)))
                    (gst_video_colorimetry_to_string (colorimetry best))
               || g_strcmp0 (gst_video_chroma_to_string (chroma_site (pad_info pad)))
                    (gst_video_chroma_to_string (chroma_site best))
            then
              match videoconvert_convert_new (pad_info pad) best with
              | Some c =>
                  let '(tl', ok) := update_converters_pads best tl in
                  (set_convert pad (Some c) true :: tl', ok)
              | None => (set_convert pad None true :: tl, false)
              end
            else
              let '(tl', ok) := update_converters_pads best tl in (pad :: tl', ok)
      end
  end.

(** The caps downstream allows, intersected with the caps the subclass
    prefers when it has a preference. *)
Definition allowed_downstream_caps (klass : GstBasemixerClass) (mix : GstBasemixer)
  : option GstCaps :=
  match get_preferred_input_caps klass with
  | Some preferred =>
      option_map (fun c => gst_caps_intersect c (preferred mix)) gst_pad_get_allowed_caps
  | None => gst_pad_get_allowed_caps
  end.

Definition gst_basemixer_update_converters (klass : GstBasemixerClass) (mix : GstBasemixer)
  : GstBasemixer * list Effect * bool :=
  match allowed_downstream_caps klass mix with
  | None => (mix, [], false)
  | Some downstream_caps =>
      if gst_caps_is_empty downstream_caps then (mix, [], false)
      else
        let '(best, one_alpha) := elect_format downstream_caps (sinkpads mix) in
        if one_alpha && negb (info_has_alpha best) then
          (mix, [ElementErrorNegotiation], false)
        else
          let mix := set_mix_info mix best in
          let '(pads, ok) := update_converters_pads best (sinkpads mix) in
          (set_pads mix pads, [], ok)
  end.

(** The caps event of a sink pad. *)
Definition gst_basemixer_pad_sink_setcaps (klass : GstBasemixerClass) (mix : GstBasemixer)
    (name : Z) (caps : GstCaps) : GstBasemixer * list Effect * bool :=
  match gst_video_info_from_caps caps with
  | None => (mix, [], false)
  | Some info =>
      if negb (format_eqb (GST_VIDEO_INFO_FORMAT (mix_info mix)) GST_VIDEO_FORMAT_UNKNOWN)
         && (negb (par_n (mix_info mix) =? par_n info)
             || negb (par_d (mix_info mix) =? par_d info)
             || negb (interlace_mode (mix_info mix) =? interlace_mode info))
      then (mix, [], false)
      else
        let pads :=
          map (fun p => if pad_name p =? name then set_pad_info p info else p)
            (sinkpads mix) in
        let '(mix, eff, ret) := gst_basemixer_update_converters klass (set_pads mix pads) in
        if ret then
          let '(mix, ret) := gst_basemixer_update_src_caps klass mix in (mix, eff, ret)
        else (mix, eff, ret)
  end.

(** ** The queue filler *)

(** Clipping of an interval to a pad segment and conversion to running time,
    as both the queue filler and the sink-side clip step write it. *)
Definition clip_to_running (seg : GstSegment) (s e : Z) : Z * Z :=
  let s := MAX s (start seg) in
  let e := if negb (stop seg =? GST_CLOCK_TIME_NONE) then MIN e (stop seg) else e in
  (gst_segment_to_running_time seg s, gst_segment_to_running_time seg e).

(** "Convert to the output segment rate". *)
Definition convert_to_output_rate (out_rate : gdouble) (se : Z * Z) : Z * Z :=
  if negb (deq (ABS out_rate) d_one) then
    (mul_by_double (fst se) (ABS out_rate), mul_by_double (snd se) (ABS out_rate))
  else se.

(** The outcome of the loop body of [gst_basemixer_fill_queues] for one pad:
    the early [return -2], a failed [g_assert], or the pad as the iteration
    leaves it with what it did to [need_more_data] and [eos]. *)
Inductive PadFill : Set :=
  | PadError
  | PadAssertFailed
  | PadNext (pad : GstBasemixerPad) (sets_need_more : bool) (clears_eos : bool).

(** [buf == pad->queued] holds exactly when the candidate was taken from
    [queued]; the queued buffer is then released. *)
Definition release_candidate (from_queued : bool) (pad : GstBasemixerPad) : GstBasemixerPad :=
  if from_queued then set_queued pad None (queued_vinfo pad) else pad.

Definition starts_before (start_time : Z) (b : option GstBuffer) : bool :=
  match b with
  | Some b => start_time <? GST_BUFFER_TIMESTAMP b
  | None => false
  end.

(** The candidate buffer with its info, start, duration and origin: the
    queued buffer, which ends where the new one starts, or the new buffer
    when it has a duration. *)
Definition fill_candidate (pad : GstBasemixerPad) (buf : GstBuffer)
  : option (GstBuffer * GstVideoInfo * Z * Z * bool) :=
  let start_time := GST_BUFFER_TIMESTAMP buf in
  match queued pad with
  | Some q =>
      Some (q, queued_vinfo pad, GST_BUFFER_TIMESTAMP q,
            u64 (start_time - GST_BUFFER_TIMESTAMP q), true)
  | None =>
      if GST_BUFFER_DURATION buf =? GST_CLOCK_TIME_NONE then None
      else Some (buf, pad_info pad, start_time, GST_BUFFER_DURATION buf, false)
  end.

Definition fill_queues_pad (out_rate : gdouble) (output_start_time output_end_time : Z)
    (pad : GstBasemixerPad) : PadFill :=
  let seg := bpad_segment (bpad pad) in
  let is_eos := bpad_eos (bpad pad) in
  match gst_base_aggregator_pad_get_buffer (bpad pad) with
  | Some buf =>
      let ts := GST_BUFFER_TIMESTAMP buf in
      if ts =? GST_CLOCK_TIME_NONE then PadError
      else if starts_before ts (pad_buffer pad) || starts_before ts (queued pad)
      then PadNext pad true false
      else
        match fill_candidate pad buf with
        | None => PadNext (set_queued pad (Some buf) (pad_info pad)) true false
        | Some (buf, vinfo, s0, dur, from_queued) =>
            if (s0 =? GST_CLOCK_TIME_NONE) || (dur =? GST_CLOCK_TIME_NONE) then
              PadAssertFailed
            else
            let e0 := u64 (dur + s0) in
            if (s0 >=? stop seg) || (e0 <? start seg) then
              PadNext (release_candidate from_queued pad) true false
            else
              let '(rs, re) := clip_to_running seg s0 e0 in
              if (rs =? GST_CLOCK_TIME_NONE) || (re =? GST_CLOCK_TIME_NONE) then
                PadAssertFailed
              else
                let '(s1, e1) := convert_to_output_rate out_rate (rs, re) in
                if negb (end_time pad =? GST_CLOCK_TIME_NONE) && (end_time pad >? e1)
                then PadNext (release_candidate from_queued pad) true false
                else if (e1 >=? output_start_time) && (s1 <? output_end_time)
                then
                  PadNext
                    (release_candidate from_queued
                       (set_buffer_vinfo (set_buffer_times pad (Some buf) s1 e1) vinfo))
                    false true
                else if s1 >=? output_end_time then PadNext pad false true
                else PadNext (release_candidate from_queued pad) true false
        end
  | None =>
      if negb (end_time pad =? GST_CLOCK_TIME_NONE) then
        if end_time pad <=? output_start_time then
          PadNext (set_buffer_times pad None GST_CLOCK_TIME_NONE GST_CLOCK_TIME_NONE)
            is_eos false
        else PadNext pad false is_eos
      else PadNext pad false false
  end.

(** The loop over the pads.  The result is [None] when an assertion failed;
    otherwise the pads as the loop left them and [None] for the early
    [return -2] or the final values of [eos] and [need_more_data]. *)
Fixpoint fill_queues_loop (out_rate : gdouble) (output_start_time output_end_time : Z)
    (pads : list GstBasemixerPad) (eos need_more_data : bool)
  : option (list GstBasemixerPad * option (bool * bool)) :=
  match pads with
  | [] => Some ([], Some (eos, need_more_data))
  | pad :: tl =>
      match fill_queues_pad out_rate output_start_time output_end_time pad with
      | PadAssertFailed => None
      | PadError => Some (pad :: tl, None)
      | PadNext pad' more clears =>
          match fill_queues_loop out_rate output_start_time output_end_time tl
                  (if clears then false else eos) (more || need_more_data) with
          | Some (tl', r) => Some (pad' :: tl', r)
          | None => None
          end
      end
  end.

(** [gst_basemixer_fill_queues]: 1 is OK, 0 need more data, -1 EOS and -2
    error. *)
Definition gst_basemixer_fill_queues (mix : GstBasemixer)
    (output_start_time output_end_time : Z) : option (GstBasemixer * Z) :=
  match fill_queues_loop (rate (segment (agg mix))) output_start_time output_end_time
          (sinkpads mix) true false with
  | None => None
  | Some (pads, None) => Some (set_pads mix pads, -2)
  | Some (pads, Some (eos, need_more_data)) =>
      Some (set_pads mix pads,
            if need_more_data then 0 else if eos then -1 else 1)
  end.

(** ** Blending *)

(** The first loop of [gst_basemixer_blend_buffers] for one pad: the current
    buffer is mapped, converted when the pad has a converter, and left in
    [mixed_frame] for the subclass.  [gst_object_sync_values] is recorded as
    an effect: what it writes depends on the control bindings the application
    attached, and the model runs without any. *)
Definition blend_prepare_pad (mix : GstBasemixer) (outsize : Z) (pad : GstBasemixerPad)
  : GstBasemixerPad * list Effect :=
  match pad_buffer pad with
  | None => (pad, [])
  | Some b =>
      let stream_time :=
        gst_segment_to_stream_time (bpad_segment (bpad pad)) (GST_BUFFER_TIMESTAMP b) in
      let eff :=
        if GST_CLOCK_TIME_IS_VALID stream_time
        then [SyncValues (pad_name pad) stream_time] else [] in
      match convert pad with
      | Some cv =>
          let pad :=
            if need_conversion_update pad then
              set_conversion_info pad
                (gst_video_info_set_format (GST_VIDEO_INFO_FORMAT (mix_info mix))
                   (width (pad_info pad)) (height (pad_info pad)))
                false
            else pad in
          let converted_size := size (conversion_info pad) in
          let converted_size :=
            if converted_size >? outsize then converted_size else outsize in
          (set_mixed_frame pad
             (Some (ConvertedFrame cv (conversion_info pad) converted_size
                      (buffer_vinfo pad) b))
             (Some converted_size), eff)
      | None =>
          (set_mixed_frame pad (Some (MappedFrame (buffer_vinfo pad) b))
             (converted_buffer pad), eff)
      end
  end.

Fixpoint blend_prepare (mix : GstBasemixer) (outsize : Z) (pads : list GstBasemixerPad)
  : list GstBasemixerPad * list Effect :=
  match pads with
  | [] => ([], [])
  | pad :: tl =>
      let '(pad', e1) := blend_prepare_pad mix outsize pad in
      let '(tl', e2) := blend_prepare mix outsize tl in
      (pad' :: tl', e1 ++ e2)
  end.

Definition blend_release_pad (pad : GstBasemixerPad) : GstBasemixerPad :=
  set_mixed_frame pad None None.

Definition gst_basemixer_blend_buffers (klass : GstBasemixerClass) (mix : GstBasemixer)
    (output_start_time output_end_time : Z)
  : GstBasemixer * list Effect * OutBuffer :=
  let outsize := size (mix_info mix) in
  let '(pads, eff) := blend_prepare mix outsize (sinkpads mix) in
  let mix := set_pads mix pads in
  let paint := mix_frames klass mix in
  let outbuf :=
    {| out_timestamp := output_start_time;
       out_duration := u64 (output_end_time - output_start_time);
       out_size := outsize; out_paint := paint |} in
  (set_pads mix (map blend_release_pad (sinkpads mix)), eff, outbuf).

(** ** The aggregate tick *)

Definition output_start_time_of (mix : GstBasemixer) : Z :=
  let seg := segment (agg mix) in
  if position seg =? GST_CLOCK_TIME_NONE then start seg else position seg.

(** The end of the next output frame on the cadence, before the clamp to the
    segment stop. *)
Definition cadence_end (mix : GstBasemixer) : Z :=
  u64 (ts_offset mix
       + gst_util_uint64_scale_round (u64 (nframes mix + 1))
           (u64 (GST_SECOND * fps_d (mix_info mix))) (u64 (fps_n (mix_info mix)))
       + start (segment (agg mix))).

Definition output_end_time_of (mix : GstBasemixer) : Z :=
  let seg := segment (agg mix) in
  if negb (stop seg =? GST_CLOCK_TIME_NONE) then MIN (cadence_end mix) (stop seg)
  else cadence_end mix.

(** [gst_pad_check_reconfigure] reads and clears the flag of the source
    pad. *)
Definition clear_reconfigure (mix : GstBasemixer) : GstBasemixer :=
  set_agg mix {| segment := segment (agg mix); srcpad_need_reconfigure := false |}.

(** The end of a tick that passed the queue filler: the position advances and
    the frame counter is incremented. *)
Definition advance (mix : GstBasemixer) (output_end_time : Z) : GstBasemixer :=
  let mix := set_segment_position mix output_end_time in
  set_cadence mix (ts_offset mix) (u64 (nframes mix + 1)).

(** The start of [gst_basemixer_aggregate], before the mixer lock is taken:
    the renegotiation when the source pad asks for it, and the announcement
    of new caps. *)
Definition aggregate_prepare (klass : GstBasemixerClass) (mix : GstBasemixer)
  : GstBasemixer * list Effect :=
  let mix :=
    if srcpad_need_reconfigure (agg mix)
    then fst (gst_basemixer_update_src_caps klass (clear_reconfigure mix))
    else mix in
  if send_caps mix
  then (set_caps mix (current_caps mix) false, [SetSrcCaps (current_caps mix)])
  else (mix, []).

(** The frame dropped by QoS: the counter, the QoS message, and the
    advance. *)
Definition aggregate_drop (mix : GstBasemixer) (output_start_time output_end_time : Z)
    (jitter : Z) : GstBasemixer * list Effect :=
  let mix := set_qos_stats mix (qos_processed mix) (u64 (qos_dropped mix + 1)) in
  let msg :=
    PostQosMessage
      (gst_segment_to_running_time (segment (agg mix)) output_start_time)
      (gst_segment_to_stream_time (segment (agg mix)) output_start_time)
      output_start_time (u64 (output_end_time - output_start_time))
      jitter (proportion mix) 1000000 (qos_processed mix) (qos_dropped mix) in
  (advance mix output_end_time, [msg]).

(** The frame blended and pushed. *)
Definition aggregate_blend (klass : GstBasemixerClass) (mix : GstBasemixer)
    (output_start_time output_end_time : Z)
  : GstBasemixer * list Effect * GstFlowReturn :=
  let '(mix, eff_blend, outbuf) :=
    gst_basemixer_blend_buffers klass mix output_start_time output_end_time in
  let mix := set_qos_stats mix (u64 (qos_processed mix + 1)) (qos_dropped mix) in
  (advance mix output_end_time, eff_blend ++ [FinishBuffer outbuf],
   gst_base_aggregator_finish_buffer outbuf).

(** The part of [gst_basemixer_aggregate] under the mixer lock; [None] stands
    for a failed assertion of the queue filler. *)
Definition aggregate_locked (klass : GstBasemixerClass) (mix : GstBasemixer)
  : option (GstBasemixer * list Effect * GstFlowReturn) :=
  let output_start_time := output_start_time_of mix in
  let output_end_time := output_end_time_of mix in
  let '(mix, eff_tags) :=
    match pending_tags mix with
    | Some tags => (set_pending_tags mix None, [PushTagEvent tags])
    | None => (mix, [])
    end in
  match gst_basemixer_fill_queues mix output_start_time output_end_time with
  | None => None
  | Some (mix, res) =>
      if res =? 0 then Some (mix, eff_tags, GST_FLOW_OK)
      else if res =? -1 then Some (mix, eff_tags ++ [PushEosEvent], GST_FLOW_EOS)
      else if res =? -2 then Some (mix, eff_tags, GST_FLOW_ERROR)
      else
        let jitter := gst_basemixer_do_qos mix output_start_time in
        if jitter <=? 0 then
          let '(mix, eff, ret) :=
            aggregate_blend klass mix output_start_time output_end_time in
          Some (mix, eff_tags ++ eff, ret)
        else
          let '(mix, eff) :=
            aggregate_drop mix output_start_time output_end_time jitter in
          Some (mix, eff_tags ++ eff, GST_FLOW_OK)
  end.

Definition gst_basemixer_aggregate (klass : GstBasemixerClass) (mix : GstBasemixer)
  : option (GstBasemixer * list Effect * GstFlowReturn) :=
  if format_eqb (GST_VIDEO_INFO_FORMAT (mix_info mix)) GST_VIDEO_FORMAT_UNKNOWN then
    Some (mix, [], GST_FLOW_NOT_NEGOTIATED)
  else
    let '(mix, eff_caps) := aggregate_prepare klass mix in
    match aggregate_locked klass mix with
    | Some (mix, eff, ret) => Some (mix, eff_caps ++ eff, ret)
    | None => None
    end.

(** ** Source pad events *)

(** The QoS event from downstream. *)
Definition gst_basemixer_src_event_qos (mix : GstBasemixer) (prop : gdouble)
    (diff timestamp : Z) : GstBasemixer * list Effect :=
  (gst_basemixer_update_qos mix prop diff timestamp, [ForwardEvent]).

(** The loop body of the seek event. *)
Definition seek_pad (flush : bool) (seg_rate abs_rate : gdouble) (p : GstBasemixerPad)
  : GstBasemixerPad :=
  if flush then set_buffer_times p None GST_CLOCK_TIME_NONE GST_CLOCK_TIME_NONE
  else if negb (deq (ABS seg_rate) abs_rate) then
    let has_buffer := match pad_buffer p with Some _ => true | None => false end in
    let p :=
      if negb (deq (ABS seg_rate) d_one) && has_buffer then
        set_times p (div_by_double (start_time p) (ABS seg_rate))
          (div_by_double (end_time p) (ABS seg_rate))
      else p in
    if negb (deq abs_rate d_one) && has_buffer then
      set_times p (mul_by_double (start_time p) abs_rate)
        (mul_by_double (end_time p) abs_rate)
    else p
  else p.

Definition gst_basemixer_src_event_seek (mix : GstBasemixer) (ev : SeekEvent)
  : GstBasemixer * bool :=
  if SFleb (seek_rate ev) d_zero then (mix, false)
  else
    let abs_rate := ABS (seek_rate ev) in
    let seg_rate := rate (segment (agg mix)) in
    let mix := set_pads mix (map (seek_pad (seek_flush ev) seg_rate abs_rate) (sinkpads mix)) in
    let mix := set_segment_position mix GST_CLOCK_TIME_NONE in
    let mix := set_cadence mix 0 0 in
    let mix := gst_basemixer_reset_qos mix in
    let '(a, result) := parent_src_event_seek ev (agg mix) in
    (set_agg mix a, result).

(** ** Sink pad events and the sink-side clip *)

(** The duration the clip step works with: the duration of the buffer, or
    one frame of the pad framerate when the buffer has none and the pad has a
    framerate. *)
Definition sink_clip_duration (pad : GstBasemixerPad) (buf : GstBuffer) : Z :=
  let dur := GST_BUFFER_DURATION buf in
  if (dur =? GST_CLOCK_TIME_NONE) && negb (fps_n (pad_info pad) =? 0) then
    gst_util_uint64_scale_int_round GST_SECOND
      (fps_d (pad_info pad)) (fps_n (pad_info pad))
  else dur.

(** The interval the clip step computes for a buffer, when it gets that far:
    [None] when the buffer has no timestamp or no usable duration. *)
Definition sink_clip_interval (mix : GstBasemixer) (pad : GstBasemixerPad) (buf : GstBuffer)
  : option (Z * Z) :=
  let ts := GST_BUFFER_TIMESTAMP buf in
  if ts =? GST_CLOCK_TIME_NONE then None
  else
    let dur := sink_clip_duration pad buf in
    if dur =? GST_CLOCK_TIME_NONE then None
    else
      Some (convert_to_output_rate (rate (segment (agg mix)))
              (clip_to_running (bpad_segment (bpad pad)) ts (u64 (dur + ts)))).

(** [gst_basemixer_sink_clip]: the flow return and [*outbuf]. *)
Definition gst_basemixer_sink_clip (mix : GstBasemixer) (pad : GstBasemixerPad)
    (buf : GstBuffer) : GstFlowReturn * option GstBuffer :=
  if GST_BUFFER_TIMESTAMP buf =? GST_CLOCK_TIME_NONE then (GST_FLOW_ERROR, None)
  else
    match sink_clip_interval mix pad buf with
    | None => (GST_FLOW_OK, Some buf)
    | Some (_, e) =>
        match bpad_buffer (bpad pad) with
        | Some _ =>
            if e <? end_time pad then (GST_FLOW_OK, None) else (GST_FLOW_OK, Some buf)
        | None => (GST_FLOW_OK, Some buf)
        end
    end.

Definition update_pad (name : Z) (f : GstBasemixerPad -> GstBasemixerPad)
    (l : list GstBasemixerPad) : list GstBasemixerPad :=
  map (fun p => if pad_name p =? name then f p else p) l.

(** The flush-stop event of a sink pad. *)
Definition gst_basemixer_sink_event_flush_stop (mix : GstBasemixer) (name : Z)
  : GstBasemixer :=
  let mix := set_flags mix (send_stream_start mix) true in
  let mix := gst_basemixer_reset_qos mix in
  let mix :=
    set_pads mix
      (update_pad name
         (fun p => set_buffer_times p None GST_CLOCK_TIME_NONE GST_CLOCK_TIME_NONE)
         (sinkpads mix)) in
  let mix := set_segment_position mix GST_CLOCK_TIME_NONE in
  set_cadence mix 0 0.

(** ** Pads: z-order property, request and release *)

Definition DEFAULT_PAD_ZORDER : Z := 0.
Definition DEFAULT_PAD_XPOS : Z := 0.
Definition DEFAULT_PAD_YPOS : Z := 0.

(** [gst_basemixer_pad_set_property] for the property [zorder]. *)
Definition gst_basemixer_pad_set_property (mix : GstBasemixer) (name : Z) (value : Z)
  : GstBasemixer :=
  let pads := update_pad name (fun p => set_zorder p value) (sinkpads mix) in
  set_pads mix (g_slist_sort pad_zorder_compare pads).

(** A pad object as [g_object_new] and the two instance initialisers leave
    it. *)
Definition new_pad (name : Z) : GstBasemixerPad :=
  {| pad_name := name;
     bpad := {| bpad_segment := gst_segment_init; bpad_eos := false; bpad_buffer := None |};
     pad_info := zeroed_video_info; zorder := DEFAULT_PAD_ZORDER;
     convert := None; need_conversion_update := false;
     conversion_info := zeroed_video_info; mixed_frame := None;
     converted_buffer := None; queued := None; queued_vinfo := zeroed_video_info;
     pad_buffer := None; buffer_vinfo := zeroed_video_info;
     start_time := 0; end_time := 0;
     xpos := DEFAULT_PAD_XPOS; ypos := DEFAULT_PAD_YPOS; alpha := d_one |}.

(** [gst_basemixer_request_new_pad]; [mixpad] is what the parent's
    [request_new_pad] returned. *)
Definition gst_basemixer_request_new_pad (mix : GstBasemixer)
    (mixpad : option GstBasemixerPad) : GstBasemixer * list Effect :=
  match mixpad with
  | None => (mix, [])
  | Some mixpad =>
      let mixpad := set_zorder mixpad (numpads mix) in
      let mixpad := set_times mixpad GST_CLOCK_TIME_NONE GST_CLOCK_TIME_NONE in
      (set_sinkpads mix
         (g_slist_insert_sorted pad_zorder_compare (sinkpads mix) mixpad)
         (u32 (numpads mix + 1)),
       [ChildAdded (pad_name mixpad)])
  end.

Definition gst_basemixer_release_pad (klass : GstBasemixerClass) (mix : GstBasemixer)
    (name : Z) : GstBasemixer * list Effect :=
  match g_slist_find (sinkpads mix) name with
  | None => (mix, [])
  | Some _ =>
      let mix :=
        set_sinkpads mix (g_slist_remove (sinkpads mix) name) (u32 (numpads mix - 1)) in
      let '(mix, eff, _) := gst_basemixer_update_converters klass mix in
      let update_caps :=
        negb (format_eqb (GST_VIDEO_INFO_FORMAT (mix_info mix)) GST_VIDEO_FORMAT_UNKNOWN) in
      let mix :=
        if update_caps then fst (gst_basemixer_update_src_caps klass mix) else mix in
      (mix, ChildRemoved name :: eff)
  end.

(** The mixer object as [g_object_new] hands it to [gst_basemixer_init]. *)
Definition zeroed_basemixer : GstBasemixer :=
  {| agg := {| segment := gst_segment_init; srcpad_need_reconfigure := false |};
     mix_info := zeroed_video_info; sinkpads := []; numpads := 0;
     ts_offset := 0; nframes := 0; current_caps := None; send_caps := false;
     send_stream_start := false; newseg_pending := false; pending_tags := None;
     proportion := d_zero; earliest_time := 0; qos_processed := 0; qos_dropped := 0;
     background := DEFAULT_BACKGROUND; functions := None |}.

Definition gst_basemixer_init (mix : GstBasemixer) : GstBasemixer :=
  let mix := set_caps mix None (send_caps mix) in
  let mix := set_pending_tags mix None in
  gst_basemixer_reset mix.

(** * The positioned mixer [videomixer2] *)

(** [set_functions] installs the four pixel primitives of the format, for
    each of the formats of the pad templates. *)
Definition set_functions (mix : GstBasemixer) (info : GstVideoInfo) : GstBasemixer * bool :=
  match GST_VIDEO_INFO_FORMAT info with
  | GST_VIDEO_FORMAT_UNKNOWN => (set_functions_field mix None, false)
  | f => (set_functions_field mix (Some f), true)
  end.

(** One iteration of the scan of [gst_videomixer2_modify_src_pad_info].
    [this_width] and [this_height] are sums of two [gint]: a sum that leaves
    the range of [gint] wraps around, as the compiled addition does on two's
    complement machines. *)
Definition modify_scan_pad (best : Z * Z) (pad : GstBasemixerPad) : Z * Z :=
  let w := width (pad_info pad) in
  let h := height (pad_info pad) in
  if (w =? 0) || (h =? 0) then best
  else
    let this_width := s32 (w + (if xpos pad >? 0 then xpos pad else 0)) in
    let this_height := s32 (h + (if ypos pad >? 0 then ypos pad else 0)) in
    (if fst best <? this_width then this_width else fst best,
     if snd best <? this_height then this_height else snd best).

Definition gst_videomixer2_modify_src_pad_info (mix : GstBasemixer) (info : GstVideoInfo)
  : GstBasemixer * GstVideoInfo * bool :=
  let '(bw, bh) := fold_left modify_scan_pad (sinkpads mix) (-1, -1) in
  if (bw >? 0) && (bh >? 0) then
    let info := gst_video_info_set_format (GST_VIDEO_INFO_FORMAT info) bw bh in
    let '(mix, ret) := set_functions mix info in
    (mix, info, ret)
  else (mix, info, false).

(** The calls of the composite primitive, one per pad with a mixed frame, in
    the order of the pad list. *)
Fixpoint composite_pads (overlay : bool) (pads : list GstBasemixerPad) : list Paint :=
  match pads with
  | [] => []
  | pad :: tl =>
      match mixed_frame pad with
      | Some f =>
          Composite overlay (pad_name pad) f (xpos pad) (ypos pad) (alpha pad)
            :: composite_pads overlay tl
      | None => composite_pads overlay tl
      end
  end.

Definition gst_videomixer2_mix_frames (mix : GstBasemixer) : list Paint :=
  let '(fill, overlay) :=
    match background mix with
    | VIDEO_MIXER2_BACKGROUND_CHECKER => (FillChecker, false)
    | VIDEO_MIXER2_BACKGROUND_BLACK => (FillColor 16 128 128, false)
    | VIDEO_MIXER2_BACKGROUND_WHITE => (FillColor 240 128 128, false)
    | VIDEO_MIXER2_BACKGROUND_TRANSPARENT => (ZeroPlanes, true)
    end in
  fill :: composite_pads overlay (sinkpads mix).

Definition gst_videomixer2_class : GstBasemixerClass :=
  {| modify_src_pad_info := Some gst_videomixer2_modify_src_pad_info;
     get_preferred_input_caps := None;
     mix_frames := gst_videomixer2_mix_frames |}.

(** * Runs of the mixer *)

(** Between two ticks the parent class updates the aggregator part of the
    pads (pending buffer, end-of-stream flag, segment); [feed] installs these
    parts, pad by pad in list order. *)
Fixpoint feed (pads : list GstBasemixerPad) (upstream : list GstBaseAggregatorPad)
  : list GstBasemixerPad :=
  match pads, upstream with
  | p :: tl, b :: bs => set_bpad p b :: feed tl bs
  | _, _ => pads
  end.

(** A run of aggregate ticks, each on what upstream has delivered by then.
    The result lists, tick after tick, the mixer after the tick, what the
    tick sent and what it returned; [None] stands for a failed assertion. *)
Fixpoint run_ticks (klass : GstBasemixerClass) (mix : GstBasemixer)
    (inputs : list (list GstBaseAggregatorPad))
  : option (list (GstBasemixer * list Effect * GstFlowReturn)) :=
  match inputs with
  | [] => Some []
  | upstream :: rest =>
      match gst_basemixer_aggregate klass (set_pads mix (feed (sinkpads mix) upstream)) with
      | None => None
      | Some (mix', eff, ret) =>
          match run_ticks klass mix' rest with
          | None => None
          | Some tr => Some ((mix', eff, ret) :: tr)
          end
      end
  end.

(** The timestamps of the buffers a list of effects pushes. *)
Fixpoint emitted_timestamps (eff : list Effect) : list Z :=
  match eff with
  | [] => []
  | FinishBuffer b :: tl => out_timestamp b :: emitted_timestamps tl
  | _ :: tl => emitted_timestamps tl
  end.

Definition trace_timestamps (tr : list (GstBasemixer * list Effect * GstFlowReturn))
  : list Z :=
  flat_map (fun x => emitted_timestamps (snd (fst x))) tr.



(** The operations on the pad list: a write to the property [zorder] of a
    pad, the request of a new pad and the release of a pad. *)
Inductive PadOp : Set :=
  | SetZorder (name value : Z)
  | RequestPad (mixpad : GstBasemixerPad)
  | ReleasePad (name : Z).

Definition apply_pad_op (klass : GstBasemixerClass) (mix : GstBasemixer) (op : PadOp)
  : GstBasemixer :=
  match op with
  | SetZorder name value => gst_basemixer_pad_set_property mix name value
  | RequestPad mixpad => fst (gst_basemixer_request_new_pad mix (Some mixpad))
  | ReleasePad name => fst (gst_basemixer_release_pad klass mix name)
  end.

(** The pads [mix_frames] composites, in the order of the calls. *)
Fixpoint composited (paint : list Paint) : list Z :=
  match paint with
  | [] => []
  | Composite _ name _ _ _ _ :: tl => name :: composited tl
  | _ :: tl => composited tl
  end.

End Basemixer.

(** * Queries, sink events and the child proxy *)

Section Interfaces.
Context `{host : GstHost}.

(** ** Iterating over the sink pads

    [gst_iterator_next] answers [GST_ITERATOR_OK] with an item,
    [GST_ITERATOR_RESYNC] when the pad list changed under the iterator,
    [GST_ITERATOR_ERROR], or [GST_ITERATOR_DONE].  An iteration is the list of
    the answers before [GST_ITERATOR_DONE]; for the two queries below an item
    is the pad together with what its peer answers. *)
Inductive GstIteratorResult (A : Type) : Type :=
  | GST_ITERATOR_OK (item : A)
  | GST_ITERATOR_RESYNC
  | GST_ITERATOR_ERROR.

Arguments GST_ITERATOR_OK {A} item.
Arguments GST_ITERATOR_RESYNC {A}.
Arguments GST_ITERATOR_ERROR {A}.

(** The loop of [gst_basemixer_query_duration] on the local variables [max]
    and [res].  The answer of a peer is [None] when
    [gst_pad_peer_query_duration] returns [FALSE], and its [gint64] duration
    otherwise. *)
Fixpoint query_duration_loop (it : list (GstIteratorResult (option Z)))
    (max : Z) (res : bool) : Z * bool :=
  match it with
  | [] => (max, res)
  | GST_ITERATOR_OK answer :: tl =>
      let res := res && match answer with Some _ => true | None => false end in
      match answer with
      | Some duration =>
          if res then
            if duration =? -1 then (duration, res)
            else if duration >? max then query_duration_loop tl duration res
            else query_duration_loop tl max res
          else query_duration_loop tl max res
      | None => query_duration_loop tl max res
      end
  | GST_ITERATOR_RESYNC :: tl => query_duration_loop tl (-1) true
  | GST_ITERATOR_ERROR :: _ => (max, false)
  end.

(** [gst_basemixer_query_duration]: what it returns and the duration it
    stores in the query when it returns [TRUE]. *)
Definition gst_basemixer_query_duration (it : list (GstIteratorResult (option Z)))
  : bool * option Z :=
  let '(max, res) := query_duration_loop it (-1) true in
  (res, if res then Some max else None).

(** The answer of a peer to the latency query: [live], [min] and [max]. *)
Definition LatencyAnswer : Set := (bool * Z * Z)%type.

(** The loop of [gst_basemixer_query_latency] on [live], [min], [max] and
    [res]. *)
Fixpoint query_latency_loop (it : list (GstIteratorResult (option LatencyAnswer)))
    (live : bool) (min max : Z) (res : bool) : bool * Z * Z * bool :=
  match it with
  | [] => (live, min, max, res)
  | GST_ITERATOR_OK answer :: tl =>
      let res := res && match answer with Some _ => true | None => false end in
      match answer with
      | Some (live_cur, min_cur, max_cur) =>
          if res then
            let min := if min_cur >? min then min_cur else min in
            let max :=
              if negb (max_cur =? GST_CLOCK_TIME_NONE)
                 && ((negb (max =? GST_CLOCK_TIME_NONE) && (max_cur >? max))
                     || (max =? GST_CLOCK_TIME_NONE))
              then max_cur else max in
            let live := live || live_cur in
            query_latency_loop tl live min max res
          else query_latency_loop tl live min max res
      | None => query_latency_loop tl live min max res
      end
  | GST_ITERATOR_RESYNC :: tl => query_latency_loop tl false 0 GST_CLOCK_TIME_NONE true
  | GST_ITERATOR_ERROR :: _ => (live, min, max, false)
  end.

(** [gst_basemixer_query_latency]: what it returns and the latency it stores
    in the query when it returns [TRUE]. *)
Definition gst_basemixer_query_latency
    (it : list (GstIteratorResult (option LatencyAnswer)))
  : bool * option LatencyAnswer :=
  let '(live, min, max, res) :=
    query_latency_loop it false 0 GST_CLOCK_TIME_NONE true in
  (res, if res then Some (live, min, max) else None).

(** ** The child proxy *)

(** [g_slist_nth_data (list, n)] for a [guint] position. *)
Definition g_slist_nth_data {A : Type} (l : list A) (n : Z) : option A :=
  nth_error l (Z.to_nat n).

Definition gst_basemixer_child_proxy_get_child_by_index (mix : GstBasemixer) (index : Z)
  : option GstBasemixerPad :=
  g_slist_nth_data (sinkpads mix) index.

Definition gst_basemixer_child_proxy_get_children_count (mix : GstBasemixer) : Z :=
  numpads mix.

(** [gst_basemixer_pad_get_property] for the property [zorder]. *)
Definition gst_basemixer_pad_get_property (pad : GstBasemixerPad) : Z := zorder pad.

(** ** The properties of a pad of the positioned mixer *)

(** A write to one of the properties [xpos], [ypos] and [alpha], with the
    value written. *)
Inductive PadPropertyWrite : Set :=
  | PROP_PAD_XPOS (value : Z)
  | PROP_PAD_YPOS (value : Z)
  | PROP_PAD_ALPHA (value : gdouble).

Definition gst_videomixer2_pad_set_property (p : GstBasemixerPad)
    (write : PadPropertyWrite) : GstBasemixerPad :=
  let '(x, y, a) :=
    match write with
    | PROP_PAD_XPOS value => (value, ypos p, alpha p)
    | PROP_PAD_YPOS value => (xpos p, value, alpha p)
    | PROP_PAD_ALPHA value => (xpos p, ypos p, value)
    end in
  {| pad_name := pad_name p; bpad := bpad p; pad_info := pad_info p; zorder := zorder p;
     convert := convert p; need_conversion_update := need_conversion_update p;
     conversion_info := conversion_info p; mixed_frame := mixed_frame p;
     converted_buffer := converted_buffer p; queued := queued p;
     queued_vinfo := queued_vinfo p; pad_buffer := pad_buffer p;
     buffer_vinfo := buffer_vinfo p; start_time := start_time p;
     end_time := end_time p; xpos := x; ypos := y; alpha := a |}.

(** ** Flush and the events of a sink pad *)




(** [gst_tag_list_merge (pending, tags, GST_TAG_MERGE_APPEND)], of the
    GStreamer core. *)
Variable gst_tag_list_merge_append : option GstTagList -> GstTagList -> GstTagList.


End Interfaces.

Arguments GST_ITERATOR_OK {A} item.
Arguments GST_ITERATOR_RESYNC {A}.
Arguments GST_ITERATOR_ERROR {A}.

(** * A small host

    A host for examples: segments of rate 1.0 without offset, caps as the
    list of the video infos they admit (two infos are compatible when their
    formats agree), a downstream peer that takes the geometry proposed to it,
    a converter for every pair of infos, and a parent class that leaves the
    aggregator as it is except for the segment a seek installs. *)

Definition plain_running_time (seg : GstSegment) (t : Z) : Z :=
  if t =? GST_CLOCK_TIME_NONE then GST_CLOCK_TIME_NONE
  else if t <? start seg then GST_CLOCK_TIME_NONE
  else if negb (stop seg =? GST_CLOCK_TIME_NONE) && (t >? stop seg) then GST_CLOCK_TIME_NONE
  else u64 (t - start seg + base seg).

Definition plain_stream_time (seg : GstSegment) (t : Z) : Z :=
  if t =? GST_CLOCK_TIME_NONE then GST_CLOCK_TIME_NONE
  else if t <? start seg then GST_CLOCK_TIME_NONE
  else if negb (stop seg =? GST_CLOCK_TIME_NONE) && (t >? stop seg) then GST_CLOCK_TIME_NONE
  else u64 (t - start seg + time seg).

Definition same_format (i j : GstVideoInfo) : bool :=
  format_eqb (GST_VIDEO_INFO_FORMAT i) (GST_VIDEO_INFO_FORMAT j).

Definition same_caps (i j : GstVideoInfo) : bool :=
  same_format i j && (width i =? width j) && (height i =? height j)
  && (fps_n i =? fps_n j) && (fps_d i =? fps_d j)
  && (par_n i =? par_n j) && (par_d i =? par_d j).

Definition list_caps_intersect (a b : list GstVideoInfo) : list GstVideoInfo :=
  List.filter (fun i => existsb (same_format i) b) a.

Definition seek_segment (ev : SeekEvent) (seg : GstSegment) : GstSegment :=
  {| rate := seek_rate ev; applied_rate := applied_rate seg; base := 0;
     offset := 0; start := seek_start ev; stop := seek_stop ev;
     time := seek_start ev; position := position seg; duration := duration seg |}.

Definition sample_host (downstream : option (list GstVideoInfo)) : GstHost :=
  {| GstCaps := list GstVideoInfo;
     gst_segment_to_running_time := plain_running_time;
     gst_segment_to_stream_time := plain_stream_time;
     gst_video_colorimetry_to_string := fun _ => None;
     gst_video_chroma_to_string := fun _ => None;
     default_colorimetry := fun _ => zero_colorimetry;
     video_frame_size := fun _ w h => 4 * w * h;
     gst_video_info_to_caps := fun i => [i];
     gst_video_info_from_caps := fun c =>
       match c with
       | i :: _ =>
           if format_eqb (GST_VIDEO_INFO_FORMAT i) GST_VIDEO_FORMAT_UNKNOWN then None
           else Some i
       | [] => None
       end;
     gst_caps_is_equal := fun a b =>
       (List.length a =? List.length b)%nat
       && forallb (fun i => existsb (same_caps i) b) a;
     gst_caps_is_empty := fun c => match c with [] => true | _ => false end;
     gst_caps_intersect := list_caps_intersect;
     gst_caps_can_intersect := fun a b =>
       match list_caps_intersect a b with [] => false | _ => true end;
     gst_caps_fixate := firstn 1;
     caps_remove_geometry_fields := fun c => c;
     caps_set_geometry_ranges := fun c => c;
     caps_fixate_nearest := fun _ w h n d => (w, h, (n, d));
     gst_pad_get_allowed_caps := downstream;
     gst_pad_peer_query_caps := downstream;
     videoconvert_convert_new := fun i o => Some {| conv_in := i; conv_out := o |};
     gst_base_aggregator_pad_get_buffer := bpad_buffer;
     gst_base_aggregator_finish_buffer := fun _ => GST_FLOW_OK;
     parent_change_state_agg := fun _ a => a;
     parent_change_state_pad := fun _ b => b;
     parent_src_event_seek := fun ev a =>
       ({| segment := seek_segment ev (segment a);
           srcpad_need_reconfigure := srcpad_need_reconfigure a |}, true) |}.

(** * Sample pipelines

    The mixers, pads and buffers the examples below run the model on. *)

Definition sample_info (f : GstVideoFormat) (w h n d : Z) : GstVideoInfo :=
  {| finfo := Some (gst_video_format_get_info f); interlace_mode := 0;
     width := w; height := h; size := 4 * w * h; chroma_site := 0;
     colorimetry := zero_colorimetry; par_n := 1; par_d := 1;
     fps_n := n; fps_d := d |}.

Definition sample_buffer (ts dur : Z) : GstBuffer :=
  {| GST_BUFFER_TIMESTAMP := ts; GST_BUFFER_DURATION := dur; payload := 0 |}.

(** A requested pad with its caps set, no current buffer, and [pending] as
    the buffer the aggregator pad holds. *)
Definition sample_pad (name : Z) (i : GstVideoInfo) (pending : option GstBuffer)
    (eos : bool) : GstBasemixerPad :=
  set_bpad
    (set_times (set_pad_info (new_pad name) i) GST_CLOCK_TIME_NONE GST_CLOCK_TIME_NONE)
    {| bpad_segment := gst_segment_init; bpad_eos := eos; bpad_buffer := pending |}.

(** A host whose downstream accepts everything proposed, and one whose
    downstream accepts only I420. *)
Definition open_host : GstHost := sample_host None.
Definition i420_host : GstHost :=
  sample_host (Some [sample_info GST_VIDEO_FORMAT_I420 0 0 0 1]).

(** A negotiated mixer at [info] over [pads], on the output segment [seg],
    before its first tick. *)
Definition sample_mixer (h : GstHost) (info : GstVideoInfo)
    (pads : list GstBasemixerPad) (seg : GstSegment) : @GstBasemixer h :=
  {| agg := {| segment := seg; srcpad_need_reconfigure := false |};
     mix_info := info; sinkpads := pads; numpads := Z.of_nat (List.length pads);
     ts_offset := 0; nframes := 0; current_caps := None; send_caps := false;
     send_stream_start := false; newseg_pending := true; pending_tags := None;
     proportion := d_half; earliest_time := GST_CLOCK_TIME_NONE;
     qos_processed := 0; qos_dropped := 0;
     background := DEFAULT_BACKGROUND; functions := option_map format (finfo info) |}.

Definition info_i420_25 : GstVideoInfo := sample_info GST_VIDEO_FORMAT_I420 320 240 25 1.
Definition info_ayuv_10 : GstVideoInfo := sample_info GST_VIDEO_FORMAT_AYUV 100 100 10 1.
Definition info_i420_5 : GstVideoInfo := sample_info GST_VIDEO_FORMAT_I420 320 240 5 1.

Definition unset_segment : GstSegment := set_position gst_segment_init GST_CLOCK_TIME_NONE.

(** A buffer covering the first second and one covering the second one. *)
Definition first_second : GstBuffer := sample_buffer 0 1000000000.
Definition second_second : GstBuffer := sample_buffer 1000000000 1000000000.

Definition fed_pad : GstBasemixerPad := sample_pad 1 info_i420_25 (Some first_second) false.
Definition late_pad : GstBasemixerPad := sample_pad 1 info_i420_25 (Some second_second) false.

(** One I420 input at 25 frames per second. *)
Definition plain_mixer : @GstBasemixer open_host :=
  sample_mixer open_host info_i420_25 [fed_pad] unset_segment.


(** A mixer after a flushing seek to rate 2.0. *)
Definition seek_rate_two : SeekEvent :=
  {| seek_rate := d_two; seek_flush := true; seek_start := 0;
     seek_stop := GST_CLOCK_TIME_NONE |}.
Definition double_rate_mixer : @GstBasemixer open_host :=
  fst (gst_basemixer_src_event_seek
         (sample_mixer open_host info_i420_25 [late_pad] unset_segment) seek_rate_two).

(** The plain mixer after a QoS event that puts the earliest time 40 ms after
    the start of the next frame. *)
Definition late_mixer : @GstBasemixer open_host :=
  fst (gst_basemixer_src_event_qos plain_mixer d_one 0 40000000).

(** An AYUV input in front of a downstream that only takes I420. *)
Definition alpha_mixer : @GstBasemixer i420_host :=
  sample_mixer i420_host gst_video_info_init
    [sample_pad 1 info_ayuv_10 None false] unset_segment.

(** A pad whose current buffer ends at 2 s, with a buffer pending. *)
Definition held_pad : GstBasemixerPad :=
  set_buffer_times fed_pad (Some first_second) 0 2000000000.

(** A mixer that has announced caps and holds a queued buffer on its pad. *)
Definition queued_pad : GstBasemixerPad := set_queued fed_pad (Some first_second) info_i420_25.
Definition announced_mixer : @GstBasemixer open_host :=
  set_caps (sample_mixer open_host info_i420_25 [queued_pad] unset_segment)
    (Some [info_i420_25]) false.

(** Two pads requested, the first raised above the second, the second
    released and a third requested. *)
Definition sample_pad_ops : list PadOp :=
  [RequestPad (new_pad 1); RequestPad (new_pad 2); SetZorder 1 5; ReleasePad 2;
   RequestPad (new_pad 3)].

(** The mixer as its instance initialiser leaves it. *)
Definition fresh_mixer : @GstBasemixer open_host := gst_basemixer_init zeroed_basemixer.

(** Scenario 1 of the specification: inputs 320x240 at 5 fps and 100x100 at
    10 fps. *)
Definition two_input_mixer : @GstBasemixer open_host :=
  sample_mixer open_host info_ayuv_10
    [sample_pad 1 (sample_info GST_VIDEO_FORMAT_AYUV 320 240 5 1) None false;
     sample_pad 2 info_ayuv_10 None false]
    unset_segment.

(** ** Further sample pipelines *)

(** Three pads requested one after the other on a new mixer. *)
Definition stacked_mixer : @GstBasemixer open_host :=
  fold_left (apply_pad_op gst_videomixer2_class)
    [RequestPad (new_pad 1); RequestPad (new_pad 2); RequestPad (new_pad 3)]
    fresh_mixer.

(** A negotiated mixer without sink pads. *)
Definition empty_mixer : @GstBasemixer open_host :=
  sample_mixer open_host info_i420_25 [] unset_segment.

(** An input whose pending buffer has no timestamp. *)
Definition unstamped_mixer : @GstBasemixer open_host :=
  sample_mixer open_host info_i420_25
    [sample_pad 1 info_i420_25 (Some (sample_buffer GST_CLOCK_TIME_NONE 40000000)) false]
    unset_segment.

(** A downstream that takes AYUV, in front of an AYUV and an I420 input. *)
Definition ayuv_host : GstHost :=
  sample_host (Some [sample_info GST_VIDEO_FORMAT_AYUV 0 0 0 1]).
Definition mixed_formats_mixer : @GstBasemixer ayuv_host :=
  sample_mixer ayuv_host gst_video_info_init
    [sample_pad 1 info_ayuv_10 None false; sample_pad 2 info_i420_25 None false]
    unset_segment.

(** A mixer at position 1 s, and one holding a current buffer on its pad. *)
Definition running_mixer : @GstBasemixer open_host :=
  sample_mixer open_host info_i420_25 [fed_pad]
    (set_position gst_segment_init 1000000000).
Definition holding_mixer : @GstBasemixer open_host :=
  sample_mixer open_host info_i420_25 [held_pad] unset_segment.

(** Seeks without flush to rate 2.0 and back to rate 1.0. *)
Definition seek_up : SeekEvent :=
  {| seek_rate := d_two; seek_flush := false; seek_start := 0;
     seek_stop := GST_CLOCK_TIME_NONE |}.
Definition seek_down : SeekEvent :=
  {| seek_rate := d_one; seek_flush := false; seek_start := 0;
     seek_stop := GST_CLOCK_TIME_NONE |}.

(** The plain mixer with caps to announce. *)
Definition announcing_mixer : @GstBasemixer open_host :=
  set_caps plain_mixer (Some [info_i420_25]) true.

(** An I420 input at 25 frames per second in front of a downstream that
    takes I420, the same after four ticks, and after its sink pad has then
    received caps at 60 frames per second. *)
Definition i420_mixer : @GstBasemixer i420_host :=
  sample_mixer i420_host info_i420_25 [fed_pad] unset_segment.
Definition four_ticks_mixer : @GstBasemixer i420_host :=
  match run_ticks gst_videomixer2_class i420_mixer
          [[bpad fed_pad]; [bpad fed_pad]; [bpad fed_pad]; [bpad fed_pad]] with
  | Some tr => List.last (map (fun x => fst (fst x)) tr) i420_mixer
  | None => i420_mixer
  end.
Definition caps_i420_60 : list GstVideoInfo :=
  [sample_info GST_VIDEO_FORMAT_I420 320 240 60 1].
Definition faster_caps_mixer : @GstBasemixer i420_host :=
  fst (fst (gst_basemixer_pad_sink_setcaps gst_videomixer2_class four_ticks_mixer 1
              caps_i420_60)).

(** An input moved 50 pixels to the left of the origin and one moved 100
    pixels to the right and 20 down. *)
Definition positioned_mixer : @GstBasemixer open_host :=
  sample_mixer open_host info_i420_25
    [gst_videomixer2_pad_set_property (sample_pad 1 info_i420_25 None false)
       (PROP_PAD_XPOS (-50));
     gst_videomixer2_pad_set_property
       (gst_videomixer2_pad_set_property (sample_pad 2 info_ayuv_10 None false)
          (PROP_PAD_XPOS 100))
       (PROP_PAD_YPOS 20)]
    unset_segment.

(** One YUY2 and two I420 inputs in front of a downstream that takes both. *)
Definition voting_caps : list GstVideoInfo :=
  [sample_info GST_VIDEO_FORMAT_YUY2 0 0 0 1; sample_info GST_VIDEO_FORMAT_I420 0 0 0 1].
Definition voting_pads : list GstBasemixerPad :=
  [sample_pad 1 (sample_info GST_VIDEO_FORMAT_YUY2 100 100 10 1) None false;
   sample_pad 2 info_i420_25 None false;
   sample_pad 3 info_i420_5 None false].

(** * Properties *)

Section Properties.
Context `{host : GstHost}.

(** ** Frame lemmas: what the queue filler and the blender leave alone *)

Lemma fill_queues_frame (mix m1 : GstBasemixer) (a b r : Z) :
  gst_basemixer_fill_queues mix a b = Some (m1, r) ->
  m1 = set_pads mix (sinkpads m1).
Proof.
  unfold gst_basemixer_fill_queues.
  destruct (fill_queues_loop _ _ _ _ _ _) as [[pads [[e n]|]]|]; intros H;
    inversion H; subst; reflexivity.
Qed.

Lemma fill_queues_tags (mix : GstBasemixer) (t : option GstTagList) (a b : Z) :
  gst_basemixer_fill_queues (set_pending_tags mix t) a b
  = option_map (fun x => (set_pending_tags (fst x) t, snd x))
      (gst_basemixer_fill_queues mix a b).
Proof.
  unfold gst_basemixer_fill_queues; simpl.
  destruct (fill_queues_loop _ _ _ _ _ _) as [[pads [[e n]|]]|]; reflexivity.
Qed.

Lemma blend_buffers_frame (klass : GstBasemixerClass) (mix : GstBasemixer) (a b : Z) :
  fst (fst (gst_basemixer_blend_buffers klass mix a b))
  = set_pads mix (sinkpads (fst (fst (gst_basemixer_blend_buffers klass mix a b)))).
Proof.
  unfold gst_basemixer_blend_buffers.
  destruct (blend_prepare mix (size (mix_info mix)) (sinkpads mix)) as [pads eff].
  reflexivity.
Qed.

Lemma blend_buffers_stamp (klass : GstBasemixerClass) (mix : GstBasemixer) (a b : Z) :
  out_timestamp (snd (gst_basemixer_blend_buffers klass mix a b)) = a
  /\ out_duration (snd (gst_basemixer_blend_buffers klass mix a b)) = u64 (b - a).
Proof.
  unfold gst_basemixer_blend_buffers.
  destruct (blend_prepare mix (size (mix_info mix)) (sinkpads mix)) as [pads eff].
  split; reflexivity.
Qed.

(** The effect a tick starts with: the pending tags, if any. *)
Definition tags_effect (mix : GstBasemixer) : list Effect :=
  match pending_tags mix with
  | Some tags => [PushTagEvent tags]
  | None => []
  end.

(** The answer of the queue filler on a tick. *)
Definition fill_answer (mix : GstBasemixer) : option Z :=
  option_map snd
    (gst_basemixer_fill_queues mix (output_start_time_of mix) (output_end_time_of mix)).

(** The tick, written over the answer of the queue filler. *)
Lemma aggregate_locked_unfold (klass : GstBasemixerClass) (mix : GstBasemixer) :
  aggregate_locked klass mix
  = match gst_basemixer_fill_queues mix (output_start_time_of mix)
            (output_end_time_of mix) with
    | None => None
    | Some (m1, res) =>
        let os := output_start_time_of mix in
        let oe := output_end_time_of mix in
        let m := set_pads (set_pending_tags mix None) (sinkpads m1) in
        if res =? 0 then Some (m, tags_effect mix, GST_FLOW_OK)
        else if res =? -1 then Some (m, tags_effect mix ++ [PushEosEvent], GST_FLOW_EOS)
        else if res =? -2 then Some (m, tags_effect mix, GST_FLOW_ERROR)
        else if gst_basemixer_do_qos mix os <=? 0 then
          let '(m', eff, ret) := aggregate_blend klass m os oe in
          Some (m', tags_effect mix ++ eff, ret)
        else
          let '(m', eff) := aggregate_drop m os oe (gst_basemixer_do_qos mix os) in
          Some (m', tags_effect mix ++ eff, GST_FLOW_OK)
    end.
Proof.
  unfold aggregate_locked, tags_effect.
  destruct (gst_basemixer_fill_queues mix _ _) as [[m1 r]|] eqn:E.
  - pose proof (fill_queues_frame _ _ _ _ _ E) as F.
    destruct (pending_tags mix) as [tags|] eqn:T.
    + rewrite fill_queues_tags, E. simpl. rewrite F. reflexivity.
    + rewrite E. rewrite F.
      replace (set_pending_tags mix None) with mix; [reflexivity|].
      destruct mix; simpl in *; subst; reflexivity.
  - destruct (pending_tags mix) as [tags|] eqn:T.
    + rewrite fill_queues_tags, E. reflexivity.
    + rewrite E. reflexivity.
Qed.

(** The tick, once the queue filler has answered OK. *)
Lemma aggregate_locked_ok (klass : GstBasemixerClass) (mix : GstBasemixer) :
  fill_answer mix = Some 1 ->
  exists m1,
    aggregate_locked klass mix
    = let os := output_start_time_of mix in
      let oe := output_end_time_of mix in
      let m := set_pads (set_pending_tags mix None) (sinkpads m1) in
      if gst_basemixer_do_qos mix os <=? 0 then
        let '(m', eff, ret) := aggregate_blend klass m os oe in
        Some (m', tags_effect mix ++ eff, ret)
      else
        let '(m', eff) := aggregate_drop m os oe (gst_basemixer_do_qos mix os) in
        Some (m', tags_effect mix ++ eff, GST_FLOW_OK).
Proof.
  unfold fill_answer. intros H. rewrite aggregate_locked_unfold.
  destruct (gst_basemixer_fill_queues mix _ _) as [[m1 r]|] eqn:E; [|discriminate].
  simpl in H. inversion H; subst r. exists m1. reflexivity.
Qed.

Lemma blend_prepare_effects (mix : GstBasemixer) (outsize : Z)
    (pads : list GstBasemixerPad) (e : Effect) :
  In e (snd (blend_prepare mix outsize pads)) -> exists p t, e = SyncValues p t.
Proof.
  induction pads as [|pad tl IH]; simpl; [contradiction|].
  destruct (blend_prepare_pad mix outsize pad) as [pad' e1] eqn:E1.
  destruct (blend_prepare mix outsize tl) as [tl' e2]. simpl in *.
  intros Hin. apply in_app_or in Hin. destruct Hin as [Hin|Hin]; [|auto].
  unfold blend_prepare_pad in E1.
  destruct (pad_buffer pad); [|inversion E1; subst; contradiction].
  assert (He1 : e1 = if GST_CLOCK_TIME_IS_VALID
                          (gst_segment_to_stream_time (bpad_segment (bpad pad))
                             (GST_BUFFER_TIMESTAMP g))
                     then [SyncValues (pad_name pad)
                             (gst_segment_to_stream_time (bpad_segment (bpad pad))
                                (GST_BUFFER_TIMESTAMP g))]
                     else []).
  { destruct (convert pad); inversion E1; reflexivity. }
  rewrite He1 in Hin.
  destruct (GST_CLOCK_TIME_IS_VALID _); simpl in Hin; [|contradiction].
  destruct Hin as [<-|[]]. eauto.
Qed.

Lemma blend_buffers_effects (klass : GstBasemixerClass) (mix : GstBasemixer)
    (a b : Z) (e : Effect) :
  In e (snd (fst (gst_basemixer_blend_buffers klass mix a b))) ->
  exists p t, e = SyncValues p t.
Proof.
  unfold gst_basemixer_blend_buffers.
  pose proof (blend_prepare_effects mix (size (mix_info mix)) (sinkpads mix) e) as H.
  destruct (blend_prepare mix (size (mix_info mix)) (sinkpads mix)) as [pads eff].
  exact H.
Qed.

Lemma tags_effect_no_qos (mix : GstBasemixer) rt st ts du j pr q pc dr :
  ~ In (PostQosMessage rt st ts du j pr q pc dr) (tags_effect mix).
Proof.
  unfold tags_effect. destruct (pending_tags mix); simpl; intros H;
    [destruct H as [H|[]]; discriminate | exact H].
Qed.

(** ** QoS *)

Lemma do_qos_without_observation (mix : GstBasemixer) (t : Z) :
  earliest_time mix = GST_CLOCK_TIME_NONE \/ t = GST_CLOCK_TIME_NONE ->
  gst_basemixer_do_qos mix t = -1.
Proof.
  unfold gst_basemixer_do_qos, gst_basemixer_read_qos, GST_CLOCK_TIME_IS_VALID.
  intros [H | H]; rewrite H.
  - destruct (t =? GST_CLOCK_TIME_NONE); reflexivity.
  - reflexivity.
Qed.

Lemma do_qos_positive (mix : GstBasemixer) (t : Z) :
  0 < gst_basemixer_do_qos mix t ->
  gst_basemixer_do_qos mix t
  = GST_CLOCK_DIFF (gst_segment_to_running_time (segment (agg mix)) t) (earliest_time mix).
Proof.
  unfold gst_basemixer_do_qos, gst_basemixer_read_qos.
  destruct (negb (GST_CLOCK_TIME_IS_VALID t)); [lia|].
  destruct (negb (GST_CLOCK_TIME_IS_VALID (earliest_time mix))); [lia|].
  reflexivity.
Qed.

(** The rounded frame duration [gst_basemixer_update_qos] adds to a positive
    [diff]. *)
Lemma frame_duration_rounded (n d : Z) :
  0 < n -> 0 <= d <= G_MAXINT ->
  gst_util_uint64_scale_int_round GST_SECOND d n = (GST_SECOND * d + n / 2) / n.
Proof.
  intros Hn Hd.
  unfold gst_util_uint64_scale_int_round, gst_util_uint64_scale_round.
  destruct (n <=? 0) eqn:E1; [lia|].
  destruct (d <? 0) eqn:E2; [lia|].
  destruct (n =? 0) eqn:E3; [lia|].
  assert (Hhalf : 0 <= n / 2) by (apply Z.div_pos; lia).
  assert (Hlt : n / 2 < n) by (apply Z.div_lt_upper_bound; lia).
  destruct (d =? 0) eqn:E4.
  - apply Z.eqb_eq in E4. subst d.
    rewrite Z.mul_0_r, Z.add_0_l. symmetry. apply Z.div_small. lia.
  - destruct (d =? n) eqn:E5.
    + apply Z.eqb_eq in E5. subst d.
      apply Z.div_unique with (r := n / 2); lia.
    + apply Z.min_l.
      assert (H1 : (GST_SECOND * d + n / 2) / n <= GST_SECOND * d + 1).
      { apply Z.div_le_upper_bound; [lia|].
        unfold GST_SECOND in *. nia. }
      unfold G_MAXUINT64, G_MAXINT, GST_SECOND in *.
      change (2 ^ 64) with 18446744073709551616.
      change (2 ^ 31) with 2147483648 in Hd. lia.
Qed.

(** C6: on a downstream QoS event carrying timestamp [t], proportion [p] and
    diff [d], the mixer sets [proportion] to [p] and [earliest_time] to
    [t + d + (if d > 0 then d + frame duration else 0)] in 64-bit unsigned
    arithmetic, the frame duration being
    [gst_util_uint64_scale_int_round (GST_SECOND, fps_d, fps_n)], that is
    [GST_SECOND * fps_d / fps_n] rounded to nearest for a positive framerate;
    when [t] is the undefined sentinel, [earliest_time] is set to
    undefined. *)
Theorem qos_event_sets_observation (mix : GstBasemixer) (p : gdouble) (d t : Z) :
  let mix' := fst (gst_basemixer_src_event_qos mix p d t) in
  proportion mix' = p
  /\ earliest_time mix'
     = (if t =? GST_CLOCK_TIME_NONE then GST_CLOCK_TIME_NONE
        else u64 (t + d
                  + (if d >? 0
                     then d + gst_util_uint64_scale_int_round GST_SECOND
                                (fps_d (mix_info mix)) (fps_n (mix_info mix))
                     else 0)))
  /\ (0 < fps_n (mix_info mix) -> 0 <= fps_d (mix_info mix) <= G_MAXINT ->
      gst_util_uint64_scale_int_round GST_SECOND
        (fps_d (mix_info mix)) (fps_n (mix_info mix))
      = (GST_SECOND * fps_d (mix_info mix) + fps_n (mix_info mix) / 2)
        / fps_n (mix_info mix)).
Proof.
  unfold gst_basemixer_src_event_qos, gst_basemixer_update_qos. simpl.
  split; [|split; [|apply frame_duration_rounded]].
  - destruct (t =? GST_CLOCK_TIME_NONE); simpl; [reflexivity|].
    destruct (d >? 0); reflexivity.
  - destruct (t =? GST_CLOCK_TIME_NONE); simpl; [reflexivity|].
    destruct (d >? 0); simpl; f_equal; lia.
Qed.

(** The locked part of a tick whose QoS check answers a positive jitter:
    after the pending tags only the QoS message is posted, the frame is
    counted as dropped, and the cadence advances. *)
Lemma aggregate_locked_drops (klass : GstBasemixerClass) (mix : GstBasemixer) :
  fill_answer mix = Some 1 ->
  0 < gst_basemixer_do_qos mix (output_start_time_of mix) ->
  let os := output_start_time_of mix in
  let oe := output_end_time_of mix in
  let jitter := gst_basemixer_do_qos mix os in
  exists mix',
      aggregate_locked klass mix
      = Some (mix',
              tags_effect mix
              ++ [PostQosMessage
                    (gst_segment_to_running_time (segment (agg mix)) os)
                    (gst_segment_to_stream_time (segment (agg mix)) os)
                    os (u64 (oe - os)) jitter (proportion mix) 1000000
                    (qos_processed mix) (u64 (qos_dropped mix + 1))],
              GST_FLOW_OK)
      /\ qos_dropped mix' = u64 (qos_dropped mix + 1)
      /\ qos_processed mix' = qos_processed mix
      /\ position (segment (agg mix')) = oe
      /\ nframes mix' = u64 (nframes mix + 1).
Proof.
  intros Hfill Hj os oe jitter.
  destruct (aggregate_locked_ok klass mix Hfill) as [m1 Hagg].
  rewrite Hagg. cbv zeta.
  destruct (gst_basemixer_do_qos mix (output_start_time_of mix) <=? 0) eqn:E.
  - apply Z.leb_le in E. lia.
  - unfold aggregate_drop. cbv zeta.
    eexists. split; [reflexivity|].
    repeat split; reflexivity.
Qed.

(** [gst_basemixer_aggregate] on a negotiated mixer is the preparation
    followed by the locked part. *)
Lemma gst_basemixer_aggregate_unfold (klass : GstBasemixerClass)
    (mix m0 : GstBasemixer) (eff_caps : list Effect) :
  format_eqb (GST_VIDEO_INFO_FORMAT (mix_info mix)) GST_VIDEO_FORMAT_UNKNOWN = false ->
  aggregate_prepare klass mix = (m0, eff_caps) ->
  gst_basemixer_aggregate klass mix
  = match aggregate_locked klass m0 with
    | Some (m, eff, ret) => Some (m, eff_caps ++ eff, ret)
    | None => None
    end.
Proof.
  intros Hf Hp. unfold gst_basemixer_aggregate. rewrite Hf, Hp. reflexivity.
Qed.

(** The preparation announces caps at most. *)
Lemma aggregate_prepare_effects (klass : GstBasemixerClass)
    (mix m0 : GstBasemixer) (eff_caps : list Effect) :
  aggregate_prepare klass mix = (m0, eff_caps) ->
  forall e, In e eff_caps -> exists c, e = SetSrcCaps c.
Proof.
  unfold aggregate_prepare. cbv zeta.
  destruct (send_caps _); intros H; inversion H; subst; clear H; intros e Hin.
  - destruct Hin as [<-|[]]. eauto.
  - destruct Hin.
Qed.

Lemma tags_effect_is_tags (mix : GstBasemixer) (e : Effect) :
  In e (tags_effect mix) -> exists t, e = PushTagEvent t.
Proof.
  unfold tags_effect. destruct (pending_tags mix); intros Hin.
  - destruct Hin as [<-|[]]. eauto.
  - destruct Hin.
Qed.

(** C3: on a tick of a negotiated mixer whose inputs are ready (the queue
    filler answers OK) and whose QoS check yields a jitter
    [earliest_time - running_time (out_start) > 0], the tick blends nothing
    and pushes no buffer: after the caps announcement and the pending tags it
    only posts the QoS message carrying the jitter, the proportion and the
    processed and dropped counts; [qos_dropped] is incremented,
    [qos_processed] is not, and the position still advances to [out_end] and
    [nframes] is incremented.  [m0] is the mixer when the lock is taken. *)
Theorem late_frame_is_dropped (klass : GstBasemixerClass)
    (mix m0 : GstBasemixer) (eff_caps : list Effect) :
  format_eqb (GST_VIDEO_INFO_FORMAT (mix_info mix)) GST_VIDEO_FORMAT_UNKNOWN = false ->
  aggregate_prepare klass mix = (m0, eff_caps) ->
  fill_answer m0 = Some 1 ->
  0 < gst_basemixer_do_qos m0 (output_start_time_of m0) ->
  let os := output_start_time_of m0 in
  let oe := output_end_time_of m0 in
  let jitter := gst_basemixer_do_qos m0 os in
  jitter = GST_CLOCK_DIFF (gst_segment_to_running_time (segment (agg m0)) os)
             (earliest_time m0)
  /\ exists mix' eff,
      gst_basemixer_aggregate klass mix = Some (mix', eff, GST_FLOW_OK)
      /\ eff = eff_caps ++ tags_effect m0
                ++ [PostQosMessage
                      (gst_segment_to_running_time (segment (agg m0)) os)
                      (gst_segment_to_stream_time (segment (agg m0)) os)
                      os (u64 (oe - os)) jitter (proportion m0) 1000000
                      (qos_processed m0) (u64 (qos_dropped m0 + 1))]
      /\ (forall outbuf, ~ In (FinishBuffer outbuf) eff)
      /\ qos_dropped mix' = u64 (qos_dropped m0 + 1)
      /\ qos_processed mix' = qos_processed m0
      /\ position (segment (agg mix')) = oe
      /\ nframes mix' = u64 (nframes m0 + 1).
Proof.
  intros Hf Hp Hfill Hj os oe jitter.
  split; [apply do_qos_positive; exact Hj|].
  destruct (aggregate_locked_drops klass m0 Hfill Hj) as [mix' [Hagg Hrest]].
  exists mix'. eexists. split.
  - rewrite (gst_basemixer_aggregate_unfold klass mix m0 eff_caps Hf Hp), Hagg.
    reflexivity.
  - split; [reflexivity|]. split; [|exact Hrest].
    intros outbuf Hin. apply in_app_or in Hin. destruct Hin as [Hin|Hin].
    + destruct (aggregate_prepare_effects klass mix m0 eff_caps Hp _ Hin) as [c Hc].
      discriminate.
    + apply in_app_or in Hin. destruct Hin as [Hin|[Hin|[]]]; [|discriminate].
      destruct (tags_effect_is_tags _ _ Hin) as [t Ht]. discriminate.
Qed.

(** The locked part of a tick without a QoS observation never counts a
    dropped frame nor posts a QoS message, and blends and pushes the frame
    when the queue filler answers OK. *)
Lemma aggregate_locked_no_observation (klass : GstBasemixerClass) (mix : GstBasemixer) :
  earliest_time mix = GST_CLOCK_TIME_NONE
  \/ output_start_time_of mix = GST_CLOCK_TIME_NONE ->
  gst_basemixer_do_qos mix (output_start_time_of mix) = -1
  /\ (forall mix' eff ret,
        aggregate_locked klass mix = Some (mix', eff, ret) ->
        qos_dropped mix' = qos_dropped mix
        /\ forall rt st ts du j pr q pc dr,
             ~ In (PostQosMessage rt st ts du j pr q pc dr) eff)
  /\ (fill_answer mix = Some 1 ->
      exists mix' eff outbuf ret,
        aggregate_locked klass mix = Some (mix', eff ++ [FinishBuffer outbuf], ret)
        /\ out_timestamp outbuf = output_start_time_of mix
        /\ qos_processed mix' = u64 (qos_processed mix + 1)
        /\ qos_dropped mix' = qos_dropped mix).
Proof.
  intros Hobs.
  pose proof (do_qos_without_observation mix _ Hobs) as Hq.
  split; [exact Hq|]. split.
  - intros mix' eff ret. rewrite aggregate_locked_unfold.
    destruct (gst_basemixer_fill_queues mix _ _) as [[m1 r]|]; [|discriminate].
    cbv zeta. rewrite Hq. change (-1 <=? 0) with true. cbv iota.
    unfold aggregate_blend.
    pose proof (blend_buffers_frame klass
                  (set_pads (set_pending_tags mix None) (sinkpads m1))
                  (output_start_time_of mix) (output_end_time_of mix)) as Fr.
    pose proof (blend_buffers_effects klass
                  (set_pads (set_pending_tags mix None) (sinkpads m1))
                  (output_start_time_of mix) (output_end_time_of mix)) as Fe.
    destruct (gst_basemixer_blend_buffers klass _ _ _) as [[mb effb] ob].
    simpl in Fr, Fe.
    destruct (r =? 0); [|destruct (r =? -1); [|destruct (r =? -2)]];
      intros H; inversion H; subst; clear H;
      (split; [try reflexivity|]).
    + intros; apply tags_effect_no_qos.
    + intros rt st ts du j pr q pc dr Hin. apply in_app_or in Hin.
      destruct Hin as [Hin|[Hin|[]]]; [|discriminate].
      revert Hin; apply tags_effect_no_qos.
    + intros; apply tags_effect_no_qos.
    + rewrite Fr. reflexivity.
    + intros rt st ts du j pr q pc dr Hin. apply in_app_or in Hin.
      destruct Hin as [Hin|Hin]; [revert Hin; apply tags_effect_no_qos|].
      apply in_app_or in Hin. destruct Hin as [Hin|[Hin|[]]]; [|discriminate].
      destruct (Fe _ Hin) as [p [t Heq]]. discriminate.
  - intros Hfill.
    destruct (aggregate_locked_ok klass mix Hfill) as [m1 Hagg].
    rewrite Hagg. cbv zeta. rewrite Hq. change (-1 <=? 0) with true. cbv iota.
    unfold aggregate_blend.
    pose proof (blend_buffers_frame klass
                  (set_pads (set_pending_tags mix None) (sinkpads m1))
                  (output_start_time_of mix) (output_end_time_of mix)) as Fr.
    pose proof (blend_buffers_stamp klass
                  (set_pads (set_pending_tags mix None) (sinkpads m1))
                  (output_start_time_of mix) (output_end_time_of mix)) as [Fs _].
    destruct (gst_basemixer_blend_buffers klass _ _ _) as [[mb effb] ob].
    simpl in Fr, Fs.
    eexists _, (tags_effect mix ++ effb), ob, _.
    split; [rewrite <- app_assoc; reflexivity|].
    split; [exact Fs|].
    rewrite Fr. split; reflexivity.
Qed.

(** C10: on a tick of a negotiated mixer where no QoS observation has arrived
    ([earliest_time] is undefined) or [out_start] is undefined, the QoS check
    answers [-1]; the tick then never counts a dropped frame nor posts a QoS
    message, and when the queue filler answers OK the frame is blended,
    pushed with timestamp [out_start], and counted in [qos_processed].
    [m0] is the mixer when the lock is taken. *)
Theorem no_drop_without_observation (klass : GstBasemixerClass)
    (mix m0 : GstBasemixer) (eff_caps : list Effect) :
  format_eqb (GST_VIDEO_INFO_FORMAT (mix_info mix)) GST_VIDEO_FORMAT_UNKNOWN = false ->
  aggregate_prepare klass mix = (m0, eff_caps) ->
  earliest_time m0 = GST_CLOCK_TIME_NONE
  \/ output_start_time_of m0 = GST_CLOCK_TIME_NONE ->
  gst_basemixer_do_qos m0 (output_start_time_of m0) = -1
  /\ (forall mix' eff ret,
        gst_basemixer_aggregate klass mix = Some (mix', eff, ret) ->
        qos_dropped mix' = qos_dropped m0
        /\ forall rt st ts du j pr q pc dr,
             ~ In (PostQosMessage rt st ts du j pr q pc dr) eff)
  /\ (fill_answer m0 = Some 1 ->
      exists mix' eff outbuf ret,
        gst_basemixer_aggregate klass mix
        = Some (mix', eff ++ [FinishBuffer outbuf], ret)
        /\ out_timestamp outbuf = output_start_time_of m0
        /\ qos_processed mix' = u64 (qos_processed m0 + 1)
        /\ qos_dropped mix' = qos_dropped m0).
Proof.
  intros Hf Hp Hobs.
  destruct (aggregate_locked_no_observation klass m0 Hobs) as [Hq [Hnever Hblend]].
  pose proof (gst_basemixer_aggregate_unfold klass mix m0 eff_caps Hf Hp) as Hu.
  split; [exact Hq|]. split.
  - intros mix' eff ret. rewrite Hu.
    destruct (aggregate_locked klass m0) as [[[m effl] r]|] eqn:E; [|discriminate].
    intros H; inversion H; subst; clear H.
    destruct (Hnever _ _ _ eq_refl) as [Hd Hno].
    split; [exact Hd|].
    intros rt st ts du j pr q pc dr Hin. apply in_app_or in Hin.
    destruct Hin as [Hin|Hin].
    + destruct (aggregate_prepare_effects klass mix m0 eff_caps Hp _ Hin) as [c Hc].
      discriminate.
    + exact (Hno _ _ _ _ _ _ _ _ _ Hin).
  - intros Hfill.
    destruct (Hblend Hfill) as [mix' [eff [outbuf [ret [Hagg Hrest]]]]].
    exists mix', (eff_caps ++ eff), outbuf, ret.
    split; [|exact Hrest].
    rewrite Hu, Hagg, <- app_assoc. reflexivity.
Qed.

(** ** Reset on the transition to READY *)

Lemma Forall2_map_r {A B : Type} (P : A -> B -> Prop) (f : A -> B) (l : list A) :
  (forall a, P a (f a)) -> Forall2 P l (map f l).
Proof. intros H. induction l; simpl; constructor; auto. Qed.

(** C8 (amended): the transition PAUSED to READY runs the full reset, whose
    postcondition is: [out_info] reinitialised to unknown, [ts_offset] and
    [nframes] zero, the output segment reinitialised with position undefined,
    QoS reset (proportion 0.5, no observation, counters zero), a new segment
    pending, and for every pad the current buffer freed, [start_time] and
    [end_time] undefined and the pad info reinitialised.  The transition
    leaves [current_caps] and every pad's [queued] buffer as they were. *)
Theorem ready_transition_resets (mix : GstBasemixer) :
  let mix' := gst_basemixer_change_state mix GST_STATE_CHANGE_PAUSED_TO_READY in
  mix_info mix' = gst_video_info_init
  /\ GST_VIDEO_INFO_FORMAT (mix_info mix') = GST_VIDEO_FORMAT_UNKNOWN
  /\ ts_offset mix' = 0 /\ nframes mix' = 0
  /\ segment (agg mix') = set_position gst_segment_init GST_CLOCK_TIME_NONE
  /\ proportion mix' = d_half /\ earliest_time mix' = GST_CLOCK_TIME_NONE
  /\ qos_processed mix' = 0 /\ qos_dropped mix' = 0
  /\ newseg_pending mix' = true
  /\ current_caps mix' = current_caps mix
  /\ Forall2
       (fun p p' =>
          pad_name p' = pad_name p
          /\ pad_buffer p' = None
          /\ start_time p' = GST_CLOCK_TIME_NONE
          /\ end_time p' = GST_CLOCK_TIME_NONE
          /\ pad_info p' = gst_video_info_init
          /\ queued p' = queued p)
       (sinkpads mix) (sinkpads mix').
Proof.
  unfold gst_basemixer_change_state, gst_basemixer_reset, parent_change_state.
  cbv zeta. simpl.
  repeat (split; [reflexivity|]).
  rewrite map_map. apply Forall2_map_r. intros p. simpl. repeat split.
Qed.

(** ** The sink-side clip *)

(** C7 (amended): the clip step drops an incoming buffer exactly when the
    aggregator pad holds a pending buffer and the end of the incoming buffer --
    after deriving a missing duration from the pad framerate, clipping to the
    pad segment, converting to running time and scaling by the output rate --
    lies strictly before the pad's current [end_time]; a buffer that ends at
    [end_time] passes. *)
Theorem sink_clip_drops_strictly_older (mix : GstBasemixer) (pad : GstBasemixerPad)
    (buf : GstBuffer) :
  gst_basemixer_sink_clip mix pad buf = (GST_FLOW_OK, None)
  <-> exists s e,
        sink_clip_interval mix pad buf = Some (s, e)
        /\ bpad_buffer (bpad pad) <> None
        /\ e < end_time pad.
Proof.
  unfold gst_basemixer_sink_clip.
  destruct (GST_BUFFER_TIMESTAMP buf =? GST_CLOCK_TIME_NONE) eqn:Ets.
  - split; [discriminate|].
    intros [s [e [H _]]]. unfold sink_clip_interval in H. rewrite Ets in H. discriminate.
  - destruct (sink_clip_interval mix pad buf) as [[s e]|].
    + destruct (bpad_buffer (bpad pad)) as [b|].
      * destruct (e <? end_time pad) eqn:E.
        -- apply Z.ltb_lt in E. split; [|reflexivity].
           intros _. exists s, e. repeat split; [discriminate|exact E].
        -- apply Z.ltb_ge in E. split; [discriminate|].
           intros [s' [e' [H [_ Hlt]]]]. inversion H; subst. lia.
      * split; [discriminate|]. intros [s' [e' [_ [H _]]]]. contradiction.
    + split; [discriminate|]. intros [s' [e' [H _]]]. discriminate.
Qed.

(** ** Alpha in the format election *)

Lemma elect_pad_keeps_alpha (ds : GstCaps) (e : Election) (pad : GstBasemixerPad) :
  at_least_one_alpha e = true -> at_least_one_alpha (elect_pad ds e pad) = true.
Proof.
  intros H. unfold elect_pad.
  destruct (finfo (pad_info pad)) as [fi|]; [|exact H].
  repeat match goal with
         | |- context [if ?c then _ else _] => destruct c
         end; simpl; try rewrite H; reflexivity.
Qed.

Lemma elect_pad_sees_alpha (ds : GstCaps) (e : Election) (pad : GstBasemixerPad) :
  info_has_alpha (pad_info pad) = true -> at_least_one_alpha (elect_pad ds e pad) = true.
Proof.
  unfold info_has_alpha, elect_pad.
  destruct (finfo (pad_info pad)) as [fi|]; [|discriminate].
  intros H. rewrite H.
  repeat match goal with
         | |- context [if ?c then _ else _] => destruct c
         end; reflexivity.
Qed.

Lemma election_sees_alpha (ds : GstCaps) (pads : list GstBasemixerPad) (e : Election) :
  at_least_one_alpha e = true
  \/ (exists pad, In pad pads /\ info_has_alpha (pad_info pad) = true) ->
  at_least_one_alpha (fold_left (elect_pad ds) pads e) = true.
Proof.
  revert e. induction pads as [|p tl IH]; simpl; intros e H.
  - destruct H as [H|[pad [[] _]]]. exact H.
  - apply IH. destruct H as [H|[pad [[<-|Hin] Ha]]].
    + left. apply elect_pad_keeps_alpha, H.
    + left. apply elect_pad_sees_alpha, Ha.
    + right. exists pad. split; assumption.
Qed.

(** C5: when downstream allows some caps, at least one input pad's declared
    format has an alpha channel and the format elected for the output has
    none, [gst_basemixer_update_converters] posts a negotiation error and
    returns failure, leaving the mixer as it was. *)
Theorem alpha_input_needs_alpha_output (klass : GstBasemixerClass) (mix : GstBasemixer)
    (ds : GstCaps) :
  allowed_downstream_caps klass mix = Some ds ->
  gst_caps_is_empty ds = false ->
  (exists pad, In pad (sinkpads mix) /\ info_has_alpha (pad_info pad) = true) ->
  info_has_alpha (fst (elect_format ds (sinkpads mix))) = false ->
  gst_basemixer_update_converters klass mix = (mix, [ElementErrorNegotiation], false).
Proof.
  intros Hds Hne Hpad Hbest.
  unfold gst_basemixer_update_converters. rewrite Hds, Hne.
  assert (Hone : snd (elect_format ds (sinkpads mix)) = true).
  { unfold elect_format. simpl. apply election_sees_alpha. right. exact Hpad. }
  destruct (elect_format ds (sinkpads mix)) as [best one_alpha].
  simpl in Hbest, Hone. rewrite Hbest, Hone. reflexivity.
Qed.

(** ** The selection of the output size and framerate *)

(** The order of doubles is transitive, also through NaN and infinities. *)
Lemma SFltb_trans (a b c : spec_float) :
  SFltb a b = true -> SFltb b c = true -> SFltb a c = true.
Proof.
  unfold SFltb, SFcompare.
  destruct a as [sa|sa| |sa ma ea], b as [sb|sb| |sb mb eb], c as [sc|sc| |sc mc ec];
    try discriminate;
    try (destruct sa; discriminate); try (destruct sb; discriminate);
    try (destruct sa, sb; discriminate);
    try (destruct sb, sc; discriminate);
    try (destruct sa, sb, sc; (discriminate || reflexivity)).
  destruct sa, sb, sc; try (discriminate || reflexivity);
    rewrite ?Pos.compare_cont_spec; simpl;
    destruct (Z.compare_spec ea eb), (Z.compare_spec eb ec), (Z.compare_spec ea ec);
    try discriminate; try reflexivity; try lia; subst;
    destruct (Pos.compare_spec ma mb), (Pos.compare_spec mb mc),
      (Pos.compare_spec ma mc);
    simpl; try discriminate; try reflexivity; lia.
Qed.

Lemma SFltb_irrefl (a : spec_float) : SFltb a a = false.
Proof.
  unfold SFltb, SFcompare.
  destruct a as [s|s| |s m e]; try reflexivity; destruct s; try reflexivity;
    rewrite Z.compare_refl, Pos.compare_cont_spec, Pos.compare_refl; reflexivity.
Qed.

Lemma SFltb_not_nan (a b : spec_float) : SFltb a b = true -> b <> S754_nan.
Proof.
  intros H ->. unfold SFltb, SFcompare in H. destruct a; discriminate.
Qed.

(** A double is non-negative when it is a zero, a finite number or an
    infinity of positive sign, or NaN. *)
Definition sign_is (s : bool) (r : spec_float) : Prop :=
  r = S754_zero s \/ (exists m e, r = S754_finite s m e) \/ r = S754_infinity s
  \/ r = S754_nan.

Lemma binary_round_aux_sign (s : bool) (mx ex : Z) (lx : location) :
  sign_is s (binary_round_aux dbl_prec dbl_emax s mx ex lx).
Proof.
  unfold binary_round_aux, sign_is.
  destruct (shr_fexp dbl_prec dbl_emax mx ex lx) as [mrs' e'].
  destruct (shr_fexp dbl_prec dbl_emax _ e' loc_Exact) as [mrs'' e''].
  destruct (shr_m mrs'') as [|m|m]; auto.
  destruct (e'' <=? dbl_emax - dbl_prec)%Z; eauto.
Qed.

Lemma double_of_Z_sign (z : Z) : 0 < z -> sign_is false (double_of_Z z).
Proof.
  destruct z as [|p|p]; try lia. intros _.
  unfold double_of_Z, binary_normalize, binary_round.
  destruct (shl_align _ _ _) as [mz ez]. apply binary_round_aux_sign.
Qed.

Lemma ddiv_sign (x y : spec_float) :
  sign_is false x -> sign_is false y -> sign_is false (ddiv x y).
Proof.
  unfold sign_is, ddiv.
  intros [->|[[mx [ex ->]]|[-> | ->]]] [->|[[my [ey ->]]|[-> | ->]]]; simpl; auto.
  destruct (SFdiv_core_binary dbl_prec dbl_emax (Z.pos mx) ex (Z.pos my) ey)
    as [[mz ez] lz].
  apply binary_round_aux_sign.
Qed.

(** A framerate with positive numerator and denominator that the scan can
    select is zero or positive as a double. *)
Lemma cur_fps_positive (i : GstVideoInfo) :
  0 < fps_n i -> 0 < fps_d i -> cur_fps_of i <> S754_nan ->
  deq (cur_fps_of i) d_zero = true \/ dlt d_zero (cur_fps_of i) = true.
Proof.
  intros Hn Hd Hnan. unfold cur_fps_of in *.
  destruct (fps_d i =? 0) eqn:E; [apply Z.eqb_eq in E; lia|].
  unfold gst_util_fraction_to_double in *.
  destruct (ddiv_sign _ _ (double_of_Z_sign _ Hn) (double_of_Z_sign _ Hd))
    as [H|[[m [e H]]|[H|H]]]; rewrite H in *; auto; contradiction.
Qed.

Definition contributes (p : GstBasemixerPad) : Prop :=
  width (pad_info p) <> 0 /\ height (pad_info p) <> 0.

(** What the scan has established after a list of pads. *)
Record scan_facts (pads : list GstBasemixerPad) (b : BestCaps) : Prop := {
  width_upper : forall p, In p pads -> contributes p -> width (pad_info p) <= best_width b;
  width_attained :
    best_width b = -1
    \/ exists p, In p pads /\ contributes p /\ width (pad_info p) = best_width b;
  height_upper : forall p, In p pads -> contributes p -> height (pad_info p) <= best_height b;
  height_attained :
    best_height b = -1
    \/ exists p, In p pads /\ contributes p /\ height (pad_info p) = best_height b;
  fps_upper :
    forall p, In p pads -> contributes p -> dlt (best_fps b) (cur_fps_of (pad_info p)) = false;
  fps_attained :
    (best_fps b = d_minus_one /\ best_fps_n b = -1 /\ best_fps_d b = -1)
    \/ exists p, In p pads /\ contributes p
                 /\ best_fps b = cur_fps_of (pad_info p)
                 /\ best_fps_n b = fps_n (pad_info p)
                 /\ best_fps_d b = fps_d (pad_info p);
  fps_not_nan : best_fps b <> S754_nan
}.

Lemma scan_facts_init : scan_facts [] best_caps_init.
Proof.
  constructor; simpl; try (intros p []); auto; try discriminate.
Qed.

Lemma scan_facts_step (pads : list GstBasemixerPad) (b : BestCaps) (x : GstBasemixerPad) :
  scan_facts pads b -> scan_facts (pads ++ [x]) (update_src_caps_scan_pad b x).
Proof.
  intros [Wu Wa Hu Ha Fu Fa Fn].
  assert (Hin : forall p, In p (pads ++ [x]) -> In p pads \/ p = x).
  { intros p H. apply in_app_or in H. destruct H as [H|[H|[]]]; auto. }
  assert (Hold : forall p, In p pads -> In p (pads ++ [x])).
  { intros p H. apply in_or_app. auto. }
  assert (Hx : In x (pads ++ [x])).
  { apply in_or_app. right. left. reflexivity. }
  unfold update_src_caps_scan_pad.
  destruct ((width (pad_info x) =? 0) || (height (pad_info x) =? 0)) eqn:Eskip.
  - (* the pad is skipped *)
    assert (Hnc : ~ contributes x).
    { intros [H1 H2]. apply orb_true_iff in Eskip.
      destruct Eskip as [E|E]; apply Z.eqb_eq in E; contradiction. }
    constructor; auto.
    + intros p Hp Hc. destruct (Hin p Hp) as [H| ->]; [auto|contradiction].
    + destruct Wa as [H|[p [H1 H2]]]; [auto|right; exists p; auto].
    + intros p Hp Hc. destruct (Hin p Hp) as [H| ->]; [auto|contradiction].
    + destruct Ha as [H|[p [H1 H2]]]; [auto|right; exists p; auto].
    + intros p Hp Hc. destruct (Hin p Hp) as [H| ->]; [auto|contradiction].
    + destruct Fa as [H|[p [H1 H2]]]; [auto|right; exists p; auto].
  - apply orb_false_iff in Eskip. destruct Eskip as [E1 E2].
    apply Z.eqb_neq in E1. apply Z.eqb_neq in E2.
    assert (Hc : contributes x) by (split; assumption).
    assert (Wu' : forall p, In p (pads ++ [x]) -> contributes p ->
                  width (pad_info p)
                  <= (if best_width b <? width (pad_info x)
                      then width (pad_info x) else best_width b)).
    { intros p Hp Hcp. destruct (best_width b <? width (pad_info x)) eqn:E;
        [apply Z.ltb_lt in E | apply Z.ltb_ge in E];
        destruct (Hin p Hp) as [H| ->]; try specialize (Wu p H Hcp); lia. }
    assert (Wa' : (if best_width b <? width (pad_info x)
                   then width (pad_info x) else best_width b) = -1
                  \/ exists p, In p (pads ++ [x]) /\ contributes p
                     /\ width (pad_info p)
                        = (if best_width b <? width (pad_info x)
                           then width (pad_info x) else best_width b)).
    { destruct (best_width b <? width (pad_info x)).
      - right. exists x. auto.
      - destruct Wa as [H|[p [H1 H2]]]; [auto|right; exists p; auto]. }
    assert (Hu' : forall p, In p (pads ++ [x]) -> contributes p ->
                  height (pad_info p)
                  <= (if best_height b <? height (pad_info x)
                      then height (pad_info x) else best_height b)).
    { intros p Hp Hcp. destruct (best_height b <? height (pad_info x)) eqn:E;
        [apply Z.ltb_lt in E | apply Z.ltb_ge in E];
        destruct (Hin p Hp) as [H| ->]; try specialize (Hu p H Hcp); lia. }
    assert (Ha' : (if best_height b <? height (pad_info x)
                   then height (pad_info x) else best_height b) = -1
                  \/ exists p, In p (pads ++ [x]) /\ contributes p
                     /\ height (pad_info p)
                        = (if best_height b <? height (pad_info x)
                           then height (pad_info x) else best_height b)).
    { destruct (best_height b <? height (pad_info x)).
      - right. exists x. auto.
      - destruct Ha as [H|[p [H1 H2]]]; [auto|right; exists p; auto]. }
    destruct (dlt (best_fps b) (cur_fps_of (pad_info x))) eqn:Elt;
      constructor; simpl; auto.
    + (* the pad becomes the best: the pads seen before are not faster *)
      intros p Hp Hcp. destruct (Hin p Hp) as [H| ->].
      * destruct (dlt (cur_fps_of (pad_info x)) (cur_fps_of (pad_info p))) eqn:E;
          [|reflexivity].
        pose proof (SFltb_trans _ _ _ Elt E) as Ht.
        unfold dlt in Fu. rewrite (Fu p H Hcp) in Ht. discriminate.
      * apply SFltb_irrefl.
    + right. exists x. auto.
    + eapply SFltb_not_nan, Elt.
    + intros p Hp Hcp. destruct (Hin p Hp) as [H| ->]; [auto|exact Elt].
    + destruct Fa as [H|[p [H1 H2]]]; [auto|right; exists p; auto].
Qed.

Lemma scan_facts_fold (l pads : list GstBasemixerPad) (b : BestCaps) :
  scan_facts pads b ->
  scan_facts (pads ++ l) (fold_left update_src_caps_scan_pad l b).
Proof.
  revert pads b. induction l as [|x tl IH]; intros pads b H; simpl.
  - rewrite app_nil_r. exact H.
  - replace (pads ++ x :: tl) with ((pads ++ [x]) ++ tl)
      by (rewrite <- app_assoc; reflexivity).
    apply IH, scan_facts_step, H.
Qed.

Lemma update_src_caps_scan_facts (pads : list GstBasemixerPad) :
  scan_facts pads (update_src_caps_scan pads).
Proof. apply (scan_facts_fold pads [] best_caps_init scan_facts_init). Qed.

(** The sign of the conversion of a negative integer, and of a quotient. *)
Lemma double_of_Z_sign_neg (z : Z) : z < 0 -> sign_is true (double_of_Z z).
Proof.
  destruct z as [|p|p]; try lia. intros _.
  unfold double_of_Z, binary_normalize, binary_round.
  destruct (shl_align _ _ _) as [mz ez]. apply binary_round_aux_sign.
Qed.

Lemma ddiv_sign_xor (sx sy : bool) (x y : spec_float) :
  sign_is sx x -> sign_is sy y -> sign_is (xorb sx sy) (ddiv x y).
Proof.
  unfold sign_is, ddiv.
  intros [->|[[mx [ex ->]]|[-> | ->]]] [->|[[my [ey ->]]|[-> | ->]]]; simpl; auto.
  destruct (SFdiv_core_binary dbl_prec dbl_emax (Z.pos mx) ex (Z.pos my) ey)
    as [[mz ez] lz].
  apply binary_round_aux_sign.
Qed.

Lemma dlt_zero_negative (r : spec_float) : sign_is true r -> dlt d_zero r = false.
Proof. intros [->|[[m [e ->]]|[-> | ->]]]; reflexivity. Qed.

Lemma ddiv_zero (s : bool) (y : spec_float) : dlt d_zero (ddiv (S754_zero s) y) = false.
Proof. destruct y; reflexivity. Qed.

(** A framerate that the scan finds positive has a positive numerator, when
    its denominator is not negative. *)
Lemma positive_fps_fraction (i : GstVideoInfo) :
  0 <= fps_d i -> dlt d_zero (cur_fps_of i) = true -> 0 < fps_n i /\ 0 < fps_d i.
Proof.
  intros Hd Hpos. unfold cur_fps_of in Hpos.
  destruct (fps_d i =? 0) eqn:E; [discriminate|].
  apply Z.eqb_neq in E. split; [|lia].
  unfold gst_util_fraction_to_double in Hpos.
  destruct (Z.lt_trichotomy (fps_n i) 0) as [Hn|[Hn|Hn]]; [| |exact Hn].
  - assert (Hy : sign_is false (double_of_Z (fps_d i))) by (apply double_of_Z_sign; lia).
    pose proof (ddiv_sign_xor true false _ _ (double_of_Z_sign_neg _ Hn) Hy) as Hs.
    rewrite (dlt_zero_negative _ Hs) in Hpos. discriminate.
  - rewrite Hn in Hpos. change (double_of_Z 0) with (S754_zero false) in Hpos.
    rewrite ddiv_zero in Hpos. discriminate.
Qed.

(** What is not below a positive double is positive, and a positive double
    is not zero. *)
Lemma dlt_zero_above (b c : spec_float) :
  dlt d_zero c = true -> dlt b c = false -> b <> S754_nan -> dlt d_zero b = true.
Proof.
  unfold dlt, SFltb, d_zero.
  destruct c as [sc|sc| |sc mc ec], b as [sb|sb| |sb mb eb];
    try discriminate; try contradiction;
    try (destruct sc; discriminate);
    try (destruct sb; simpl; (discriminate || reflexivity));
    try (destruct sc, sb; simpl; (discriminate || reflexivity)).
Qed.

Lemma dlt_zero_not_zero (x : spec_float) : dlt d_zero x = true -> deq x d_zero = false.
Proof.
  unfold dlt, deq, SFltb, SFeqb, d_zero.
  destruct x as [sx|sx| |sx mx ex]; try discriminate;
    destruct sx; (discriminate || reflexivity).
Qed.

(** When some pad with a geometry has a positive framerate, the scan ends on
    a positive fraction. *)
Lemma scan_selects_positive (pads : list GstBasemixerPad) :
  (forall p, In p pads -> contributes p -> 0 <= fps_d (pad_info p)) ->
  (exists p, In p pads /\ contributes p /\ dlt d_zero (cur_fps_of (pad_info p)) = true) ->
  let s := update_src_caps_scan pads in
  0 < best_fps_n s /\ 0 < best_fps_d s /\ dlt d_zero (best_fps s) = true.
Proof.
  intros Hden [p0 [Hp0 [Hc0 Hpos0]]] s.
  destruct (update_src_caps_scan_facts pads) as [_ _ _ _ Fu Fa Fn]. fold s in Fu, Fa, Fn.
  assert (Hpos : dlt d_zero (best_fps s) = true).
  { exact (dlt_zero_above _ _ Hpos0 (Fu p0 Hp0 Hc0) Fn). }
  destruct Fa as [[Hf _]|[p [Hp [Hc [Hf [Hn Hd]]]]]].
  - rewrite Hf in Hpos. discriminate.
  - rewrite Hf in Hpos. rewrite Hn, Hd.
    destruct (positive_fps_fraction _ (Hden p Hp Hc) Hpos) as [H1 H2].
    rewrite Hf. auto.
Qed.

(** The framerate selected, after the default, is positive as a double:
    of the three tests [gst_basemixer_update_src_caps] makes before setting
    caps, the one on [best_fps] always passes. *)
Lemma best_fps_positive (mix : GstBasemixer) :
  dlt d_zero (best_fps (update_src_caps_best mix)) = true.
Proof.
  unfold update_src_caps_best, update_src_caps_default.
  destruct (update_src_caps_scan_facts (sinkpads mix)) as [_ _ _ _ _ Fa Fn].
  destruct ((best_fps_n _ <=? 0) || (best_fps_d _ <=? 0) || deq _ d_zero) eqn:Edef;
    [reflexivity|].
  apply orb_false_iff in Edef. destruct Edef as [Edef E3].
  apply orb_false_iff in Edef. destruct Edef as [E1 E2].
  apply Z.leb_gt in E1. apply Z.leb_gt in E2.
  destruct Fa as [[_ [Hn _]]|[p [Hp [Hc [Hf [Hn Hd]]]]]]; [lia|].
  rewrite Hn in E1. rewrite Hd in E2. rewrite Hf in E3, Fn |- *.
  destruct (cur_fps_positive _ E1 E2 Fn) as [Hz|Hpos]; [|exact Hpos].
  rewrite Hz in E3. discriminate.
Qed.

(** C4: [gst_basemixer_update_src_caps] selects [best_width] as the maximum
    declared width and [best_height] as the maximum declared height over the
    sink pads whose width and height are both non-zero ([-1] when there is no
    such pad), and [best_fps] as the maximum framerate of these pads, with
    the fraction of a pad that attains it.  The default leaves a selection
    alone whose numerator and denominator are positive and whose value is not
    zero, and replaces any other by 25/1: when one of these pads has a
    positive framerate (and no framerate denominator is negative), the
    selection is the fraction of a pad that attains the maximum; when none of
    them has a positive framerate, the framerate is 25/1.  The framerate
    selected is positive as a double, and
    [gst_basemixer_update_src_caps] goes on exactly when the selected width
    and height are positive: the info it then proposes to the subclass hook
    and to downstream carries the selected width, height and framerate, and
    the selected framerate is what it fixates the downstream framerate to. *)
Theorem update_src_caps_selects_best (klass : GstBasemixerClass) (mix : GstBasemixer) :
  let pads := sinkpads mix in
  let s := update_src_caps_scan pads in
  let b := update_src_caps_best mix in
  scan_facts pads s
  /\ best_width b = best_width s /\ best_height b = best_height s
  /\ (0 < best_fps_n s -> 0 < best_fps_d s -> deq (best_fps s) d_zero = false -> b = s)
  /\ (best_fps_n s <= 0 \/ best_fps_d s <= 0 \/ deq (best_fps s) d_zero = true ->
      best_fps_n b = 25 /\ best_fps_d b = 1 /\ best_fps b = d_25)
  /\ ((forall p, In p pads -> contributes p -> 0 <= fps_d (pad_info p)) ->
      (exists p, In p pads /\ contributes p
                 /\ dlt d_zero (cur_fps_of (pad_info p)) = true) ->
      b = s
      /\ exists p, In p pads /\ contributes p
                   /\ best_fps_n b = fps_n (pad_info p)
                   /\ best_fps_d b = fps_d (pad_info p)
                   /\ 0 < fps_n (pad_info p) /\ 0 < fps_d (pad_info p)
                   /\ forall q, In q pads -> contributes q ->
                        dlt (cur_fps_of (pad_info p)) (cur_fps_of (pad_info q)) = false)
  /\ ((forall p, In p pads -> contributes p ->
         dlt d_zero (cur_fps_of (pad_info p)) = false) ->
      best_fps_n b = 25 /\ best_fps_d b = 1 /\ best_fps b = d_25)
  /\ width (update_src_caps_proposal mix b) = best_width b
  /\ height (update_src_caps_proposal mix b) = best_height b
  /\ fps_n (update_src_caps_proposal mix b) = best_fps_n b
  /\ fps_d (update_src_caps_proposal mix b) = best_fps_d b
  /\ dlt d_zero (best_fps b) = true
  /\ gst_basemixer_update_src_caps klass mix
     = if (best_width b >? 0) && (best_height b >? 0) then
         let mix1 :=
           if negb (fps_n (mix_info mix) =? best_fps_n b)
              || negb (fps_d (mix_info mix) =? best_fps_d b)
           then reanchor_cadence mix else mix in
         let proposal := update_src_caps_proposal mix b in
         let '(mix2, info, ok) :=
           match modify_src_pad_info klass with
           | Some hook => hook mix1 proposal
           | None => (mix1, proposal, true)
           end in
         if negb ok then (mix2, false)
         else
           match gst_pad_peer_query_caps with
           | Some peercaps =>
               let tmp :=
                 gst_caps_intersect
                   (caps_set_geometry_ranges (gst_video_info_to_caps info)) peercaps in
               if gst_caps_is_empty tmp then (mix2, false)
               else
                 let '(w, h, (n, d)) :=
                   caps_fixate_nearest tmp (width info) (height info)
                     (best_fps_n b) (best_fps_d b) in
                 gst_basemixer_src_setcaps mix2
                   (gst_video_info_to_caps (set_fps (set_width_height info w h) n d))
           | None => gst_basemixer_src_setcaps mix2 (gst_video_info_to_caps info)
           end
       else (mix, true).
Proof.
  intros pads s b.
  pose proof (update_src_caps_scan_facts pads) as F. fold s in F.
  split; [exact F|].
  assert (Hb : b = update_src_caps_default s) by reflexivity.
  assert (Hw : best_width b = best_width s).
  { rewrite Hb. unfold update_src_caps_default. destruct (_ || _); reflexivity. }
  assert (Hh : best_height b = best_height s).
  { rewrite Hb. unfold update_src_caps_default. destruct (_ || _); reflexivity. }
  assert (Hkeep : 0 < best_fps_n s -> 0 < best_fps_d s ->
                  deq (best_fps s) d_zero = false -> b = s).
  { intros Hn Hd Hz. rewrite Hb. unfold update_src_caps_default.
    replace (best_fps_n s <=? 0) with false by (symmetry; apply Z.leb_gt; exact Hn).
    replace (best_fps_d s <=? 0) with false by (symmetry; apply Z.leb_gt; exact Hd).
    rewrite Hz. reflexivity. }
  assert (Hdefault : best_fps_n s <= 0 \/ best_fps_d s <= 0
                     \/ deq (best_fps s) d_zero = true ->
                     best_fps_n b = 25 /\ best_fps_d b = 1 /\ best_fps b = d_25).
  { intros Hc. rewrite Hb. unfold update_src_caps_default.
    replace ((best_fps_n s <=? 0) || (best_fps_d s <=? 0) || deq (best_fps s) d_zero)
      with true; [simpl; auto|].
    symmetry. destruct Hc as [Hc|[Hc|Hc]].
    - apply Z.leb_le in Hc. rewrite Hc. reflexivity.
    - apply Z.leb_le in Hc. rewrite Hc. apply orb_true_iff. left. apply orb_true_r.
    - rewrite Hc. apply orb_true_r. }
  split; [exact Hw|]. split; [exact Hh|]. split; [exact Hkeep|].
  split; [exact Hdefault|]. split; [|split].
  - (* some pad has a positive framerate *)
    intros Hden Hex.
    destruct (scan_selects_positive pads Hden Hex) as [Hn [Hd Hpos]].
    fold s in Hn, Hd, Hpos.
    assert (Hbs : b = s) by exact (Hkeep Hn Hd (dlt_zero_not_zero _ Hpos)).
    split; [exact Hbs|]. rewrite Hbs.
    destruct F as [_ _ _ _ Fu Fa _].
    destruct Fa as [[_ [Hm _]]|[p [Hp [Hc [Hf [Hfn Hfd]]]]]]; [lia|].
    exists p. split; [exact Hp|]. split; [exact Hc|]. split; [exact Hfn|].
    split; [exact Hfd|]. split; [lia|]. split; [lia|].
    intros q Hq Hcq. rewrite <- Hf. apply Fu; assumption.
  - (* no pad has a positive framerate *)
    intros Hnone. rewrite Hb. unfold update_src_caps_default.
    destruct ((best_fps_n s <=? 0) || (best_fps_d s <=? 0) || deq (best_fps s) d_zero)
      eqn:Edef; [simpl; auto|].
    exfalso. destruct F as [_ _ _ _ _ Fa Fn].
    apply orb_false_iff in Edef. destruct Edef as [Edef E3].
    apply orb_false_iff in Edef. destruct Edef as [E1 E2].
    apply Z.leb_gt in E1. apply Z.leb_gt in E2.
    destruct Fa as [[_ [Hn _]]|[p [Hp [Hc [Hf [Hn Hd]]]]]]; [lia|].
    rewrite Hn in E1. rewrite Hd in E2. rewrite Hf in E3, Fn.
    destruct (cur_fps_positive _ E1 E2 Fn) as [Hz|Hpos].
    + rewrite Hz in E3. discriminate.
    + rewrite (Hnone p Hp Hc) in Hpos. discriminate.
  - split; [reflexivity|]. split; [reflexivity|]. split; [reflexivity|].
    split; [reflexivity|]. split; [exact (best_fps_positive mix)|].
    unfold gst_basemixer_update_src_caps.
    fold b. rewrite (best_fps_positive mix : dlt d_zero (best_fps b) = true).
    rewrite andb_true_r.
    destruct ((best_width b >? 0) && (best_height b >? 0)); [|reflexivity].
    cbv zeta.
    destruct (negb (fps_n (mix_info mix) =? best_fps_n b)
              || negb (fps_d (mix_info mix) =? best_fps_d b)); [|reflexivity].
    unfold reanchor_cadence.
    destruct (negb (position (segment (agg mix)) =? GST_CLOCK_TIME_NONE)); reflexivity.
Qed.

(** ** The z-order of the pad list *)

Definition zorder_le (a b : GstBasemixerPad) : Prop := zorder a <= zorder b.

(** The pad list is sorted ascending by z-order. *)
Definition zsorted (l : list GstBasemixerPad) : Prop := StronglySorted zorder_le l.

(** The z-orders the comparator orders correctly: those below [2^31]. *)
Definition zorder_small (p : GstBasemixerPad) : Prop := 0 <= zorder p < 2 ^ 31.

Lemma pad_zorder_compare_small (a b : GstBasemixerPad) :
  zorder_small a -> zorder_small b -> pad_zorder_compare a b = zorder a - zorder b.
Proof.
  unfold zorder_small, pad_zorder_compare, s32, u32.
  change (2 ^ 31) with 2147483648. change (2 ^ 32) with 4294967296.
  intros Ha Hb. rewrite Z.mod_mod by lia.
  destruct (Z_lt_le_dec (zorder a - zorder b) 0) as [Hneg|Hpos].
  - replace ((zorder a - zorder b) mod 4294967296)
      with (zorder a - zorder b + 4294967296).
    + destruct (_ <? _) eqn:E; [apply Z.ltb_lt in E|]; lia.
    + apply Z.mod_unique with (q := -1); lia.
  - rewrite Z.mod_small by lia.
    destruct (_ <? _) eqn:E; [|apply Z.ltb_ge in E]; lia.
Qed.

Lemma zsorted_same_zorders (l l' : list GstBasemixerPad) :
  map zorder l = map zorder l' -> zsorted l -> zsorted l'.
Proof.
  unfold zsorted. revert l'. induction l as [|a tl IH]; intros [|a' tl'] Hm Hs;
    try discriminate; [constructor|].
  simpl in Hm. inversion Hm as [[Ha Ht]]. inversion Hs as [|? ? Hs' Hf]; subst.
  constructor; [apply IH; assumption|].
  clear - Ha Ht Hf. revert tl' Ht.
  induction Hf as [|x tl Hx Hf IH]; intros [|x' tl'] Ht; try discriminate; constructor.
  - inversion Ht. unfold zorder_le in *. lia.
  - apply IH. inversion Ht. reflexivity.
Qed.

Lemma insert_sorted_perm (l : list GstBasemixerPad) (x : GstBasemixerPad) :
  Permutation (g_slist_insert_sorted pad_zorder_compare l x) (x :: l).
Proof.
  induction l as [|e tl IH]; simpl; [reflexivity|].
  destruct (pad_zorder_compare x e >? 0); [|reflexivity].
  rewrite IH. apply perm_swap.
Qed.

Lemma insert_sorted_zsorted (l : list GstBasemixerPad) (x : GstBasemixerPad) :
  Forall zorder_small l -> zorder_small x -> zsorted l ->
  zsorted (g_slist_insert_sorted pad_zorder_compare l x).
Proof.
  unfold zsorted. intros Hl Hx Hs. induction Hs as [|e tl Hs IH Hf]; simpl.
  - constructor; constructor.
  - inversion Hl as [|? ? He Htl]; subst.
    rewrite (pad_zorder_compare_small x e Hx He).
    destruct (zorder x - zorder e >? 0) eqn:E.
    + apply Z.gtb_lt in E. constructor; [apply IH, Htl|].
      apply List.Forall_forall. intros y Hy.
      apply (Permutation_in _ (insert_sorted_perm tl x)) in Hy.
      destruct Hy as [<-|Hy]; [unfold zorder_le; lia|].
      rewrite List.Forall_forall in Hf. apply Hf, Hy.
    + assert (E' : zorder x <= zorder e) by (destruct (Z.gtb_spec (zorder x - zorder e) 0); [discriminate|lia]).
      constructor; [constructor; assumption|].
      constructor; [exact E'|].
      apply List.Forall_forall. intros y Hy. rewrite List.Forall_forall in Hf.
      specialize (Hf y Hy). unfold zorder_le in *. lia.
Qed.

Lemma remove_incl (l : list GstBasemixerPad) (name : Z) (p : GstBasemixerPad) :
  In p (g_slist_remove l name) -> In p l.
Proof.
  induction l as [|e tl IH]; simpl; [auto|].
  destruct (pad_name e =? name); [auto|]. intros [H|H]; auto.
Qed.

Lemma remove_zsorted (l : list GstBasemixerPad) (name : Z) :
  zsorted l -> zsorted (g_slist_remove l name).
Proof.
  unfold zsorted. intros Hs. induction Hs as [|e tl Hs IH Hf]; simpl; [constructor|].
  destruct (pad_name e =? name); [exact Hs|].
  constructor; [exact IH|].
  apply List.Forall_forall. intros y Hy. rewrite List.Forall_forall in Hf.
  apply Hf, (remove_incl _ _ _ Hy).
Qed.

Lemma remove_length (l : list GstBasemixerPad) (name : Z) :
  g_slist_find l name <> None ->
  S (List.length (g_slist_remove l name)) = List.length l.
Proof.
  unfold g_slist_find. induction l as [|e tl IH]; simpl; [congruence|].
  destruct (pad_name e =? name); [reflexivity|]. intros H. simpl. f_equal. apply IH, H.
Qed.

Lemma merge_perm (l1 l2 : list GstBasemixerPad) :
  Permutation (g_slist_sort_merge pad_zorder_compare l1 l2) (l1 ++ l2).
Proof.
  revert l2. induction l1 as [|a t1 IH1]; intros l2.
  - destruct l2; reflexivity.
  - induction l2 as [|b t2 IH2].
    + simpl. rewrite app_nil_r. reflexivity.
    + simpl. destruct (pad_zorder_compare a b <=? 0).
      * constructor. apply IH1.
      * simpl in IH2. rewrite IH2.
        apply (Permutation_middle (a :: t1) t2 b).
Qed.

Lemma merge_zsorted (l1 l2 : list GstBasemixerPad) :
  Forall zorder_small l1 -> Forall zorder_small l2 ->
  zsorted l1 -> zsorted l2 ->
  zsorted (g_slist_sort_merge pad_zorder_compare l1 l2).
Proof.
  unfold zsorted. revert l2. induction l1 as [|a t1 IH1]; intros l2 H1 H2 S1 S2.
  - destruct l2; assumption.
  - induction l2 as [|b t2 IH2]; [assumption|].
    inversion H1 as [|? ? Ha Ht1]; inversion H2 as [|? ? Hb Ht2]; subst.
    inversion S1 as [|? ? S1' F1]; inversion S2 as [|? ? S2' F2]; subst.
    simpl. rewrite (pad_zorder_compare_small a b Ha Hb).
    destruct (zorder a - zorder b <=? 0) eqn:E.
    + apply Z.leb_le in E. constructor; [apply IH1; assumption|].
      apply List.Forall_forall. intros y Hy.
      apply (Permutation_in _ (merge_perm t1 (b :: t2))) in Hy.
      apply in_app_or in Hy. rewrite List.Forall_forall in F1, F2.
      destruct Hy as [Hy|[<-|Hy]]; unfold zorder_le in *;
        [apply F1, Hy | lia | specialize (F2 y Hy); lia].
    + apply Z.leb_gt in E. constructor; [apply IH2; assumption|].
      apply List.Forall_forall. intros y Hy.
      assert (Hy' : In y ((a :: t1) ++ t2)).
      { apply (Permutation_in _ (merge_perm (a :: t1) t2)). exact Hy. }
      apply in_app_or in Hy'. rewrite List.Forall_forall in F1, F2.
      destruct Hy' as [[<-|Hy']|Hy']; unfold zorder_le in *;
        [lia | specialize (F1 y Hy'); lia | apply F2, Hy'].
Qed.

Lemma sort_real_perm (fuel : nat) (l : list GstBasemixerPad) :
  Permutation (g_slist_sort_real pad_zorder_compare fuel l) l.
Proof.
  revert l. induction fuel as [|f IH]; intros l; simpl; [reflexivity|].
  destruct l as [|a [|b tl]]; try reflexivity.
  rewrite merge_perm, !IH. rewrite firstn_skipn. reflexivity.
Qed.

Lemma sort_real_zsorted (fuel : nat) (l : list GstBasemixerPad) :
  (List.length l <= fuel)%nat -> Forall zorder_small l ->
  zsorted (g_slist_sort_real pad_zorder_compare fuel l).
Proof.
  revert l. induction fuel as [|f IH]; intros l Hlen Hsm.
  - destruct l; [constructor|simpl in Hlen; lia].
  - simpl. destruct l as [|a [|b tl]]; [constructor| repeat constructor |].
    set (l := a :: b :: tl) in *.
    set (half := Nat.div2 (List.length l)).
    assert (Hhalf : (1 <= half /\ half < List.length l)%nat).
    { unfold half, l. split.
      - simpl. apply le_n_S, Nat.le_0_l.
      - apply Nat.lt_div2. simpl. apply Nat.lt_0_succ. }
    assert (Hall : forall y, In y l -> zorder_small y)
      by (apply List.Forall_forall; exact Hsm).
    apply merge_zsorted.
    + apply List.Forall_forall. intros y Hy.
      apply (Permutation_in _ (sort_real_perm f _)) in Hy.
      apply Hall. rewrite <- (firstn_skipn half l). apply in_or_app. auto.
    + apply List.Forall_forall. intros y Hy.
      apply (Permutation_in _ (sort_real_perm f _)) in Hy.
      apply Hall. rewrite <- (firstn_skipn half l). apply in_or_app. auto.
    + apply IH.
      * rewrite length_firstn. lia.
      * apply List.Forall_forall. intros y Hy. apply Hall.
        rewrite <- (firstn_skipn half l). apply in_or_app. auto.
    + apply IH.
      * rewrite length_skipn. lia.
      * apply List.Forall_forall. intros y Hy. apply Hall.
        rewrite <- (firstn_skipn half l). apply in_or_app. auto.
Qed.

Lemma sort_perm (l : list GstBasemixerPad) :
  Permutation (g_slist_sort pad_zorder_compare l) l.
Proof. apply sort_real_perm. Qed.

Lemma sort_zsorted (l : list GstBasemixerPad) :
  Forall zorder_small l -> zsorted (g_slist_sort pad_zorder_compare l).
Proof. intros H. apply sort_real_zsorted; [lia|exact H]. Qed.

(** Negotiation leaves the z-orders and the length of the pad list alone. *)
Ltac break_match :=
  match goal with
  | |- context [match ?x with _ => _ end] => destruct x eqn:?
  end.

Lemma update_converters_pads_zorders (best : GstVideoInfo) (pads : list GstBasemixerPad) :
  map zorder (fst (update_converters_pads best pads)) = map zorder pads.
Proof.
  induction pads as [|p tl IH]; simpl; [reflexivity|].
  destruct (update_converters_pads best tl) as [tl' ok]. simpl in IH.
  repeat break_match; simpl; rewrite ?IH; reflexivity.
Qed.

Lemma update_converters_zorders (klass : GstBasemixerClass) (mix : GstBasemixer) :
  let mix' := fst (fst (gst_basemixer_update_converters klass mix)) in
  map zorder (sinkpads mix') = map zorder (sinkpads mix)
  /\ numpads mix' = numpads mix.
Proof.
  unfold gst_basemixer_update_converters.
  destruct (allowed_downstream_caps klass mix) as [ds|]; [|split; reflexivity].
  destruct (gst_caps_is_empty ds); [split; reflexivity|].
  destruct (elect_format ds (sinkpads mix)) as [best one_alpha].
  destruct (one_alpha && negb (info_has_alpha best)); [split; reflexivity|].
  simpl.
  pose proof (update_converters_pads_zorders best (sinkpads mix)) as H.
  destruct (update_converters_pads best (sinkpads mix)) as [pads ok].
  simpl in *. split; [exact H|reflexivity].
Qed.

Lemma src_setcaps_pads (mix : GstBasemixer) (caps : GstCaps) :
  sinkpads (fst (gst_basemixer_src_setcaps mix caps)) = sinkpads mix
  /\ numpads (fst (gst_basemixer_src_setcaps mix caps)) = numpads mix.
Proof.
  unfold gst_basemixer_src_setcaps, reanchor_cadence.
  repeat break_match; simpl; split; reflexivity.
Qed.

Lemma set_functions_pads (mix : GstBasemixer) (info : GstVideoInfo) :
  sinkpads (fst (set_functions mix info)) = sinkpads mix
  /\ numpads (fst (set_functions mix info)) = numpads mix.
Proof.
  unfold set_functions. destruct (GST_VIDEO_INFO_FORMAT info); split; reflexivity.
Qed.

Lemma videomixer2_hook_pads (mix : GstBasemixer) (info : GstVideoInfo) :
  sinkpads (fst (fst (gst_videomixer2_modify_src_pad_info mix info))) = sinkpads mix
  /\ numpads (fst (fst (gst_videomixer2_modify_src_pad_info mix info))) = numpads mix.
Proof.
  unfold gst_videomixer2_modify_src_pad_info.
  destruct (fold_left modify_scan_pad (sinkpads mix) (-1, -1)) as [bw bh].
  destruct ((bw >? 0) && (bh >? 0)); [|split; reflexivity].
  pose proof (set_functions_pads mix
                (gst_video_info_set_format (GST_VIDEO_INFO_FORMAT info) bw bh)) as H.
  destruct (set_functions mix _) as [m ret]. exact H.
Qed.

Lemma videomixer2_update_src_caps_pads (mix : GstBasemixer) :
  let mix' := fst (gst_basemixer_update_src_caps gst_videomixer2_class mix) in
  sinkpads mix' = sinkpads mix /\ numpads mix' = numpads mix.
Proof.
  unfold gst_basemixer_update_src_caps. cbv zeta.
  destruct ((best_width (update_src_caps_best mix) >? 0)
            && (best_height (update_src_caps_best mix) >? 0)
            && dlt d_zero (best_fps (update_src_caps_best mix)));
    [|split; reflexivity].
  set (m1 := if negb (fps_n (mix_info mix) =? best_fps_n (update_src_caps_best mix))
                || negb (fps_d (mix_info mix) =? best_fps_d (update_src_caps_best mix))
             then reanchor_cadence mix else mix).
  assert (H1 : sinkpads m1 = sinkpads mix /\ numpads m1 = numpads mix).
  { unfold m1, reanchor_cadence. repeat break_match; split; reflexivity. }
  simpl (modify_src_pad_info gst_videomixer2_class). cbv iota beta.
  pose proof (videomixer2_hook_pads m1
                (update_src_caps_proposal m1 (update_src_caps_best mix))) as H2.
  destruct (gst_videomixer2_modify_src_pad_info m1 _) as [[m2 info] ok].
  simpl in H2. destruct H2 as [H2 H2']. destruct H1 as [H1 H1'].
  destruct (negb ok); [simpl; split; congruence|].
  destruct gst_pad_peer_query_caps as [peercaps|].
  - destruct (gst_caps_is_empty _); [simpl; split; congruence|].
    destruct (caps_fixate_nearest _ _ _ _ _) as [[w h] [n d]].
    destruct (src_setcaps_pads m2
                (gst_video_info_to_caps (set_fps (set_width_height info w h) n d)))
      as [H3 H3'].
    split; congruence.
  - destruct (src_setcaps_pads m2 (gst_video_info_to_caps info)) as [H3 H3'].
    split; congruence.
Qed.

(** The invariant of the pad list: sorted by z-order, with z-orders the
    comparator orders correctly, and counted by [numpads]. *)
Definition pads_inv (mix : GstBasemixer) : Prop :=
  zsorted (sinkpads mix)
  /\ Forall zorder_small (sinkpads mix)
  /\ numpads mix = Z.of_nat (List.length (sinkpads mix)).

(** The values the property [zorder] accepts. *)
Definition op_in_range (op : PadOp) : Prop :=
  match op with
  | SetZorder _ value => 0 <= value <= 10000
  | _ => True
  end.

Lemma update_pad_length (name : Z) (f : GstBasemixerPad -> GstBasemixerPad)
    (l : list GstBasemixerPad) :
  List.length (update_pad name f l) = List.length l.
Proof. unfold update_pad. apply length_map. Qed.

Lemma Forall_same_zorders (l l' : list GstBasemixerPad) :
  map zorder l = map zorder l' -> Forall zorder_small l -> Forall zorder_small l'.
Proof.
  revert l'. induction l as [|a tl IH]; intros [|a' tl'] Hm Hf; try discriminate;
    constructor; inversion Hm; inversion Hf; subst.
  - unfold zorder_small in *. congruence.
  - apply IH; assumption.
Qed.

Lemma same_zorders_length (l l' : list GstBasemixerPad) :
  map zorder l = map zorder l' -> List.length l = List.length l'.
Proof. intros H. rewrite <- (length_map zorder l), H. apply length_map. Qed.

Lemma apply_pad_op_inv (mix : GstBasemixer) (op : PadOp) :
  pads_inv mix -> op_in_range op ->
  Z.of_nat (List.length (sinkpads mix)) + 1 < 2 ^ 31 ->
  pads_inv (apply_pad_op gst_videomixer2_class mix op)
  /\ (List.length (sinkpads (apply_pad_op gst_videomixer2_class mix op))
      <= S (List.length (sinkpads mix)))%nat.
Proof.
  intros [Hs [Hf Hn]] Hop Hlen.
  change (2 ^ 31) with 2147483648 in Hlen.
  destruct op as [name value|mixpad|name]; simpl in *.
  - (* a write to zorder: the whole list is sorted again *)
    unfold gst_basemixer_pad_set_property, pads_inv. simpl.
    set (pads := update_pad name (fun p => set_zorder p value) (sinkpads mix)).
    assert (Hsm : Forall zorder_small pads).
    { unfold pads, update_pad. apply List.Forall_forall. intros y Hy.
      apply in_map_iff in Hy. destruct Hy as [p [<- Hp]].
      rewrite List.Forall_forall in Hf.
      destruct (pad_name p =? name); [|apply Hf, Hp].
      unfold zorder_small. simpl. change (2 ^ 31) with 2147483648. lia. }
    pose proof (sort_perm pads) as Hperm.
    assert (Hl : List.length (g_slist_sort pad_zorder_compare pads)
                 = List.length (sinkpads mix)).
    { rewrite (Permutation_length Hperm). apply update_pad_length. }
    repeat split.
    + apply sort_zsorted, Hsm.
    + apply List.Forall_forall. intros y Hy. rewrite List.Forall_forall in Hsm.
      apply Hsm, (Permutation_in _ Hperm), Hy.
    + rewrite Hl. exact Hn.
    + rewrite Hl. lia.
  - (* a request: the pad is inserted at z-order numpads *)
    unfold pads_inv. simpl.
    set (x := set_times (set_zorder mixpad (numpads mix)) _ _).
    assert (Hx : zorder_small x).
    { unfold zorder_small, x. simpl. change (2 ^ 31) with 2147483648. lia. }
    pose proof (insert_sorted_perm (sinkpads mix) x) as Hperm.
    repeat split.
    + apply insert_sorted_zsorted; assumption.
    + apply List.Forall_forall. intros y Hy.
      apply (Permutation_in _ Hperm) in Hy. rewrite List.Forall_forall in Hf.
      destruct Hy as [<-|Hy]; [exact Hx|apply Hf, Hy].
    + rewrite (Permutation_length Hperm). simpl List.length.
      unfold u32. change (2 ^ 32) with 4294967296.
      rewrite Z.mod_small by lia. lia.
    + rewrite (Permutation_length Hperm). simpl. lia.
  - (* a release: the pad is removed, then the mixer renegotiates *)
    unfold gst_basemixer_release_pad.
    destruct (g_slist_find (sinkpads mix) name) as [found|] eqn:Efind;
      [|simpl; split; [repeat split; assumption|lia]].
    assert (Hrl : S (List.length (g_slist_remove (sinkpads mix) name))
                  = List.length (sinkpads mix)).
    { apply remove_length. rewrite Efind. discriminate. }
    set (m1 := set_sinkpads mix (g_slist_remove (sinkpads mix) name)
                 (u32 (numpads mix - 1))).
    assert (H1 : pads_inv m1).
    { unfold pads_inv, m1. simpl. repeat split.
      - apply remove_zsorted, Hs.
      - apply List.Forall_forall. intros y Hy. rewrite List.Forall_forall in Hf.
        apply Hf, (remove_incl _ _ _ Hy).
      - unfold u32. change (2 ^ 32) with 4294967296.
        rewrite Z.mod_small by lia. lia. }
    pose proof (update_converters_zorders gst_videomixer2_class m1) as H2.
    destruct (gst_basemixer_update_converters gst_videomixer2_class m1)
      as [[m2 eff] ok].
    simpl in H2. destruct H2 as [H2 H2'].
    assert (Hinv2 : pads_inv m2
                    /\ List.length (sinkpads m2) = List.length (sinkpads m1)).
    { destruct H1 as [Ha [Hb Hc]]. symmetry in H2.
      pose proof (same_zorders_length _ _ H2) as Hl.
      repeat split.
      - apply (zsorted_same_zorders _ _ H2 Ha).
      - apply (Forall_same_zorders _ _ H2 Hb).
      - transitivity (numpads m1); [exact H2'|]. rewrite <- Hl. exact Hc.
      - symmetry. exact Hl. }
    destruct Hinv2 as [Hinv2 Hl2].
    assert (Hl1 : List.length (sinkpads m1)
                  = List.length (g_slist_remove (sinkpads mix) name))
      by reflexivity.
    destruct (negb (format_eqb (GST_VIDEO_INFO_FORMAT (mix_info m2))
                      GST_VIDEO_FORMAT_UNKNOWN)).
    + pose proof (videomixer2_update_src_caps_pads m2) as [H3 H3'].
      simpl. unfold pads_inv. rewrite H3, H3'.
      split; [exact Hinv2|]. lia.
    + simpl. split; [exact Hinv2|]. lia.
Qed.

Lemma run_pad_ops_inv (ops : list PadOp) (mix : GstBasemixer) :
  pads_inv mix -> Forall op_in_range ops ->
  Z.of_nat (List.length (sinkpads mix)) + Z.of_nat (List.length ops) < 2 ^ 31 ->
  pads_inv (fold_left (apply_pad_op gst_videomixer2_class) ops mix).
Proof.
  revert mix. induction ops as [|op tl IH]; intros mix Hinv Hops Hlen; simpl;
    [exact Hinv|].
  inversion Hops as [|? ? Hop Htl]; subst.
  simpl List.length in Hlen.
  destruct (apply_pad_op_inv mix op Hinv Hop) as [Hinv' Hl]; [lia|].
  apply IH; [exact Hinv'|exact Htl|lia].
Qed.

Lemma init_pads_inv : pads_inv (gst_basemixer_init zeroed_basemixer).
Proof. repeat split; simpl; constructor. Qed.

(** In a sorted pad list a pad of lower z-order stands before a pad of higher
    z-order. *)
Lemma zsorted_before (l : list GstBasemixerPad) (a b : GstBasemixerPad) :
  zsorted l -> In a l -> In b l -> zorder a < zorder b ->
  exists l1 l2 l3, l = l1 ++ a :: l2 ++ b :: l3.
Proof.
  unfold zsorted. intros Hs. induction Hs as [|x tl Hs IH Hf]; intros Ha Hb Hlt;
    [contradiction|].
  rewrite List.Forall_forall in Hf.
  destruct Ha as [->|Ha], Hb as [->|Hb].
  - lia.
  - destruct (in_split _ _ Hb) as [l2 [l3 ->]]. exists [], l2, l3. reflexivity.
  - specialize (Hf a Ha). unfold zorder_le in Hf. lia.
  - destruct (IH Ha Hb Hlt) as [l1 [l2 [l3 ->]]]. exists (x :: l1), l2, l3. reflexivity.
Qed.

Lemma blend_prepare_pointwise (mix : GstBasemixer) (outsize : Z)
    (pads : list GstBasemixerPad) :
  fst (blend_prepare mix outsize pads)
  = map (fun p => fst (blend_prepare_pad mix outsize p)) pads.
Proof.
  induction pads as [|p tl IH]; simpl; [reflexivity|].
  destruct (blend_prepare_pad mix outsize p) as [p' e1].
  destruct (blend_prepare mix outsize tl) as [tl' e2]. simpl in *. rewrite IH. reflexivity.
Qed.

Lemma blend_prepare_pad_name (mix : GstBasemixer) (outsize : Z) (p : GstBasemixerPad) :
  pad_name (fst (blend_prepare_pad mix outsize p)) = pad_name p.
Proof.
  unfold blend_prepare_pad. repeat break_match; reflexivity.
Qed.

Lemma blend_prepare_pad_frame (mix : GstBasemixer) (outsize : Z) (p : GstBasemixerPad) :
  pad_buffer p <> None -> mixed_frame (fst (blend_prepare_pad mix outsize p)) <> None.
Proof.
  unfold blend_prepare_pad. intros H.
  destruct (pad_buffer p); [|contradiction].
  destruct (convert p); simpl; discriminate.
Qed.

Lemma composited_app (ov : bool) (l l' : list GstBasemixerPad) :
  composited (composite_pads ov (l ++ l'))
  = composited (composite_pads ov l) ++ composited (composite_pads ov l').
Proof.
  induction l as [|p tl IH]; simpl; [reflexivity|].
  destruct (mixed_frame p); simpl; rewrite IH; reflexivity.
Qed.

Lemma composited_cons (ov : bool) (p : GstBasemixerPad) (l : list GstBasemixerPad) :
  mixed_frame p <> None ->
  composited (composite_pads ov (p :: l))
  = pad_name p :: composited (composite_pads ov l).
Proof.
  simpl. destruct (mixed_frame p); [reflexivity|contradiction].
Qed.

(** The pads the positioned mixer composites for an output buffer, in the
    order of the calls. *)
Lemma blend_buffers_composited (mix : GstBasemixer) (os oe : Z) :
  exists ov,
    composited (out_paint (snd (gst_basemixer_blend_buffers gst_videomixer2_class mix os oe)))
    = composited
        (composite_pads ov
           (map (fun p => fst (blend_prepare_pad mix (size (mix_info mix)) p))
              (sinkpads mix))).
Proof.
  unfold gst_basemixer_blend_buffers.
  pose proof (blend_prepare_pointwise mix (size (mix_info mix)) (sinkpads mix)) as H.
  destruct (blend_prepare mix (size (mix_info mix)) (sinkpads mix)) as [pads eff].
  simpl in H. subst pads. simpl. unfold gst_videomixer2_mix_frames. simpl.
  destruct (background mix); eexists; reflexivity.
Qed.

(** C9: over any sequence of writes to the property [zorder] (values in its
    range 0..10000), pad requests and pad releases, with fewer than [2^31]
    pads, the pad list is sorted ascending by z-order after every operation;
    and the output buffer blended from the resulting list composites the
    contributing pads in list order: of two pads that both hold a current
    buffer, the one with the lower z-order is composited first. *)
Theorem zorder_sorted_and_composited_in_order (mix : GstBasemixer) (ops : list PadOp)
    (os oe : Z) :
  pads_inv mix ->
  Forall op_in_range ops ->
  Z.of_nat (List.length (sinkpads mix)) + Z.of_nat (List.length ops) < 2 ^ 31 ->
  (forall k,
     zsorted (sinkpads (fold_left (apply_pad_op gst_videomixer2_class)
                          (firstn k ops) mix)))
  /\ let mix' := fold_left (apply_pad_op gst_videomixer2_class) ops mix in
     forall a b,
       In a (sinkpads mix') -> In b (sinkpads mix') ->
       pad_buffer a <> None -> pad_buffer b <> None ->
       zorder a < zorder b ->
       exists l1 l2 l3,
         composited
           (out_paint (snd (gst_basemixer_blend_buffers gst_videomixer2_class
                              mix' os oe)))
         = l1 ++ pad_name a :: l2 ++ pad_name b :: l3.
Proof.
  intros Hinv Hops Hlen. split.
  - intros k. apply run_pad_ops_inv; [exact Hinv| |].
    + apply List.Forall_forall. intros op Hop. rewrite List.Forall_forall in Hops.
      apply Hops. rewrite <- (firstn_skipn k ops). apply in_or_app. auto.
    + rewrite length_firstn. lia.
  - intros mix' a b Ha Hb Hba Hbb Hlt.
    destruct (run_pad_ops_inv ops mix Hinv Hops Hlen) as [Hs _].
    fold mix' in Hs.
    destruct (zsorted_before _ a b Hs Ha Hb Hlt) as [l1 [l2 [l3 Hl]]].
    destruct (blend_buffers_composited mix' os oe) as [ov Hc].
    rewrite Hc, Hl.
    rewrite map_app, composited_app. simpl map.
    rewrite composited_cons by (apply blend_prepare_pad_frame, Hba).
    rewrite map_app, composited_app. simpl map.
    rewrite composited_cons by (apply blend_prepare_pad_frame, Hbb).
    rewrite !blend_prepare_pad_name.
    eexists _, _, _. reflexivity.
Qed.

(** ** The output cadence *)




Lemma rounded_div_le (x den : Z) : 0 <= x -> 0 < den -> (x + den / 2) / den <= x.
Proof.
  intros Hx Hd.
  assert (0 <= den / 2 < den)
    by (split; [apply Z.div_pos; lia|apply Z.div_lt_upper_bound; lia]).
  assert ((x + den / 2) / den < x + 1); [|lia].
  apply Z.div_lt_upper_bound; [lia|]. nia.
Qed.

Lemma rounded_div_nonneg (x den : Z) : 0 <= x -> 0 < den -> 0 <= (x + den / 2) / den.
Proof.
  intros Hx Hd. apply Z.div_pos; [|lia].
  assert (0 <= den / 2) by (apply Z.div_pos; lia). lia.
Qed.



Lemma scale_round_cadence (k num den : Z) :
  0 <= k -> 0 < den -> 0 < num -> k * num < G_MAXUINT64 ->
  gst_util_uint64_scale_round k num den = (k * num + den / 2) / den.
Proof.
  intros Hk Hd Hn Hb. unfold gst_util_uint64_scale_round.
  destruct (den =? 0) eqn:E1; [apply Z.eqb_eq in E1; lia|].
  destruct (num =? 0) eqn:E2; [apply Z.eqb_eq in E2; lia|].
  assert (Hh : 0 <= den / 2 < den)
    by (split; [apply Z.div_pos; lia|apply Z.div_lt_upper_bound; lia]).
  destruct (num =? den) eqn:E3.
  - apply Z.eqb_eq in E3. subst num.
    apply Z.div_unique with (r := den / 2); lia.
  - apply Z.min_l. pose proof (rounded_div_le (k * num) den). nia.
Qed.

Lemma u64_small (z : Z) : 0 <= z < 2 ^ 64 -> u64 z = z.
Proof. intros H. unfold u64. apply Z.mod_small, H. Qed.





Lemma emitted_app (a b : list Effect) :
  emitted_timestamps (a ++ b) = emitted_timestamps a ++ emitted_timestamps b.
Proof.
  induction a as [|e tl IH]; simpl; [reflexivity|].
  destruct e; simpl; rewrite IH; reflexivity.
Qed.

Lemma emitted_tags (mix : GstBasemixer) : emitted_timestamps (tags_effect mix) = [].
Proof. unfold tags_effect. destruct (pending_tags mix); reflexivity. Qed.

Lemma emitted_sync (eff : list Effect) :
  (forall e, In e eff -> exists p t, e = SyncValues p t) -> emitted_timestamps eff = [].
Proof.
  induction eff as [|e tl IH]; intros H; [reflexivity|].
  destruct (H e (or_introl eq_refl)) as [p [t ->]]. simpl.
  apply IH. intros e' He'. apply H. right. exact He'.
Qed.

(** What one tick does to the timing state when no renegotiation is pending:
    either nothing, or the advance to [out_end] with at most one buffer
    pushed, stamped [out_start]. *)
Lemma aggregate_timing (klass : GstBasemixerClass) (mix mix' : GstBasemixer)
    (eff : list Effect) (ret : GstFlowReturn) :
  srcpad_need_reconfigure (agg mix) = false ->
  gst_basemixer_aggregate klass mix = Some (mix', eff, ret) ->
  mix_info mix' = mix_info mix /\ ts_offset mix' = ts_offset mix
  /\ ((agg mix' = agg mix /\ nframes mix' = nframes mix
       /\ emitted_timestamps eff = [])
      \/ (agg mix'
          = {| segment := set_position (segment (agg mix)) (output_end_time_of mix);
               srcpad_need_reconfigure := false |}
          /\ nframes mix' = u64 (nframes mix + 1)
          /\ (emitted_timestamps eff = []
              \/ emitted_timestamps eff = [output_start_time_of mix]))).
Proof.
  intros Hflag. unfold gst_basemixer_aggregate.
  destruct (format_eqb _ _).
  { intros H; inversion H; subst. repeat split; auto. }
  unfold aggregate_prepare. rewrite Hflag.
  set (m0 := if send_caps mix then set_caps mix (current_caps mix) false else mix).
  set (e0 := if send_caps mix then [SetSrcCaps (current_caps mix)] else []).
  replace (if send_caps mix
           then (set_caps mix (current_caps mix) false, [SetSrcCaps (current_caps mix)])
           else (mix, [])) with (m0, e0)
    by (unfold m0, e0; destruct (send_caps mix); reflexivity).
  assert (Hm0 : mix_info m0 = mix_info mix /\ ts_offset m0 = ts_offset mix
                /\ agg m0 = agg mix /\ nframes m0 = nframes mix)
    by (unfold m0; destruct (send_caps mix); repeat split; reflexivity).
  assert (He0 : emitted_timestamps e0 = [])
    by (unfold e0; destruct (send_caps mix); reflexivity).
  destruct Hm0 as [Hi [Ht [Ha Hn]]].
  assert (Hos : output_start_time_of m0 = output_start_time_of mix)
    by (unfold output_start_time_of; rewrite Ha; reflexivity).
  assert (Hoe : output_end_time_of m0 = output_end_time_of mix)
    by (unfold output_end_time_of, cadence_end; rewrite Ha, Hi, Ht, Hn; reflexivity).
  rewrite aggregate_locked_unfold.
  destruct (gst_basemixer_fill_queues m0 _ _) as [[m1 r]|]; [|discriminate].
  cbv zeta. rewrite Hos, Hoe.
  pose proof (blend_buffers_frame klass
                (set_pads (set_pending_tags m0 None) (sinkpads m1))
                (output_start_time_of mix) (output_end_time_of mix)) as Fr.
  pose proof (blend_buffers_effects klass
                (set_pads (set_pending_tags m0 None) (sinkpads m1))
                (output_start_time_of mix) (output_end_time_of mix)) as Fe.
  pose proof (blend_buffers_stamp klass
                (set_pads (set_pending_tags m0 None) (sinkpads m1))
                (output_start_time_of mix) (output_end_time_of mix)) as [Fs _].
  unfold aggregate_blend, aggregate_drop.
  destruct (gst_basemixer_blend_buffers klass _ _ _) as [[mb effb] ob].
  simpl in Fr, Fe, Fs.
  destruct (r =? 0); [|destruct (r =? -1); [|destruct (r =? -2);
    [|destruct (gst_basemixer_do_qos m0 (output_start_time_of mix) <=? 0)]]];
    intros H; inversion H; subst mix' eff ret; clear H;
    rewrite ?emitted_app, ?He0, ?emitted_tags; simpl.
  - repeat split; auto.
  - repeat split; auto.
  - repeat split; auto.
  - rewrite Fr. simpl. rewrite Hi, Ht, Ha, Hn, Hflag.
    repeat split. right. repeat split.
    rewrite (emitted_sync effb Fe). simpl. right. rewrite Fs. reflexivity.
  - rewrite Hi, Ht, Ha, Hn, Hflag. repeat split. right. repeat split. left. reflexivity.
Qed.






(** ** Scaling by the output rate *)

Lemma iter_xO_value (a n : positive) : Zpos (Pos.iter xO a n) = Zpos a * 2 ^ Zpos n.
Proof.
  induction n as [|n IH] using Pos.peano_ind.
  - simpl. lia.
  - rewrite Pos.iter_succ, Pos2Z.inj_succ, Z.pow_succ_r by lia.
    change (Zpos (Pos.iter xO a n)~0) with (2 * Zpos (Pos.iter xO a n)).
    rewrite IH. ring.
Qed.

Lemma iter_xO_digits (a n : positive) :
  Zpos (digits2_pos (Pos.iter xO a n)) = Zpos (digits2_pos a) + Zpos n.
Proof.
  induction n as [|n IH] using Pos.peano_ind.
  - simpl. lia.
  - rewrite Pos.iter_succ. simpl digits2_pos. rewrite Pos2Z.inj_succ, IH. lia.
Qed.

Lemma digits2_pos_bounds (p : positive) :
  2 ^ (Zpos (digits2_pos p) - 1) <= Zpos p < 2 ^ Zpos (digits2_pos p).
Proof.
  induction p as [q IH|q IH|]; simpl digits2_pos.
  - rewrite Pos2Z.inj_succ. change (Zpos q~1) with (2 * Zpos q + 1).
    replace (Z.succ (Zpos (digits2_pos q)) - 1)
      with (Z.succ (Zpos (digits2_pos q) - 1)) by lia.
    rewrite !Z.pow_succ_r by lia. lia.
  - rewrite Pos2Z.inj_succ. change (Zpos q~0) with (2 * Zpos q).
    replace (Z.succ (Zpos (digits2_pos q)) - 1)
      with (Z.succ (Zpos (digits2_pos q) - 1)) by lia.
    rewrite !Z.pow_succ_r by lia. lia.
  - simpl. lia.
Qed.

Lemma digits2_pos_le_53 (p : positive) : Zpos p < 2 ^ 53 -> Zpos (digits2_pos p) <= 53.
Proof.
  intros H. pose proof (digits2_pos_bounds p) as [Hl _].
  destruct (Z_le_gt_dec (Zpos (digits2_pos p)) 53) as [|Hgt]; [assumption|].
  assert (2 ^ 53 <= 2 ^ (Zpos (digits2_pos p) - 1)) by (apply Z.pow_le_mono_r; lia).
  lia.
Qed.

(** A 53-bit mantissa with an exponent in range is already rounded. *)
Lemma binary_round_aux_exact (s : bool) (mz : positive) (ez : Z) :
  Zpos (digits2_pos mz) = 53 -> -1074 <= ez <= 971 ->
  binary_round_aux dbl_prec dbl_emax s (Zpos mz) ez loc_Exact = S754_finite s mz ez.
Proof.
  intros Hd He.
  unfold binary_round_aux, shr_fexp, Zdigits2, fexp, emin, dbl_prec, dbl_emax.
  rewrite Hd.
  replace (Z.max (53 + ez - 53) (3 - 1024 - 53)) with ez by lia.
  rewrite Z.sub_diag. simpl.
  rewrite Hd.
  replace (Z.max (53 + ez - 53) (3 - 1024 - 53)) with ez by lia.
  rewrite Z.sub_diag. simpl.
  change (1024 - 53) with 971.
  destruct (ez <=? 971) eqn:E; [reflexivity|apply Z.leb_gt in E; lia].
Qed.

(** An integer below [2^53] converts to double without rounding. *)
Lemma double_of_Z_exact (p : positive) :
  Zpos p < 2 ^ 53 ->
  exists mz ez,
    double_of_Z (Zpos p) = S754_finite false mz ez
    /\ Zpos (digits2_pos mz) = 53 /\ -52 <= ez <= 0
    /\ Zpos mz = Zpos p * 2 ^ (- ez).
Proof.
  intros Hp. pose proof (digits2_pos_le_53 p Hp) as Hd.
  assert (Hd1 : 1 <= Zpos (digits2_pos p)) by lia.
  unfold double_of_Z, binary_normalize, binary_round, shl_align, fexp, emin,
    dbl_prec, dbl_emax.
  replace (Z.max (Zpos (digits2_pos p) + 0 - 53) (3 - 1024 - 53))
    with (Zpos (digits2_pos p) - 53) by lia.
  rewrite Z.sub_0_r.
  destruct (Zpos (digits2_pos p) - 53) as [|k|k] eqn:Ek; [| lia |].
  - exists p, 0. split; [|split; [lia|split; [lia|simpl; lia]]].
    apply (binary_round_aux_exact false p 0); lia.
  - exists (Pos.iter xO p k), (Zneg k).
    assert (Hdig : Zpos (digits2_pos (Pos.iter xO p k)) = 53)
      by (rewrite iter_xO_digits; lia).
    split; [|split; [exact Hdig|split; [lia|]]].
    + apply (binary_round_aux_exact false (Pos.iter xO p k) (Zneg k)); [exact Hdig|lia].
    + rewrite iter_xO_value. reflexivity.
Qed.

Lemma iter_pos_iter {A : Type} (f : A -> A) (n : positive) (x : A) :
  SpecFloat.iter_pos f n x = Pos.iter f x n.
Proof.
  revert x. induction n as [n IH|n IH|]; intros x; simpl.
  - rewrite !IH. rewrite <- !Pos.iter_swap. reflexivity.
  - rewrite !IH. reflexivity.
  - reflexivity.
Qed.

Lemma shr_iter_xO (mz k : positive) :
  SpecFloat.iter_pos shr_1 k (Build_shr_record (Zpos (Pos.iter xO mz k)) false false)
  = Build_shr_record (Zpos mz) false false.
Proof.
  rewrite iter_pos_iter.
  induction k as [|k IH] using Pos.peano_ind.
  - reflexivity.
  - rewrite Pos.iter_succ_r, Pos.iter_succ. simpl shr_1. exact IH.
Qed.

(** A 53-bit mantissa followed by [k] zero bits is rounded exactly. *)
Lemma binary_round_aux_shift (s : bool) (mz k : positive) (e : Z) :
  Zpos (digits2_pos mz) = 53 -> -1074 <= e + Zpos k <= 971 ->
  binary_round_aux dbl_prec dbl_emax s (Zpos (Pos.iter xO mz k)) e loc_Exact
  = S754_finite s mz (e + Zpos k).
Proof.
  intros Hd He.
  pose proof (binary_round_aux_exact s mz (e + Zpos k) Hd He) as Hx.
  unfold binary_round_aux in *.
  unfold shr_fexp at 1. unfold Zdigits2, fexp, emin, dbl_prec, dbl_emax.
  rewrite iter_xO_digits, Hd.
  replace (Z.max (53 + Zpos k + e - 53) (3 - 1024 - 53) - e) with (Zpos k) by lia.
  unfold shr_record_of_loc, shr. rewrite shr_iter_xO.
  cbn [shr_m loc_of_shr_record round_nearest_even].
  unfold shr_fexp at 1 in Hx. unfold Zdigits2, fexp, emin, dbl_prec, dbl_emax in Hx.
  rewrite Hd in Hx.
  replace (Z.max (53 + (e + Zpos k) - 53) (3 - 1024 - 53) - (e + Zpos k)) with 0 in Hx
    by lia.
  unfold shr_record_of_loc, shr in Hx.
  cbn [shr_m loc_of_shr_record round_nearest_even] in Hx.
  exact Hx.
Qed.

Lemma mul_two_exact (mz : positive) (ez : Z) :
  Zpos (digits2_pos mz) = 53 -> -52 <= ez <= 0 ->
  dmul (S754_finite false mz ez) d_two = S754_finite false mz (ez + 1).
Proof.
  intros Hd He. change d_two with (S754_finite false 4503599627370496 (-51)).
  unfold dmul, SFmul. simpl xorb.
  replace (Pos.mul mz 4503599627370496) with (Pos.iter xO mz 52).
  - rewrite binary_round_aux_shift by (try exact Hd; lia). f_equal. lia.
  - apply Pos2Z.inj. rewrite iter_xO_value, Pos2Z.inj_mul. reflexivity.
Qed.

(** At rate 2.0 a time below [2^53] nanoseconds is doubled exactly. *)
Lemma mul_by_two_exact (t : Z) : 0 <= t < 2 ^ 53 -> mul_by_double t d_two = 2 * t.
Proof.
  intros Ht. unfold mul_by_double.
  destruct t as [|p|p]; [reflexivity| |lia].
  destruct (double_of_Z_exact p ltac:(lia)) as [mz [ez [Hf [Hd [He Hv]]]]].
  rewrite Hf, mul_two_exact by assumption.
  unfold guint64_of_double, double_trunc.
  assert (Hval : (match ez + 1 with
                  | Z.neg k => Z.shiftr (Z.pos mz) (Z.pos k)
                  | _ => Z.shiftl (Z.pos mz) (ez + 1)
                  end) = 2 * Zpos p).
  { destruct (ez + 1) as [|k|k] eqn:Ek.
    - rewrite Z.shiftl_0_r, Hv. replace (- ez) with 1 by lia. lia.
    - assert (ez = 0) by lia. subst ez. assert (k = 1%positive) by lia. subst k.
      rewrite Z.shiftl_mul_pow2 by lia. rewrite Hv. simpl. lia.
    - rewrite Z.shiftr_div_pow2 by lia. rewrite Hv.
      replace (- ez) with (Zpos k + 1) by lia.
      rewrite Z.pow_add_r by lia.
      replace (Zpos p * (2 ^ Zpos k * 2 ^ 1)) with (2 * Zpos p * 2 ^ Zpos k) by ring.
      apply Z.div_mul. apply Z.pow_nonzero; lia. }
  rewrite Hval. apply u64_small.
  change (2 ^ 64) with 18446744073709551616.
  change (2 ^ 53) with 9007199254740992 in Ht. lia.
Qed.

Lemma convert_to_output_rate_scaled (r : gdouble) (a b : Z) :
  deq (ABS r) d_one = false ->
  convert_to_output_rate r (a, b) = (mul_by_double a (ABS r), mul_by_double b (ABS r)).
Proof. intros H. unfold convert_to_output_rate. rewrite H. reflexivity. Qed.

(** C1 (amended): for every output segment rate [r] with [|r| <> 1], a buffer
    whose interval after segment clipping and conversion to running time is
    [a, b] is assigned the output-timeline interval [a * |r|, b * |r|] -- the
    product taken in double precision and truncated to an integer -- by both
    the sink-side clip step and the queue filler when it promotes the buffer;
    in particular at rate 2.0 a time below [2^53] ns is doubled. *)
Theorem interval_multiplied_by_rate (mix : GstBasemixer) (pad pad' : GstBasemixerPad)
    (buf cb : GstBuffer) (vi : GstVideoInfo) (s0 dur : Z) (fq : bool) (os oe : Z) :
  deq (ABS (rate (segment (agg mix)))) d_one = false ->
  let r := ABS (rate (segment (agg mix))) in
  (forall s e,
     sink_clip_interval mix pad buf = Some (s, e) ->
     let '(a, b) :=
       clip_to_running (bpad_segment (bpad pad)) (GST_BUFFER_TIMESTAMP buf)
         (u64 (sink_clip_duration pad buf + GST_BUFFER_TIMESTAMP buf)) in
     s = mul_by_double a r /\ e = mul_by_double b r)
  /\ (gst_base_aggregator_pad_get_buffer (bpad pad) = Some buf ->
      fill_candidate pad buf = Some (cb, vi, s0, dur, fq) ->
      fill_queues_pad (rate (segment (agg mix))) os oe pad = PadNext pad' false true ->
      let '(a, b) := clip_to_running (bpad_segment (bpad pad)) s0 (u64 (dur + s0)) in
      pad' = pad
      \/ (pad_buffer pad' = Some cb
          /\ start_time pad' = mul_by_double a r
          /\ end_time pad' = mul_by_double b r))
  /\ (rate (segment (agg mix)) = d_two ->
      forall t, 0 <= t < 2 ^ 53 -> mul_by_double t r = 2 * t).
Proof.
  intros Hrate r. split; [|split].
  - intros s e. unfold sink_clip_interval.
    destruct (GST_BUFFER_TIMESTAMP buf =? GST_CLOCK_TIME_NONE); [discriminate|].
    cbv zeta.
    destruct (sink_clip_duration pad buf =? GST_CLOCK_TIME_NONE); [discriminate|].
    destruct (clip_to_running _ _ _) as [a b].
    rewrite convert_to_output_rate_scaled by exact Hrate.
    intros H. inversion H. split; reflexivity.
  - intros Hbuf Hcand. unfold fill_queues_pad. rewrite Hbuf, Hcand.
    destruct (clip_to_running _ _ _) as [a b].
    rewrite convert_to_output_rate_scaled by exact Hrate.
    repeat match goal with
           | |- context [if ?c then _ else _] => destruct c
           end; intros H; inversion H; subst; clear H; auto.
    + right. destruct fq; simpl; repeat split; reflexivity.
  - intros Hr t Ht. unfold r. rewrite Hr. apply mul_by_two_exact, Ht.
Qed.

(** * Further properties of the pad list *)

(** The merge step keeps the pads of each z-order in the order of the first
    list followed by the order of the second. *)
Lemma merge_cons_cons (a b : GstBasemixerPad) (t1 t2 : list GstBasemixerPad) :
  g_slist_sort_merge pad_zorder_compare (a :: t1) (b :: t2)
  = if pad_zorder_compare a b <=? 0
    then a :: g_slist_sort_merge pad_zorder_compare t1 (b :: t2)
    else b :: g_slist_sort_merge pad_zorder_compare (a :: t1) t2.
Proof. reflexivity. Qed.

Lemma filter_none {A : Type} (f : A -> bool) (l : list A) :
  Forall (fun x => f x = false) l -> List.filter f l = [].
Proof.
  induction 1 as [|x l Hx _ IH]; [reflexivity|]. simpl. rewrite Hx. exact IH.
Qed.

Lemma merge_filter_zorder (z : Z) (l1 l2 : list GstBasemixerPad) :
  Forall zorder_small l1 -> Forall zorder_small l2 -> zsorted l1 ->
  List.filter (fun p => zorder p =? z) (g_slist_sort_merge pad_zorder_compare l1 l2)
  = List.filter (fun p => zorder p =? z) l1 ++ List.filter (fun p => zorder p =? z) l2.
Proof.
  set (F := List.filter (fun p : GstBasemixerPad => zorder p =? z)).
  assert (Fc : forall x l, F (x :: l) = if zorder x =? z then x :: F l else F l)
    by reflexivity.
  revert l2. induction l1 as [|a t1 IH1]; intros l2 H1 H2 S1.
  - destruct l2; reflexivity.
  - induction l2 as [|b t2 IH2].
    + simpl g_slist_sort_merge. change (F []) with (@nil GstBasemixerPad).
      rewrite app_nil_r. reflexivity.
    + inversion H1 as [|? ? Ha Ht1]; subst. inversion H2 as [|? ? Hb Ht2]; subst.
      inversion S1 as [|? ? St1 Hle]; subst.
      rewrite merge_cons_cons, (pad_zorder_compare_small a b Ha Hb).
      destruct (zorder a - zorder b <=? 0) eqn:E.
      * rewrite (Fc a (g_slist_sort_merge _ _ _)), (Fc a t1), (IH1 (b :: t2) Ht1 H2 St1).
        destruct (zorder a =? z); reflexivity.
      * apply Z.leb_gt in E.
        rewrite (Fc b (g_slist_sort_merge _ _ _)), (Fc b t2), (IH2 Ht2).
        destruct (zorder b =? z) eqn:Eb; [|reflexivity].
        apply Z.eqb_eq in Eb.
        assert (Hnone : F (a :: t1) = []).
        { apply filter_none. constructor.
          - apply Z.eqb_neq. lia.
          - apply (List.Forall_impl _ (P := zorder_le a)); [|exact Hle].
            intros p Hp. unfold zorder_le in Hp. apply Z.eqb_neq. lia. }
        rewrite Hnone. reflexivity.
Qed.

Lemma sort_real_filter_zorder (z : Z) (fuel : nat) (l : list GstBasemixerPad) :
  (List.length l <= fuel)%nat -> Forall zorder_small l ->
  List.filter (fun p => zorder p =? z) (g_slist_sort_real pad_zorder_compare fuel l)
  = List.filter (fun p => zorder p =? z) l.
Proof.
  revert l. induction fuel as [|fuel IH]; intros l Hlen Hs; [reflexivity|].
  destruct l as [|a [|b t]]; [reflexivity|reflexivity|].
  cbn [g_slist_sort_real].
  set (l := a :: b :: t) in *.
  set (half := Nat.div2 (List.length l)).
  assert (Hhalf : (0 < half < List.length l)%nat).
  { unfold half, l. simpl List.length. split.
    - simpl. apply le_n_S, Nat.le_0_l.
    - apply Nat.lt_div2. apply Nat.lt_0_succ. }
  assert (Hall : forall y, In y l -> zorder_small y)
    by (apply List.Forall_forall; exact Hs).
  assert (Hf : Forall zorder_small (firstn half l)).
  { apply List.Forall_forall. intros p Hp. apply Hall.
    rewrite <- (firstn_skipn half l). apply in_or_app. auto. }
  assert (Hk : Forall zorder_small (skipn half l)).
  { apply List.Forall_forall. intros p Hp. apply Hall.
    rewrite <- (firstn_skipn half l). apply in_or_app. auto. }
  assert (Lf : (List.length (firstn half l) <= fuel)%nat).
  { rewrite length_firstn. lia. }
  assert (Lk : (List.length (skipn half l) <= fuel)%nat).
  { rewrite length_skipn. lia. }
  rewrite merge_filter_zorder.
  - rewrite (IH _ Lf Hf), (IH _ Lk Hk), <- List.filter_app, firstn_skipn. reflexivity.
  - apply List.Forall_forall. intros p Hp. apply (proj1 (List.Forall_forall _ _) Hf).
    eapply Permutation_in; [apply sort_real_perm|exact Hp].
  - apply List.Forall_forall. intros p Hp. apply (proj1 (List.Forall_forall _ _) Hk).
    eapply Permutation_in; [apply sort_real_perm|exact Hp].
  - apply sort_real_zsorted; assumption.
Qed.

Lemma zorder_small_check (l : list GstBasemixerPad) :
  forallb (fun p => (0 <=? zorder p) && (zorder p <? 2 ^ 31)) l = true ->
  Forall zorder_small l.
Proof.
  intros H. apply List.Forall_forall. intros p Hp.
  rewrite forallb_forall in H. specialize (H p Hp).
  apply andb_true_iff in H. destruct H as [H1 H2].
  apply Z.leb_le in H1. apply Z.ltb_lt in H2. split; assumption.
Qed.

Lemma update_pad_in (name : Z) (f : GstBasemixerPad -> GstBasemixerPad)
    (l : list GstBasemixerPad) (p : GstBasemixerPad) :
  In p (update_pad name f l) <->
  exists q, In q l /\ p = (if pad_name q =? name then f q else q).
Proof.
  unfold update_pad. rewrite in_map_iff. split; intros [q [H1 H2]]; exists q; auto.
Qed.

(** X1: a write to the property [zorder] of a pad, with the z-orders in the
    range the sort compares correctly, is stable: for every z-order value, the
    pads at that z-order come out in the relative order they had in the list
    with the written pad updated in place. *)
Theorem zorder_write_is_stable (mix : GstBasemixer) (name value z : Z) :
  Forall zorder_small (sinkpads mix) -> 0 <= value <= 10000 ->
  List.filter (fun p => zorder p =? z)
    (sinkpads (gst_basemixer_pad_set_property mix name value))
  = List.filter (fun p => zorder p =? z)
      (update_pad name (fun p => set_zorder p value) (sinkpads mix)).
Proof.
  intros Hs Hv. unfold gst_basemixer_pad_set_property. simpl sinkpads.
  apply sort_real_filter_zorder; [lia|].
  apply List.Forall_forall. intros p Hp. apply update_pad_in in Hp.
  destruct Hp as [q [Hq ->]].
  destruct (pad_name q =? name).
  - unfold zorder_small. simpl. change (2 ^ 31) with 2147483648. lia.
  - apply (proj1 (List.Forall_forall _ _) Hs). exact Hq.
Qed.

(** X2: a write to the property [zorder] changes nothing of the mixer but the
    pad list, which becomes a permutation of the list with the written pad
    updated; reading the property back from the written pad gives the value
    written, and every other pad is as it was. *)
Theorem zorder_write_read_back (mix : GstBasemixer) (name value : Z) :
  let mix' := gst_basemixer_pad_set_property mix name value in
  mix' = set_pads mix (sinkpads mix')
  /\ Permutation (sinkpads mix')
       (update_pad name (fun p => set_zorder p value) (sinkpads mix))
  /\ (forall p, In p (sinkpads mix') -> pad_name p = name ->
        gst_basemixer_pad_get_property p = value)
  /\ (forall p, In p (sinkpads mix') -> pad_name p <> name -> In p (sinkpads mix))
  /\ (forall q, In q (sinkpads mix) -> pad_name q = name ->
        In (set_zorder q value) (sinkpads mix')).
Proof.
  intros mix'.
  assert (Hperm : Permutation (sinkpads mix')
                    (update_pad name (fun p => set_zorder p value) (sinkpads mix)))
    by apply sort_perm.
  split; [reflexivity|]. split; [exact Hperm|]. split; [|split].
  - intros p Hp Hn. apply (Permutation_in _ Hperm) in Hp.
    apply update_pad_in in Hp. destruct Hp as [q [Hq ->]].
    destruct (pad_name q =? name) eqn:E; [reflexivity|].
    apply Z.eqb_neq in E. contradiction.
  - intros p Hp Hn. apply (Permutation_in _ Hperm) in Hp.
    apply update_pad_in in Hp. destruct Hp as [q [Hq ->]].
    destruct (pad_name q =? name) eqn:E; [|exact Hq].
    apply Z.eqb_eq in E. simpl in Hn. contradiction.
  - intros q Hq Hn. apply (Permutation_in _ (Permutation_sym Hperm)).
    apply update_pad_in. exists q. split; [exact Hq|].
    apply Z.eqb_eq in Hn. rewrite Hn. reflexivity.
Qed.

Lemma insert_sorted_last (l : list GstBasemixerPad) (x : GstBasemixerPad) :
  Forall (fun e => pad_zorder_compare x e > 0) l ->
  g_slist_insert_sorted pad_zorder_compare l x = l ++ [x].
Proof.
  induction 1 as [|e l He _ IH]; [reflexivity|].
  simpl. apply Z.gt_lt, Z.gtb_lt in He. rewrite He, IH. reflexivity.
Qed.

(** The pads requested one after the other. *)
Definition request_pads (mix : GstBasemixer) (pads : list GstBasemixerPad) : GstBasemixer :=
  fold_left (fun m p => fst (gst_basemixer_request_new_pad m (Some p))) pads mix.

Lemma request_pads_stack (pads : list GstBasemixerPad) (mix : GstBasemixer) (k : nat) :
  map zorder (sinkpads mix) = map Z.of_nat (seq 0 k) ->
  numpads mix = Z.of_nat k ->
  Z.of_nat k + Z.of_nat (List.length pads) < 2 ^ 31 ->
  map pad_name (sinkpads (request_pads mix pads))
  = map pad_name (sinkpads mix) ++ map pad_name pads
  /\ map zorder (sinkpads (request_pads mix pads))
     = map Z.of_nat (seq 0 (k + List.length pads))
  /\ numpads (request_pads mix pads) = Z.of_nat (k + List.length pads).
Proof.
  revert mix k. induction pads as [|p tl IH]; intros mix k Hz Hn Hlen.
  - simpl. rewrite app_nil_r, Nat.add_0_r. auto.
  - change (2 ^ 31) with 2147483648 in Hlen. simpl List.length in Hlen.
    change (request_pads mix (p :: tl))
      with (request_pads
              (set_sinkpads mix
                 (g_slist_insert_sorted pad_zorder_compare (sinkpads mix)
                    (set_times (set_zorder p (numpads mix)) GST_CLOCK_TIME_NONE
                       GST_CLOCK_TIME_NONE))
                 (u32 (numpads mix + 1))) tl).
    set (x := set_times (set_zorder p (numpads mix)) GST_CLOCK_TIME_NONE
                GST_CLOCK_TIME_NONE).
    assert (Hlast : g_slist_insert_sorted pad_zorder_compare (sinkpads mix) x
                    = sinkpads mix ++ [x]).
    { apply insert_sorted_last. apply List.Forall_forall. intros e He.
      assert (Hze : In (zorder e) (map Z.of_nat (seq 0 k))).
      { rewrite <- Hz. apply in_map. exact He. }
      apply in_map_iff in Hze. destruct Hze as [i [Hi Hin]].
      apply in_seq in Hin.
      rewrite pad_zorder_compare_small.
      - unfold x. simpl. lia.
      - unfold zorder_small, x. simpl. change (2 ^ 31) with 2147483648. lia.
      - unfold zorder_small. change (2 ^ 31) with 2147483648. lia. }
    rewrite Hlast.
    destruct (IH (set_sinkpads mix (sinkpads mix ++ [x]) (u32 (numpads mix + 1)))
                (S k)) as [I1 [I2 I3]].
    + simpl sinkpads. rewrite map_app, Hz.
      change (map zorder [x]) with [numpads mix].
      rewrite Hn. rewrite seq_S, map_app. reflexivity.
    + simpl numpads. rewrite Hn. unfold u32. change (2 ^ 32) with 4294967296.
      rewrite Z.mod_small; lia.
    + change (2 ^ 31) with 2147483648. lia.
    + simpl sinkpads in I1. rewrite I1, I2, I3.
      replace (S k + List.length tl)%nat with (k + S (List.length tl))%nat by lia.
      simpl List.length. rewrite map_app, <- app_assoc. auto.
Qed.

(** X3: pads requested one after the other on a new mixer are stacked in the
    order of the requests: the pad of the k-th request (from 0) is the k-th of
    the list and gets z-order k, and the children count is the number of
    requests. *)
Theorem requested_pads_stack_in_order (pads : list GstBasemixerPad) :
  Z.of_nat (List.length pads) < 2 ^ 31 ->
  let mix' := request_pads (gst_basemixer_init zeroed_basemixer) pads in
  map pad_name (sinkpads mix') = map pad_name pads
  /\ map zorder (sinkpads mix') = map Z.of_nat (seq 0 (List.length pads))
  /\ gst_basemixer_child_proxy_get_children_count mix' = Z.of_nat (List.length pads).
Proof.
  intros Hlen mix'.
  destruct (request_pads_stack pads (gst_basemixer_init zeroed_basemixer) 0)
    as [H1 [H2 H3]]; try reflexivity.
  - simpl Z.of_nat. lia.
  - exact (conj H1 (conj H2 H3)).
Qed.

Lemma find_unknown (l : list GstBasemixerPad) (name : Z) :
  ~ In name (map pad_name l) -> g_slist_find l name = None.
Proof.
  unfold g_slist_find. induction l as [|p tl IH]; intros Hn; [reflexivity|].
  simpl. destruct (pad_name p =? name) eqn:E.
  - apply Z.eqb_eq in E. exfalso. apply Hn. left. exact E.
  - apply IH. intros H. apply Hn. right. exact H.
Qed.

Lemma find_known (l : list GstBasemixerPad) (name : Z) :
  In name (map pad_name l) -> g_slist_find l name <> None.
Proof.
  unfold g_slist_find. induction l as [|p tl IH]; intros Hn; [destruct Hn|].
  simpl. destruct (pad_name p =? name) eqn:E; [discriminate|].
  apply IH. destruct Hn as [Hn|Hn]; [|exact Hn].
  apply Z.eqb_neq in E. contradiction.
Qed.

Lemma remove_unknown (l : list GstBasemixerPad) (name : Z) :
  ~ In name (map pad_name l) -> g_slist_remove l name = l.
Proof.
  induction l as [|p tl IH]; intros Hn; [reflexivity|].
  simpl. destruct (pad_name p =? name) eqn:E.
  - apply Z.eqb_eq in E. exfalso. apply Hn. left. exact E.
  - rewrite IH; [reflexivity|]. intros H. apply Hn. right. exact H.
Qed.

Lemma remove_inserted (l : list GstBasemixerPad) (x : GstBasemixerPad) :
  ~ In (pad_name x) (map pad_name l) ->
  g_slist_remove (g_slist_insert_sorted pad_zorder_compare l x) (pad_name x) = l.
Proof.
  induction l as [|p tl IH]; intros Hn.
  - simpl. rewrite Z.eqb_refl. reflexivity.
  - simpl. destruct (pad_zorder_compare x p >? 0).
    + simpl. destruct (pad_name p =? pad_name x) eqn:E.
      * apply Z.eqb_eq in E. exfalso. apply Hn. left. exact E.
      * rewrite IH; [reflexivity|]. intros H. apply Hn. right. exact H.
    + simpl. rewrite Z.eqb_refl. reflexivity.
Qed.

Lemma update_converters_pads_names (best : GstVideoInfo) (pads : list GstBasemixerPad) :
  map pad_name (fst (update_converters_pads best pads)) = map pad_name pads.
Proof.
  induction pads as [|p tl IH]; simpl; [reflexivity|].
  destruct (update_converters_pads best tl) as [tl' ok]. simpl in IH.
  repeat break_match; simpl; rewrite ?IH; reflexivity.
Qed.

Lemma update_converters_names (klass : GstBasemixerClass) (mix : GstBasemixer) :
  map pad_name (sinkpads (fst (fst (gst_basemixer_update_converters klass mix))))
  = map pad_name (sinkpads mix).
Proof.
  unfold gst_basemixer_update_converters.
  destruct (allowed_downstream_caps klass mix) as [ds|]; [|reflexivity].
  destruct (gst_caps_is_empty ds); [reflexivity|].
  destruct (elect_format ds (sinkpads mix)) as [best one_alpha].
  destruct (one_alpha && negb (info_has_alpha best)); [reflexivity|].
  simpl.
  pose proof (update_converters_pads_names best (sinkpads mix)) as H.
  destruct (update_converters_pads best (sinkpads mix)) as [pads ok].
  exact H.
Qed.

(** X4: the release of a pad that is not in the pad list changes nothing and
    signals nothing. *)
Theorem release_of_unknown_pad (klass : GstBasemixerClass) (mix : GstBasemixer)
    (name : Z) :
  ~ In name (map pad_name (sinkpads mix)) ->
  gst_basemixer_release_pad klass mix name = (mix, []).
Proof.
  intros Hn. unfold gst_basemixer_release_pad.
  rewrite (find_unknown _ _ Hn). reflexivity.
Qed.

Lemma release_known_pads (mix : GstBasemixer) (name : Z) :
  In name (map pad_name (sinkpads mix)) ->
  let mix' := fst (gst_basemixer_release_pad gst_videomixer2_class mix name) in
  map pad_name (sinkpads mix') = map pad_name (g_slist_remove (sinkpads mix) name)
  /\ map zorder (sinkpads mix') = map zorder (g_slist_remove (sinkpads mix) name)
  /\ numpads mix' = u32 (numpads mix - 1)
  /\ exists eff,
       snd (gst_basemixer_release_pad gst_videomixer2_class mix name)
       = ChildRemoved name :: eff.
Proof.
  intros Hin. unfold gst_basemixer_release_pad.
  destruct (g_slist_find (sinkpads mix) name) eqn:F;
    [|exfalso; exact (find_known _ _ Hin F)].
  set (m1 := set_sinkpads mix (g_slist_remove (sinkpads mix) name) (u32 (numpads mix - 1))).
  pose proof (update_converters_names gst_videomixer2_class m1) as Hnames.
  destruct (update_converters_zorders gst_videomixer2_class m1) as [Hz Hn].
  destruct (gst_basemixer_update_converters gst_videomixer2_class m1) as [[m2 eff] ok].
  simpl in Hnames, Hz, Hn. cbv zeta.
  destruct (videomixer2_update_src_caps_pads m2) as [Hp Hc].
  destruct (negb (format_eqb (GST_VIDEO_INFO_FORMAT (mix_info m2)) GST_VIDEO_FORMAT_UNKNOWN));
    simpl; rewrite ?Hp, ?Hc, Hnames, Hz, Hn; repeat split; eauto.
Qed.

(** X5: the request of a pad followed by its release gives back the pad list
    (the pads by name and z-order) and the pad count the mixer had, and
    signals the child added and then the child removed. *)
Theorem request_then_release (mix : GstBasemixer) (p : GstBasemixerPad) :
  ~ In (pad_name p) (map pad_name (sinkpads mix)) ->
  0 <= numpads mix < 2 ^ 32 ->
  let '(m1, eff1) := gst_basemixer_request_new_pad mix (Some p) in
  let '(m2, eff2) := gst_basemixer_release_pad gst_videomixer2_class m1 (pad_name p) in
  map pad_name (sinkpads m2) = map pad_name (sinkpads mix)
  /\ map zorder (sinkpads m2) = map zorder (sinkpads mix)
  /\ numpads m2 = numpads mix
  /\ eff1 = [ChildAdded (pad_name p)]
  /\ exists eff, eff2 = ChildRemoved (pad_name p) :: eff.
Proof.
  intros Hn Hnum. unfold gst_basemixer_request_new_pad.
  set (x := set_times (set_zorder p (numpads mix)) GST_CLOCK_TIME_NONE GST_CLOCK_TIME_NONE).
  set (m1 := set_sinkpads mix (g_slist_insert_sorted pad_zorder_compare (sinkpads mix) x)
               (u32 (numpads mix + 1))).
  assert (Hin : In (pad_name p) (map pad_name (sinkpads m1))).
  { apply in_map_iff. exists x. split; [reflexivity|].
    apply (Permutation_in _ (Permutation_sym (insert_sorted_perm _ _))). left. reflexivity. }
  destruct (release_known_pads m1 (pad_name p) Hin) as [R1 [R2 [R3 [eff R4]]]].
  destruct (gst_basemixer_release_pad gst_videomixer2_class m1 (pad_name p)) as [m2 eff2].
  simpl in R1, R2, R3, R4.
  change (pad_name p) with (pad_name x) in R1, R2.
  rewrite (remove_inserted (sinkpads mix) x Hn) in R1, R2.
  split; [exact R1|]. split; [exact R2|]. split; [|split; [reflexivity|eauto]].
  rewrite R3. unfold u32. rewrite Zminus_mod_idemp_l.
  replace (numpads mix + 1 - 1) with (numpads mix) by lia.
  apply Z.mod_small. exact Hnum.
Qed.

Lemma zsorted_nth (l : list GstBasemixerPad) (i j : nat) (a b : GstBasemixerPad) :
  zsorted l -> (i < j)%nat -> nth_error l i = Some a -> nth_error l j = Some b ->
  zorder a <= zorder b.
Proof.
  intros S. revert i j. induction S as [|x l S IH F]; intros i j Hij Hi Hj.
  - destruct i; discriminate.
  - destruct j as [|j]; [lia|]. simpl in Hj. destruct i as [|i].
    + simpl in Hi. inversion Hi; subst.
      apply (proj1 (List.Forall_forall _ _) F). eapply nth_error_In; eauto.
    + simpl in Hi. apply (IH i j); [lia|assumption|assumption].
Qed.

(** X6: after any sequence of z-order writes, pad requests and pad releases
    the child proxy is consistent: there is a child at an index exactly when
    the index is below the children count, and the children are enumerated by
    ascending z-order. *)
Theorem children_are_indexed (mix : GstBasemixer) (ops : list PadOp) :
  pads_inv mix ->
  Forall op_in_range ops ->
  Z.of_nat (List.length (sinkpads mix)) + Z.of_nat (List.length ops) < 2 ^ 31 ->
  let mix' := fold_left (apply_pad_op gst_videomixer2_class) ops mix in
  (forall i, 0 <= i ->
     (gst_basemixer_child_proxy_get_child_by_index mix' i <> None
      <-> i < gst_basemixer_child_proxy_get_children_count mix'))
  /\ (forall i j a b, 0 <= i < j ->
        gst_basemixer_child_proxy_get_child_by_index mix' i = Some a ->
        gst_basemixer_child_proxy_get_child_by_index mix' j = Some b ->
        zorder a <= zorder b).
Proof.
  intros Hinv Hops Hlen mix'.
  destruct (run_pad_ops_inv ops mix Hinv Hops Hlen) as [Hs [_ Hn]].
  fold mix' in Hs, Hn.
  unfold gst_basemixer_child_proxy_get_child_by_index,
    gst_basemixer_child_proxy_get_children_count, g_slist_nth_data.
  split.
  - intros i Hi. rewrite Hn, nth_error_Some. lia.
  - intros i j a b Hij Ha Hb.
    apply (zsorted_nth (sinkpads mix') (Z.to_nat i) (Z.to_nat j)); auto. lia.
Qed.

(** * Further properties of the negotiation *)

(** X7: when no sink pad has a geometry (every pad has width 0 or height 0,
    or there is no pad), [gst_basemixer_update_src_caps] succeeds without
    touching the mixer: no caps are built, asked for or set. *)
Theorem update_src_caps_without_geometry (klass : GstBasemixerClass)
    (mix : GstBasemixer) :
  (forall p, In p (sinkpads mix) -> ~ contributes p) ->
  gst_basemixer_update_src_caps klass mix = (mix, true).
Proof.
  intros Hnone. unfold gst_basemixer_update_src_caps. cbv zeta.
  assert (Hw : best_width (update_src_caps_best mix) = -1).
  { unfold update_src_caps_best, update_src_caps_default.
    destruct (width_attained _ _ (update_src_caps_scan_facts (sinkpads mix)))
      as [Hw|[p [Hp [Hc _]]]]; [|exfalso; exact (Hnone p Hp Hc)].
    destruct (_ || _); simpl; exact Hw. }
  rewrite Hw. reflexivity.
Qed.

(** A value in the range of [gint] is its own [gint]. *)
Lemma s32_small (z : Z) : - G_MAXINT - 1 <= z <= G_MAXINT -> s32 z = z.
Proof.
  unfold G_MAXINT, s32, u32. intros H.
  change (2 ^ 31) with 2147483648 in *. change (2 ^ 32) with 4294967296.
  destruct (Z.neg_nonneg_cases z) as [Hz|Hz].
  - rewrite <- (Z.mod_add z 1 4294967296) by lia.
    rewrite Z.mod_small by lia.
    destruct (z + 1 * 4294967296 <? 2147483648) eqn:E;
      [apply Z.ltb_lt in E|apply Z.ltb_ge in E]; lia.
  - rewrite Z.mod_small by lia.
    destruct (z <? 2147483648) eqn:E; [apply Z.ltb_lt in E|apply Z.ltb_ge in E]; lia.
Qed.

(** The right and the bottom edge of a pad placed at its position, seen from
    the origin. *)
Definition right_edge (p : GstBasemixerPad) : Z := width (pad_info p) + Z.max (xpos p) 0.
Definition bottom_edge (p : GstBasemixerPad) : Z := height (pad_info p) + Z.max (ypos p) 0.

(** The edges of the pad are in the range of [gint]. *)
Definition edges_in_range (p : GstBasemixerPad) : Prop :=
  - G_MAXINT - 1 <= right_edge p <= G_MAXINT
  /\ - G_MAXINT - 1 <= bottom_edge p <= G_MAXINT.

(** What the scan of [gst_videomixer2_modify_src_pad_info] has found after
    the pads [pads]. *)
Record box_facts (pads : list GstBasemixerPad) (best : Z * Z) : Prop := {
  box_width_upper :
    forall p, In p pads -> contributes p -> right_edge p <= fst best;
  box_width_attained :
    fst best = -1
    \/ exists p, In p pads /\ contributes p /\ fst best = right_edge p;
  box_height_upper :
    forall p, In p pads -> contributes p -> bottom_edge p <= snd best;
  box_height_attained :
    snd best = -1
    \/ exists p, In p pads /\ contributes p /\ snd best = bottom_edge p
}.

Lemma box_facts_step (pads : list GstBasemixerPad) (best : Z * Z) (x : GstBasemixerPad) :
  (contributes x -> edges_in_range x) ->
  box_facts pads best -> box_facts (pads ++ [x]) (modify_scan_pad best x).
Proof.
  intros Hr [W1 W2 H1 H2]. unfold modify_scan_pad.
  destruct ((width (pad_info x) =? 0) || (height (pad_info x) =? 0)) eqn:E.
  - apply orb_true_iff in E.
    assert (Hx : ~ contributes x).
    { intros [Hw Hh]. destruct E as [E|E]; apply Z.eqb_eq in E; contradiction. }
    constructor.
    + intros p Hp Hc. apply in_app_or in Hp. destruct Hp as [Hp|[<-|[]]]; auto.
      contradiction.
    + destruct W2 as [W2|[p [Hp Hc]]]; [left; exact W2|right].
      exists p. split; [apply in_or_app; auto|exact Hc].
    + intros p Hp Hc. apply in_app_or in Hp. destruct Hp as [Hp|[<-|[]]]; auto.
      contradiction.
    + destruct H2 as [H2|[p [Hp Hc]]]; [left; exact H2|right].
      exists p. split; [apply in_or_app; auto|exact Hc].
  - apply orb_false_iff in E. destruct E as [Ew Eh].
    apply Z.eqb_neq in Ew, Eh.
    assert (Hx : contributes x) by (split; assumption).
    destruct (Hr Hx) as [Rw Rh].
    assert (Xw : s32 (width (pad_info x) + (if xpos x >? 0 then xpos x else 0))
                 = right_edge x).
    { replace (if xpos x >? 0 then xpos x else 0) with (Z.max (xpos x) 0).
      - apply s32_small, Rw.
      - destruct (xpos x >? 0) eqn:G; [apply Z.gtb_lt in G|rewrite Z.gtb_ltb in G;
          apply Z.ltb_ge in G]; lia. }
    assert (Xh : s32 (height (pad_info x) + (if ypos x >? 0 then ypos x else 0))
                 = bottom_edge x).
    { replace (if ypos x >? 0 then ypos x else 0) with (Z.max (ypos x) 0).
      - apply s32_small, Rh.
      - destruct (ypos x >? 0) eqn:G; [apply Z.gtb_lt in G|rewrite Z.gtb_ltb in G;
          apply Z.ltb_ge in G]; lia. }
    rewrite Xw, Xh.
    constructor; simpl.
    + intros p Hp Hc. apply in_app_or in Hp.
      destruct (fst best <? _) eqn:G;
        [apply Z.ltb_lt in G|apply Z.ltb_ge in G];
        destruct Hp as [Hp|[<-|[]]]; try lia; specialize (W1 p Hp Hc); lia.
    + destruct (fst best <? _) eqn:G.
      * right. exists x. split; [apply in_or_app; right; left; reflexivity|].
        split; [exact Hx|reflexivity].
      * destruct W2 as [W2|[p [Hp Hc]]]; [left; exact W2|right].
        exists p. split; [apply in_or_app; auto|exact Hc].
    + intros p Hp Hc. apply in_app_or in Hp.
      destruct (snd best <? _) eqn:G;
        [apply Z.ltb_lt in G|apply Z.ltb_ge in G];
        destruct Hp as [Hp|[<-|[]]]; try lia; specialize (H1 p Hp Hc); lia.
    + destruct (snd best <? _) eqn:G.
      * right. exists x. split; [apply in_or_app; right; left; reflexivity|].
        split; [exact Hx|reflexivity].
      * destruct H2 as [H2|[p [Hp Hc]]]; [left; exact H2|right].
        exists p. split; [apply in_or_app; auto|exact Hc].
Qed.

Lemma box_facts_fold (l pads : list GstBasemixerPad) (best : Z * Z) :
  (forall p, In p l -> contributes p -> edges_in_range p) ->
  box_facts pads best -> box_facts (pads ++ l) (fold_left modify_scan_pad l best).
Proof.
  revert pads best. induction l as [|x l IH]; intros pads best Hr H.
  - rewrite app_nil_r. exact H.
  - simpl. replace (pads ++ x :: l) with ((pads ++ [x]) ++ l)
      by (rewrite <- app_assoc; reflexivity).
    apply IH; [intros p Hp; apply Hr; right; exact Hp|].
    apply box_facts_step; [apply Hr; left; reflexivity|exact H].
Qed.

Lemma box_facts_scan (pads : list GstBasemixerPad) :
  (forall p, In p pads -> contributes p -> edges_in_range p) ->
  box_facts pads (fold_left modify_scan_pad pads (-1, -1)).
Proof.
  intros Hr. apply (box_facts_fold pads [] (-1, -1) Hr).
  constructor; simpl; auto; intros p [].
Qed.

(** X8: as long as no pad with a geometry has its right or bottom edge,
    [width + MAX (xpos, 0)] and [height + MAX (ypos, 0)], outside the range of
    [gint]: when the hook of the positioned mixer accepts, the output frame it
    proposes is the bounding box of the inputs placed at their positions,
    anchored at the origin: its width is the largest right edge over the pads
    with a geometry and its height the largest bottom edge, so a pad moved to
    the left of or above the origin does not enlarge the output; the hook
    refuses when no pad has a geometry. *)
Theorem videomixer2_output_is_bounding_box (mix : GstBasemixer) (info : GstVideoInfo) :
  (forall p, In p (sinkpads mix) -> contributes p -> edges_in_range p) ->
  let '(mix', info', ok) := gst_videomixer2_modify_src_pad_info mix info in
  (ok = true ->
     (forall p, In p (sinkpads mix) -> contributes p ->
        width (pad_info p) + Z.max (xpos p) 0 <= width info'
        /\ height (pad_info p) + Z.max (ypos p) 0 <= height info')
     /\ (exists p, In p (sinkpads mix) /\ contributes p
                   /\ width info' = width (pad_info p) + Z.max (xpos p) 0)
     /\ (exists p, In p (sinkpads mix) /\ contributes p
                   /\ height info' = height (pad_info p) + Z.max (ypos p) 0))
  /\ ((forall p, In p (sinkpads mix) -> ~ contributes p) ->
      ok = false /\ info' = info /\ mix' = mix).
Proof.
  intros Hr. unfold gst_videomixer2_modify_src_pad_info.
  destruct (box_facts_scan (sinkpads mix) Hr) as [W1 W2 H1 H2].
  destruct (fold_left modify_scan_pad (sinkpads mix) (-1, -1)) as [bw bh].
  simpl in W1, W2, H1, H2. unfold right_edge, bottom_edge in *.
  destruct ((bw >? 0) && (bh >? 0)) eqn:E.
  - apply andb_true_iff in E. destruct E as [Ew Eh].
    apply Z.gtb_lt in Ew, Eh.
    destruct (set_functions mix _) as [m ret] eqn:F. split.
    + intros _. split; [|split].
      * intros p Hp Hc. simpl. split; auto.
      * destruct W2 as [W2|W2]; [lia|exact W2].
      * destruct H2 as [H2|H2]; [lia|exact H2].
    + intros Hnone. exfalso.
      destruct W2 as [W2|[p [Hp [Hc _]]]]; [lia|exact (Hnone p Hp Hc)].
  - split; [discriminate|]. intros _. auto.
Qed.

(** A pad takes part in the election when its format is known and its caps,
    without the geometry, are compatible with what downstream allows. *)
Definition eligible (ds : GstCaps) (pad : GstBasemixerPad) : bool :=
  match finfo (pad_info pad) with
  | Some fi =>
      negb (format_eqb (format fi) GST_VIDEO_FORMAT_UNKNOWN)
      && gst_caps_can_intersect ds
           (caps_remove_geometry_fields (gst_video_info_to_caps (pad_info pad)))
  | None => false
  end.

(** Once the election needs alpha, the format it holds has alpha. *)
Definition alpha_kept (e : Election) : Prop :=
  need_alpha e = true ->
  info_has_alpha (best_info e) = true
  /\ format_eqb (best_format e) GST_VIDEO_FORMAT_UNKNOWN = false.

Lemma elect_pad_alpha_kept (ds : GstCaps) (e : Election) (pad : GstBasemixerPad) :
  alpha_kept e ->
  alpha_kept (elect_pad ds e pad)
  /\ (need_alpha e = true -> need_alpha (elect_pad ds e pad) = true)
  /\ (eligible ds pad = true -> info_has_alpha (pad_info pad) = true ->
      need_alpha (elect_pad ds e pad) = true).
Proof.
  intros Hk. unfold elect_pad, eligible, info_has_alpha, alpha_kept in *.
  destruct (finfo (pad_info pad)) as [fi|] eqn:Efi;
    [|split; [exact Hk|split; [auto|discriminate]]].
  destruct (need_alpha e) eqn:En; destruct (has_alpha_flag fi) eqn:Ea;
    destruct (format_eqb (format fi) GST_VIDEO_FORMAT_UNKNOWN) eqn:Ef;
    destruct (gst_caps_can_intersect ds
                (caps_remove_geometry_fields (gst_video_info_to_caps (pad_info pad))))
      eqn:Ec;
    cbn [andb negb orb];
    try destruct (_ >? _);
    cbn [need_alpha best_info best_format];
    rewrite ?Efi, ?En, ?Ea, ?Ef;
    (split; [|split]); intros; try discriminate; try reflexivity; auto.
  all: unfold info_has_alpha; rewrite Efi; auto.
Qed.

Lemma election_alpha_kept (ds : GstCaps) (pads : list GstBasemixerPad) (e : Election) :
  alpha_kept e ->
  need_alpha e = true
  \/ (exists pad, In pad pads /\ eligible ds pad = true
                  /\ info_has_alpha (pad_info pad) = true) ->
  alpha_kept (fold_left (elect_pad ds) pads e)
  /\ need_alpha (fold_left (elect_pad ds) pads e) = true.
Proof.
  revert e. induction pads as [|p tl IH]; intros e Hk H.
  - simpl. destruct H as [H|[pad [[] _]]]. auto.
  - simpl. destruct (elect_pad_alpha_kept ds e p Hk) as [K1 [K2 K3]].
    apply IH; [exact K1|].
    destruct H as [H|[pad [[<-|Hin] [He Ha]]]]; [left; auto|left; auto|].
    right. exists pad. auto.
Qed.

(** X9: when some sink pad with an alpha format takes part in the election
    (its format is known and downstream can take it), the elected format has
    an alpha channel, so [gst_basemixer_update_converters] does not fail for
    want of alpha: it posts no negotiation error and installs the elected
    info. *)
Theorem eligible_alpha_pad_elects_alpha (klass : GstBasemixerClass)
    (mix : GstBasemixer) (ds : GstCaps) :
  allowed_downstream_caps klass mix = Some ds ->
  gst_caps_is_empty ds = false ->
  (exists pad, In pad (sinkpads mix) /\ eligible ds pad = true
               /\ info_has_alpha (pad_info pad) = true) ->
  info_has_alpha (fst (elect_format ds (sinkpads mix))) = true
  /\ snd (fst (gst_basemixer_update_converters klass mix)) = []
  /\ mix_info (fst (fst (gst_basemixer_update_converters klass mix)))
     = fst (elect_format ds (sinkpads mix)).
Proof.
  intros Hds Hne Hpad.
  assert (Ha : info_has_alpha (fst (elect_format ds (sinkpads mix))) = true).
  { unfold elect_format. cbv zeta.
    destruct (election_alpha_kept ds (sinkpads mix) election_init) as [Hk Hn].
    - intros H. discriminate.
    - right. exact Hpad.
    - destruct (Hk Hn) as [H1 H2]. rewrite H2. exact H1. }
  split; [exact Ha|].
  unfold gst_basemixer_update_converters. rewrite Hds, Hne.
  destruct (elect_format ds (sinkpads mix)) as [best one_alpha]. simpl in Ha.
  rewrite Ha, andb_false_r. simpl.
  destruct (update_converters_pads best (sinkpads mix)) as [pads ok].
  split; reflexivity.
Qed.

(** Whether the second loop of [gst_basemixer_update_converters] finds that a
    pad differs from the elected output: in format, in colorimetry or in
    chroma siting. *)
Definition needs_conversion (best : GstVideoInfo) (pad : GstBasemixerPad) : bool :=
  negb (format_eqb (GST_VIDEO_INFO_FORMAT best) (GST_VIDEO_INFO_FORMAT (pad_info pad)))
  || g_strcmp0 (gst_video_colorimetry_to_string (colorimetry (pad_info pad)))
       (gst_video_colorimetry_to_string (colorimetry best))
  || g_strcmp0 (gst_video_chroma_to_string (chroma_site (pad_info pad)))
       (gst_video_chroma_to_string (chroma_site best)).

(** A pad whose format is set and known. *)
Definition format_known (pad : GstBasemixerPad) : bool :=
  match finfo (pad_info pad) with
  | Some fi => negb (format_eqb (format fi) GST_VIDEO_FORMAT_UNKNOWN)
  | None => false
  end.

(** What the second loop leaves of a pad it went through. *)
Definition converter_set (best : GstVideoInfo) (p p' : GstBasemixerPad) : Prop :=
  pad_name p' = pad_name p /\ pad_info p' = pad_info p
  /\ pad_buffer p' = pad_buffer p /\ queued p' = queued p
  /\ if format_known p then
       convert p'
       = (if needs_conversion best p
          then videoconvert_convert_new (pad_info p) best else None)
       /\ (needs_conversion best p = true ->
           convert p' <> None /\ need_conversion_update p' = true)
     else p' = p.

Lemma update_converters_pads_ok (best : GstVideoInfo) (pads pads' : list GstBasemixerPad) :
  update_converters_pads best pads = (pads', true) ->
  Forall2 (converter_set best) pads pads'.
Proof.
  revert pads'. induction pads as [|p tl IH]; intros pads' H.
  - simpl in H. inversion H. constructor.
  - simpl in H. unfold converter_set, format_known, needs_conversion, GST_VIDEO_INFO_FORMAT.
    destruct (update_converters_pads best tl) as [tl' ok] eqn:Etl.
    destruct (finfo (pad_info p)) as [fi|] eqn:Efi.
    + destruct (format_eqb (format fi) GST_VIDEO_FORMAT_UNKNOWN) eqn:Ef.
      * inversion H; subst. constructor; [|apply IH; reflexivity].
        rewrite Efi, Ef. simpl. auto.
      * cbn [pad_info set_convert colorimetry chroma_site] in H.
        destruct (negb (format_eqb _ (format fi)) || _ || _) eqn:En.
        -- destruct (videoconvert_convert_new (pad_info p) best) as [c|] eqn:Ec;
             [|inversion H].
           inversion H; subst. constructor; [|apply IH; reflexivity].
           unfold GST_VIDEO_INFO_FORMAT in En.
           rewrite Efi, Ef. cbn [negb]. rewrite En, Ec. simpl.
           repeat split; auto; discriminate.
        -- inversion H; subst. constructor; [|apply IH; reflexivity].
           unfold GST_VIDEO_INFO_FORMAT in En.
           rewrite Efi, Ef. cbn [negb]. rewrite En. simpl.
           repeat split; auto; discriminate.
    + inversion H; subst. constructor; [|apply IH; reflexivity].
      rewrite Efi. auto.
Qed.

(** X10: when [gst_basemixer_update_converters] succeeds, the output info is
    the info it elected and every pad with a known format has a converter
    exactly when its format, colorimetry or chroma siting differs from the
    output's; the converter is the one made from the pad's info to the output
    info and is flagged for a conversion update.  Names, infos and buffers of
    the pads are untouched. *)
Theorem converters_match_the_output (klass : GstBasemixerClass)
    (mix mix' : GstBasemixer) (eff : list Effect) :
  gst_basemixer_update_converters klass mix = (mix', eff, true) ->
  eff = []
  /\ (exists ds, allowed_downstream_caps klass mix = Some ds
                 /\ mix_info mix' = fst (elect_format ds (sinkpads mix)))
  /\ Forall2 (converter_set (mix_info mix')) (sinkpads mix) (sinkpads mix').
Proof.
  unfold gst_basemixer_update_converters.
  destruct (allowed_downstream_caps klass mix) as [ds|]; [|discriminate].
  destruct (gst_caps_is_empty ds); [discriminate|].
  destruct (elect_format ds (sinkpads mix)) as [best one_alpha] eqn:Eel.
  destruct (one_alpha && negb (info_has_alpha best)); [discriminate|].
  cbn [sinkpads set_mix_info].
  destruct (update_converters_pads best (sinkpads mix)) as [pads ok] eqn:E.
  intros H. inversion H; subst. split; [reflexivity|]. split.
  - exists ds. split; [reflexivity|]. rewrite Eel. reflexivity.
  - simpl. apply update_converters_pads_ok. exact E.
Qed.

(** * Further properties of the output caps *)

Lemma src_setcaps_settled (m : GstBasemixer) (caps c : GstCaps) (info : GstVideoInfo) :
  gst_video_info_from_caps caps = Some info ->
  mix_info m = info -> current_caps m = Some c -> gst_caps_is_equal caps c = true ->
  gst_basemixer_src_setcaps m caps = (m, true).
Proof.
  intros Hp Hi Hc He. unfold gst_basemixer_src_setcaps. rewrite Hp, Hi.
  rewrite !Z.eqb_refl. cbn [negb orb].
  replace (set_mix_info m info) with m by (destruct m; simpl in *; subst; reflexivity).
  rewrite Hc, He. reflexivity.
Qed.

(** X11: setting the same source caps a second time changes nothing: the
    cadence and the QoS state are kept and the caps are not marked for being
    sent again. *)
Theorem src_setcaps_twice (mix : GstBasemixer) (caps : GstCaps) :
  gst_video_info_from_caps caps <> None ->
  gst_caps_is_equal caps caps = true ->
  let m1 := fst (gst_basemixer_src_setcaps mix caps) in
  gst_basemixer_src_setcaps m1 caps = (m1, true).
Proof.
  intros Hparse Heq m1.
  destruct (gst_video_info_from_caps caps) as [info|] eqn:Hp; [|contradiction].
  assert (H : mix_info m1 = info
              /\ exists c, current_caps m1 = Some c /\ gst_caps_is_equal caps c = true).
  { unfold m1, gst_basemixer_src_setcaps. rewrite Hp. cbv zeta.
    set (m0 := if negb (fps_n (mix_info mix) =? fps_n info)
                  || negb (fps_d (mix_info mix) =? fps_d info)
               then gst_basemixer_reset_qos (reanchor_cadence mix) else mix).
    destruct (current_caps (set_mix_info m0 info)) as [cur|] eqn:Ecur.
    - destruct (gst_caps_is_equal caps cur) eqn:Ecc; simpl.
      + split; [reflexivity|]. exists cur. split; [exact Ecur|exact Ecc].
      + split; [reflexivity|]. exists caps. split; [reflexivity|exact Heq].
    - simpl. split; [reflexivity|]. exists caps. split; [reflexivity|exact Heq]. }
  destruct H as [Hi [c [Hc He]]].
  exact (src_setcaps_settled m1 caps c info Hp Hi Hc He).
Qed.

Lemma reset_qos_eq (m : GstBasemixer) :
  gst_basemixer_reset_qos m
  = set_qos_stats (set_qos_observation m d_half GST_CLOCK_TIME_NONE) 0 0.
Proof. reflexivity. Qed.

(** X12: source caps with another framerate, set while the output has a
    position, re-anchor the cadence at that position: the next output frame
    starts where the last one ended and lasts one frame of the new framerate
    (rounded to the nearest nanosecond), and the QoS state is reset. *)
Theorem framerate_change_reanchors (mix : GstBasemixer) (caps : GstCaps)
    (info : GstVideoInfo) :
  let seg := segment (agg mix) in
  gst_video_info_from_caps caps = Some info ->
  fps_n (mix_info mix) <> fps_n info \/ fps_d (mix_info mix) <> fps_d info ->
  position seg <> GST_CLOCK_TIME_NONE ->
  0 <= start seg <= position seg ->
  0 < fps_n info <= G_MAXINT -> 0 < fps_d info <= G_MAXINT ->
  position seg + GST_SECOND * fps_d info < G_MAXUINT64 ->
  let m1 := fst (gst_basemixer_src_setcaps mix caps) in
  ts_offset m1 = position seg - start seg
  /\ nframes m1 = 0
  /\ output_start_time_of m1 = position seg
  /\ cadence_end m1
     = position seg + (GST_SECOND * fps_d info + fps_n info / 2) / fps_n info
  /\ (stop seg = GST_CLOCK_TIME_NONE -> output_end_time_of m1 = cadence_end m1)
  /\ earliest_time m1 = GST_CLOCK_TIME_NONE
  /\ qos_processed m1 = 0 /\ qos_dropped m1 = 0.
Proof.
  intros seg Hp Hfps Hpos Hstart Hn Hd Hbound m1.
  unfold G_MAXINT, G_MAXUINT64, GST_SECOND in *.
  change (2 ^ 31 - 1) with 2147483647 in *.
  change (2 ^ 64 - 1) with 18446744073709551615 in *.
  assert (Hdiff : negb (fps_n (mix_info mix) =? fps_n info)
                  || negb (fps_d (mix_info mix) =? fps_d info) = true).
  { apply orb_true_iff. destruct Hfps as [H|H]; [left|right];
      apply negb_true_iff, Z.eqb_neq; exact H. }
  assert (Hposb : negb (position seg =? GST_CLOCK_TIME_NONE) = true).
  { apply negb_true_iff, Z.eqb_neq. exact Hpos. }
  assert (Hm1 : m1 = fst (let m := set_mix_info
                                     (gst_basemixer_reset_qos
                                        (set_cadence mix (u64 (position seg - start seg)) 0))
                                     info in
                          (match current_caps m with
                           | None => set_caps m (Some caps) true
                           | Some cur =>
                               if negb (gst_caps_is_equal caps cur)
                               then set_caps m (Some caps) true else m
                           end, true))).
  { unfold m1, gst_basemixer_src_setcaps. rewrite Hp. cbv zeta. rewrite Hdiff.
    unfold reanchor_cadence. fold seg. rewrite Hposb. reflexivity. }
  assert (Hoff : u64 (position seg - start seg) = position seg - start seg).
  { apply u64_small. change (2 ^ 64) with 18446744073709551616. lia. }
  assert (Hfields :
            ts_offset m1 = u64 (position seg - start seg) /\ nframes m1 = 0
            /\ segment (agg m1) = seg /\ mix_info m1 = info
            /\ earliest_time m1 = GST_CLOCK_TIME_NONE
            /\ qos_processed m1 = 0 /\ qos_dropped m1 = 0).
  { rewrite Hm1. cbv zeta. rewrite reset_qos_eq.
    repeat break_match; simpl; repeat split; reflexivity. }
  destruct Hfields as [F1 [F2 [F3 [F4 [F5 [F6 F7]]]]]].
  rewrite Hoff in F1.
  assert (Hce : cadence_end m1
                = position seg
                  + (1000000000 * fps_d info + fps_n info / 2) / fps_n info).
  { unfold cadence_end. rewrite F1, F2, F3, F4. fold seg. unfold GST_SECOND.
    change (u64 (0 + 1)) with 1.
    rewrite (u64_small (1000000000 * fps_d info))
      by (change (2 ^ 64) with 18446744073709551616; lia).
    rewrite (u64_small (fps_n info))
      by (change (2 ^ 64) with 18446744073709551616; lia).
    rewrite scale_round_cadence;
      [|lia|lia|lia|unfold G_MAXUINT64;
        change (2 ^ 64 - 1) with 18446744073709551615; lia].
    rewrite Z.mul_1_l.
    pose proof (rounded_div_le (1000000000 * fps_d info) (fps_n info)
                  ltac:(lia) ltac:(lia)) as Hle.
    pose proof (rounded_div_nonneg (1000000000 * fps_d info) (fps_n info)
                  ltac:(lia) ltac:(lia)) as Hge.
    rewrite u64_small; [lia|]. change (2 ^ 64) with 18446744073709551616. lia. }
  split; [exact F1|]. split; [exact F2|]. split.
  - unfold output_start_time_of. rewrite F3. fold seg.
    apply negb_true_iff in Hposb. rewrite Hposb. reflexivity.
  - split; [exact Hce|]. split; [|auto].
    intros Hstop. unfold output_end_time_of. rewrite F3. fold seg.
    rewrite Hstop. reflexivity.
Qed.

(** * Further properties of the queue filler and of the tick *)

(** A pad whose pending buffer has no timestamp. *)
Definition untimestamped (pad : GstBasemixerPad) : Prop :=
  exists buf, gst_base_aggregator_pad_get_buffer (bpad pad) = Some buf
              /\ GST_BUFFER_TIMESTAMP buf = GST_CLOCK_TIME_NONE.

Lemma fill_queues_pad_error (r : gdouble) (os oe : Z) (pad : GstBasemixerPad) :
  fill_queues_pad r os oe pad = PadError <-> untimestamped pad.
Proof.
  unfold fill_queues_pad, untimestamped. cbv zeta.
  destruct (gst_base_aggregator_pad_get_buffer (bpad pad)) as [buf|].
  - destruct (GST_BUFFER_TIMESTAMP buf =? GST_CLOCK_TIME_NONE) eqn:E.
    + apply Z.eqb_eq in E. split; [intros _; eauto|reflexivity].
    + apply Z.eqb_neq in E. split.
      * repeat break_match; discriminate.
      * intros [b [Hb Ht]]. inversion Hb; subst. contradiction.
  - split.
    + repeat break_match; discriminate.
    + intros [b [Hb _]]. discriminate.
Qed.

Lemma fill_queues_loop_error (r : gdouble) (os oe : Z) (pads pads' : list GstBasemixerPad)
    (eos more : bool) (res : option (bool * bool)) :
  fill_queues_loop r os oe pads eos more = Some (pads', res) ->
  (res = None <-> exists pad, In pad pads /\ untimestamped pad).
Proof.
  revert pads' eos more. induction pads as [|p tl IH]; intros pads' eos more H.
  - simpl in H. inversion H; subst. split; [discriminate|intros [pad [[] _]]].
  - simpl in H. destruct (fill_queues_pad r os oe p) as [| |p' m c] eqn:Ep.
    + inversion H; subst. split; [intros _|reflexivity].
      exists p. split; [left; reflexivity|]. apply fill_queues_pad_error in Ep. exact Ep.
    + discriminate.
    + destruct (fill_queues_loop r os oe tl _ _) as [[tl' res']|] eqn:El; [|discriminate].
      inversion H; subst. rewrite (IH _ _ _ El). split.
      * intros [pad [Hin Hu]]. exists pad. split; [right; exact Hin|exact Hu].
      * intros [pad [[<-|Hin] Hu]]; [|eauto].
        apply (fill_queues_pad_error r os oe) in Hu. rewrite Hu in Ep. discriminate.
Qed.

Lemma fill_queues_answers (mix m1 : GstBasemixer) (os oe r : Z) :
  gst_basemixer_fill_queues mix os oe = Some (m1, r) ->
  r = -2 \/ r = 0 \/ r = -1 \/ r = 1.
Proof.
  unfold gst_basemixer_fill_queues.
  destruct (fill_queues_loop _ os oe (sinkpads mix) true false) as [[pads res]|];
    [|discriminate].
  destruct res as [[eos more]|]; intros H; inversion H; subst; [|auto].
  destruct more; [auto|destruct eos; auto].
Qed.

(** X13: when the queue filler returns, it returns -2 (error) exactly when
    some sink pad holds a pending buffer without a timestamp; its other
    answers are 0, -1 and 1. *)
Theorem untimestamped_buffer_is_an_error (mix m1 : GstBasemixer) (os oe r : Z) :
  gst_basemixer_fill_queues mix os oe = Some (m1, r) ->
  (r = -2 <-> exists pad, In pad (sinkpads mix) /\ untimestamped pad)
  /\ (r = -2 \/ r = 0 \/ r = -1 \/ r = 1).
Proof.
  intros Hfill. split; [|exact (fill_queues_answers _ _ _ _ _ Hfill)].
  revert Hfill. unfold gst_basemixer_fill_queues.
  destruct (fill_queues_loop _ os oe (sinkpads mix) true false) as [[pads res]|] eqn:E;
    [|discriminate].
  pose proof (fill_queues_loop_error _ _ _ _ _ _ _ _ E) as Hiff.
  destruct res as [[eos more]|]; intros H; inversion H; subst.
  - rewrite <- Hiff. split; [|discriminate].
    destruct more; [discriminate|destruct eos; discriminate].
  - rewrite <- Hiff. split; reflexivity.
Qed.

(** A pad with nothing pending and no current buffer. *)
Definition idle (pad : GstBasemixerPad) : Prop :=
  gst_base_aggregator_pad_get_buffer (bpad pad) = None
  /\ end_time pad = GST_CLOCK_TIME_NONE.

Lemma fill_queues_loop_idle (r : gdouble) (os oe : Z) (pads : list GstBasemixerPad)
    (eos more : bool) :
  Forall idle pads ->
  fill_queues_loop r os oe pads eos more = Some (pads, Some (eos, more)).
Proof.
  intros H. revert eos more. induction H as [|p tl [Hb He] _ IH]; intros eos more.
  - reflexivity.
  - simpl. unfold fill_queues_pad. cbv zeta. rewrite Hb, He.
    change (negb (GST_CLOCK_TIME_NONE =? GST_CLOCK_TIME_NONE)) with false.
    cbv iota. rewrite IH. reflexivity.
Qed.

Lemma set_pads_same (m : GstBasemixer) : set_pads m (sinkpads m) = m.
Proof. destruct m; reflexivity. Qed.

(** X14: a tick of a negotiated mixer whose sink pads all have nothing
    pending and no current buffer, and in particular of a mixer without sink
    pads, is the end of the stream: after the caps announcement and the
    pending tags it pushes the EOS event and returns [GST_FLOW_EOS], and the
    cadence does not move. *)
Theorem idle_mixer_is_eos (klass : GstBasemixerClass) (mix m0 : GstBasemixer)
    (eff_caps : list Effect) :
  format_eqb (GST_VIDEO_INFO_FORMAT (mix_info mix)) GST_VIDEO_FORMAT_UNKNOWN = false ->
  aggregate_prepare klass mix = (m0, eff_caps) ->
  Forall idle (sinkpads m0) ->
  gst_basemixer_aggregate klass mix
  = Some (set_pending_tags m0 None,
          eff_caps ++ tags_effect m0 ++ [PushEosEvent], GST_FLOW_EOS).
Proof.
  intros Hf Hp Hidle.
  rewrite (gst_basemixer_aggregate_unfold klass mix m0 eff_caps Hf Hp).
  rewrite aggregate_locked_unfold.
  unfold gst_basemixer_fill_queues.
  rewrite (fill_queues_loop_idle _ _ _ _ true false Hidle).
  cbv iota beta zeta. change (-1 =? 0) with false. change (-1 =? -1) with true.
  cbv iota. simpl sinkpads.
  replace (set_pads (set_pending_tags m0 None) (sinkpads m0))
    with (set_pending_tags m0 None) by (destruct m0; reflexivity).
  reflexivity.
Qed.

(** X15: a tick of a negotiated mixer whose queue filler does not answer OK
    produces no frame and does not move the cadence: the output segment, the
    frame count, the time offset and the QoS counts are as they were when the
    lock was taken.  It sends the caps announcement and the pending tags,
    followed by the EOS event when the answer is -1, and returns
    [GST_FLOW_OK] for the answer 0 (need more data), [GST_FLOW_EOS] for -1 and
    [GST_FLOW_ERROR] for -2. *)
Theorem tick_without_frame (klass : GstBasemixerClass) (mix m0 mix' : GstBasemixer)
    (eff_caps eff : list Effect) (ret : GstFlowReturn) (r : Z) :
  format_eqb (GST_VIDEO_INFO_FORMAT (mix_info mix)) GST_VIDEO_FORMAT_UNKNOWN = false ->
  aggregate_prepare klass mix = (m0, eff_caps) ->
  fill_answer m0 = Some r -> r <> 1 ->
  gst_basemixer_aggregate klass mix = Some (mix', eff, ret) ->
  agg mix' = agg m0 /\ nframes mix' = nframes m0 /\ ts_offset mix' = ts_offset m0
  /\ qos_processed mix' = qos_processed m0 /\ qos_dropped mix' = qos_dropped m0
  /\ pending_tags mix' = None
  /\ eff = eff_caps ++ tags_effect m0 ++ (if r =? -1 then [PushEosEvent] else [])
  /\ ret = (if r =? 0 then GST_FLOW_OK
            else if r =? -1 then GST_FLOW_EOS else GST_FLOW_ERROR).
Proof.
  intros Hf Hp Hfill Hr.
  rewrite (gst_basemixer_aggregate_unfold klass mix m0 eff_caps Hf Hp).
  rewrite aggregate_locked_unfold.
  unfold fill_answer in Hfill.
  destruct (gst_basemixer_fill_queues m0 _ _) as [[m1 r']|] eqn:E; [|discriminate].
  simpl in Hfill. inversion Hfill; subst r'.
  destruct (fill_queues_answers _ _ _ _ _ E) as [-> |[-> |[-> | ->]]]; [| | |contradiction];
    cbv zeta; simpl; intros H; inversion H; subst; simpl;
    rewrite ?app_nil_r; repeat split; reflexivity.
Qed.

(** What the queue filler may do to a pad, for the output frame from [os] to
    [oe]: leave its current buffer and times alone; drop the current buffer
    of a pad without input once it has ended at or before [os]; or make a
    buffer current that overlaps the output frame and does not end before the
    buffer it replaces. *)
Definition fill_step (os oe : Z) (p p' : GstBasemixerPad) : Prop :=
  pad_name p' = pad_name p /\ zorder p' = zorder p /\ pad_info p' = pad_info p
  /\ bpad p' = bpad p
  /\ ((pad_buffer p' = pad_buffer p /\ start_time p' = start_time p
       /\ end_time p' = end_time p)
      \/ (pad_buffer p' = None /\ start_time p' = GST_CLOCK_TIME_NONE
          /\ end_time p' = GST_CLOCK_TIME_NONE
          /\ gst_base_aggregator_pad_get_buffer (bpad p) = None
          /\ end_time p <> GST_CLOCK_TIME_NONE /\ end_time p <= os)
      \/ (exists cb, pad_buffer p' = Some cb
                     /\ os <= end_time p' /\ start_time p' < oe
                     /\ (end_time p = GST_CLOCK_TIME_NONE
                         \/ end_time p <= end_time p'))).

Lemma fill_step_refl (os oe : Z) (p : GstBasemixerPad) : fill_step os oe p p.
Proof. unfold fill_step. repeat split; auto. Qed.

Lemma fill_step_release (os oe : Z) (fq : bool) (p : GstBasemixerPad) :
  fill_step os oe p (release_candidate fq p).
Proof. unfold fill_step, release_candidate. destruct fq; simpl; repeat split; auto. Qed.

Lemma fill_queues_pad_step (r : gdouble) (os oe : Z) (p p' : GstBasemixerPad)
    (more clears : bool) :
  fill_queues_pad r os oe p = PadNext p' more clears -> fill_step os oe p p'.
Proof.
  unfold fill_queues_pad. cbv zeta.
  destruct (gst_base_aggregator_pad_get_buffer (bpad p)) as [buf|] eqn:Eb.
  - destruct (GST_BUFFER_TIMESTAMP buf =? GST_CLOCK_TIME_NONE); [discriminate|].
    destruct (starts_before _ (pad_buffer p) || starts_before _ (queued p)).
    { intros H; inversion H; subst. apply fill_step_refl. }
    destruct (fill_candidate p buf) as [[[[[cb vi] s0] dur] fq]|].
    2:{ intros H; inversion H; subst. unfold fill_step. simpl. repeat split; auto. }
    destruct ((s0 =? GST_CLOCK_TIME_NONE) || (dur =? GST_CLOCK_TIME_NONE));
      [discriminate|].
    destruct ((s0 >=? stop (bpad_segment (bpad p)))
              || (u64 (dur + s0) <? start (bpad_segment (bpad p)))).
    { intros H; inversion H; subst. apply fill_step_release. }
    destruct (clip_to_running (bpad_segment (bpad p)) s0 (u64 (dur + s0))) as [rs re].
    destruct ((rs =? GST_CLOCK_TIME_NONE) || (re =? GST_CLOCK_TIME_NONE));
      [discriminate|].
    destruct (convert_to_output_rate r (rs, re)) as [s1 e1].
    destruct (negb (end_time p =? GST_CLOCK_TIME_NONE) && (end_time p >? e1)) eqn:Epast.
    { intros H; inversion H; subst. apply fill_step_release. }
    destruct ((e1 >=? os) && (s1 <? oe)) eqn:Eov.
    + intros H; inversion H; subst.
      apply andb_true_iff in Eov. destruct Eov as [E1 E2].
      rewrite Z.geb_leb in E1. apply Z.leb_le in E1. apply Z.ltb_lt in E2.
      assert (Hmono : end_time p = GST_CLOCK_TIME_NONE \/ end_time p <= e1).
      { apply andb_false_iff in Epast. destruct Epast as [E|E].
        - left. apply negb_false_iff, Z.eqb_eq in E. exact E.
        - right. rewrite Z.gtb_ltb in E. apply Z.ltb_ge in E. exact E. }
      unfold fill_step, release_candidate.
      destruct fq; simpl; repeat split; auto; right; right; exists cb; auto.
    + destruct (s1 >=? oe); intros H; inversion H; subst;
        [apply fill_step_refl|apply fill_step_release].
  - destruct (negb (end_time p =? GST_CLOCK_TIME_NONE)) eqn:En.
    + destruct (end_time p <=? os) eqn:Ele; intros H; inversion H; subst;
        [|apply fill_step_refl].
      apply negb_true_iff, Z.eqb_neq in En. apply Z.leb_le in Ele.
      unfold fill_step. simpl. repeat split; auto. right. left. repeat split; auto.
    + intros H; inversion H; subst. apply fill_step_refl.
Qed.

Lemma fill_queues_loop_step (r : gdouble) (os oe : Z) (pads pads' : list GstBasemixerPad)
    (eos more : bool) (res : option (bool * bool)) :
  fill_queues_loop r os oe pads eos more = Some (pads', res) ->
  Forall2 (fill_step os oe) pads pads'.
Proof.
  revert pads' eos more. induction pads as [|p tl IH]; intros pads' eos more H.
  - simpl in H. inversion H. constructor.
  - simpl in H. destruct (fill_queues_pad r os oe p) as [| |p' m c] eqn:Ep.
    + inversion H; subst.
      clear. induction (p :: tl); constructor; auto using fill_step_refl.
    + discriminate.
    + destruct (fill_queues_loop r os oe tl _ _) as [[tl' res']|] eqn:El; [|discriminate].
      inversion H; subst. constructor; [|eapply IH; eauto].
      eapply fill_queues_pad_step; eauto.
Qed.

(** X16: whenever the queue filler returns, it has kept the pad list as it
    is (names, z-orders, infos, pending input) and has done to each pad one
    of three things: left its current buffer and times alone; dropped the
    current buffer of a pad without pending input, that buffer having ended
    at or before the start of the output frame; or made a buffer current
    that overlaps the output frame ([os <= end_time] and [start_time < oe])
    and ends no earlier than the buffer it replaces. *)
Theorem queue_filler_promotes_overlapping_buffers (mix m1 : GstBasemixer) (os oe r : Z) :
  gst_basemixer_fill_queues mix os oe = Some (m1, r) ->
  m1 = set_pads mix (sinkpads m1)
  /\ Forall2 (fill_step os oe) (sinkpads mix) (sinkpads m1).
Proof.
  intros H. split; [exact (fill_queues_frame _ _ _ _ _ H)|].
  revert H. unfold gst_basemixer_fill_queues.
  destruct (fill_queues_loop _ os oe (sinkpads mix) true false) as [[pads res]|] eqn:E;
    [|discriminate].
  apply fill_queues_loop_step in E.
  destruct res as [[eos more]|]; intros H; inversion H; subst; exact E.
Qed.

(** * Further properties of the blending *)

(** Whether a pad holds a current buffer. *)
Definition has_buffer (p : GstBasemixerPad) : bool :=
  match pad_buffer p with Some _ => true | None => false end.

Lemma composited_prepared (mix : GstBasemixer) (outsize : Z) (ov : bool)
    (pads : list GstBasemixerPad) :
  Forall (fun p => mixed_frame p = None) pads ->
  composited
    (composite_pads ov (map (fun p => fst (blend_prepare_pad mix outsize p)) pads))
  = map pad_name (List.filter has_buffer pads).
Proof.
  induction 1 as [|p tl Hp _ IH]; [reflexivity|].
  cbn [map List.filter]. unfold has_buffer at 1.
  destruct (pad_buffer p) as [b|] eqn:Eb.
  - rewrite composited_cons.
    + rewrite blend_prepare_pad_name, IH. reflexivity.
    + apply blend_prepare_pad_frame. rewrite Eb. discriminate.
  - assert (Hsame : fst (blend_prepare_pad mix outsize p) = p).
    { unfold blend_prepare_pad. rewrite Eb. reflexivity. }
    rewrite Hsame. cbn [composite_pads]. rewrite Hp. exact IH.
Qed.

(** X17: with no frame left mapped from before, the positioned mixer
    composites exactly the pads that hold a current buffer, each once and in
    the order of the pad list; the output buffer has the size of the output
    info, the timestamp [os] and the duration [oe - os]; afterwards no pad
    keeps a mapped frame or a conversion buffer, and the current buffers are
    as they were. *)
Theorem blend_composites_pads_with_buffers (mix : GstBasemixer) (os oe : Z) :
  Forall (fun p => mixed_frame p = None) (sinkpads mix) ->
  let '(mix', eff, outbuf) :=
    gst_basemixer_blend_buffers gst_videomixer2_class mix os oe in
  composited (out_paint outbuf) = map pad_name (List.filter has_buffer (sinkpads mix))
  /\ out_size outbuf = size (mix_info mix)
  /\ out_timestamp outbuf = os /\ out_duration outbuf = u64 (oe - os)
  /\ Forall (fun p => mixed_frame p = None /\ converted_buffer p = None) (sinkpads mix')
  /\ map pad_name (sinkpads mix') = map pad_name (sinkpads mix)
  /\ map pad_buffer (sinkpads mix') = map pad_buffer (sinkpads mix).
Proof.
  intros Hnone.
  destruct (blend_buffers_composited mix os oe) as [ov Hc].
  rewrite (composited_prepared mix _ ov _ Hnone) in Hc.
  revert Hc. unfold gst_basemixer_blend_buffers. cbv zeta.
  pose proof (blend_prepare_pointwise mix (size (mix_info mix)) (sinkpads mix)) as Hpw.
  destruct (blend_prepare mix (size (mix_info mix)) (sinkpads mix)) as [pads eff].
  simpl in Hpw. subst pads. cbn [snd sinkpads set_pads out_paint out_size out_timestamp
                                   out_duration].
  intros Hc. split; [exact Hc|]. repeat split.
  - unfold set_pads, set_sinkpads. cbn [sinkpads]. apply List.Forall_forall. intros p Hp.
    apply in_map_iff in Hp. destruct Hp as [q [<- _]]. split; reflexivity.
  - unfold set_pads, set_sinkpads. cbn [sinkpads]. rewrite !List.map_map.
    apply List.map_ext. intros p. simpl. apply blend_prepare_pad_name.
  - unfold set_pads, set_sinkpads. cbn [sinkpads]. rewrite !List.map_map.
    apply List.map_ext. intros p. simpl.
    unfold blend_prepare_pad. repeat break_match; simpl; congruence.
Qed.

(** * Further properties of the life cycle *)

Lemma run_ticks_not_negotiated (klass : GstBasemixerClass)
    (inputs : list (list GstBaseAggregatorPad)) (mix : GstBasemixer) :
  format_eqb (GST_VIDEO_INFO_FORMAT (mix_info mix)) GST_VIDEO_FORMAT_UNKNOWN = true ->
  exists tr,
    run_ticks klass mix inputs = Some tr
    /\ List.length tr = List.length inputs
    /\ Forall (fun x => snd (fst x) = [] /\ snd x = GST_FLOW_NOT_NEGOTIATED
                        /\ mix_info (fst (fst x)) = mix_info mix) tr.
Proof.
  revert mix. induction inputs as [|up rest IH]; intros mix Hf.
  - exists []. repeat split. constructor.
  - simpl. unfold gst_basemixer_aggregate at 1. simpl mix_info. rewrite Hf.
    destruct (IH (set_pads mix (feed (sinkpads mix) up)) Hf) as [tr [Hr [Hl Ha]]].
    rewrite Hr. eexists. split; [reflexivity|]. split; [simpl; congruence|].
    constructor; [simpl; auto|exact Ha].
Qed.

(** X18: a mixer that has just been initialised, or has gone from PAUSED to
    READY, is not negotiated: however many ticks follow and whatever the sink
    pads have received by then, every tick returns
    [GST_FLOW_NOT_NEGOTIATED] and sends nothing. *)
Theorem no_output_before_negotiation (klass : GstBasemixerClass) (mix m : GstBasemixer)
    (inputs : list (list GstBaseAggregatorPad)) :
  m = gst_basemixer_init mix
  \/ m = gst_basemixer_change_state mix GST_STATE_CHANGE_PAUSED_TO_READY ->
  exists tr,
    run_ticks klass m inputs = Some tr
    /\ List.length tr = List.length inputs
    /\ Forall (fun x => snd (fst x) = [] /\ snd x = GST_FLOW_NOT_NEGOTIATED) tr.
Proof.
  intros Hm.
  destruct (run_ticks_not_negotiated klass inputs m) as [tr [Hr [Hl Ha]]].
  - destruct Hm as [-> | ->]; reflexivity.
  - exists tr. split; [exact Hr|]. split; [exact Hl|].
    apply (List.Forall_impl _ (P := fun x => snd (fst x) = [] /\ snd x = GST_FLOW_NOT_NEGOTIATED
                                    /\ mix_info (fst (fst x)) = mix_info m)); [|exact Ha].
    intros x [H1 [H2 _]]. auto.
Qed.

(** * Further properties of QoS and of the tags *)

(** No QoS observation and no frame dropped. *)
Definition qos_quiet (m : GstBasemixer) : Prop :=
  earliest_time m = GST_CLOCK_TIME_NONE /\ qos_dropped m = 0.

Lemma src_setcaps_quiet (m : GstBasemixer) (caps : GstCaps) :
  qos_quiet m -> qos_quiet (fst (gst_basemixer_src_setcaps m caps)).
Proof.
  intros [H1 H2]. unfold gst_basemixer_src_setcaps, qos_quiet.
  destruct (gst_video_info_from_caps caps) as [info|]; [|split; assumption].
  cbv zeta. rewrite reset_qos_eq. unfold reanchor_cadence.
  repeat break_match; simpl; split; auto.
Qed.

Lemma videomixer2_update_src_caps_quiet (m : GstBasemixer) :
  qos_quiet m -> qos_quiet (fst (gst_basemixer_update_src_caps gst_videomixer2_class m)).
Proof.
  intros Hq. unfold gst_basemixer_update_src_caps. cbv zeta.
  destruct ((best_width (update_src_caps_best m) >? 0)
            && (best_height (update_src_caps_best m) >? 0)
            && dlt d_zero (best_fps (update_src_caps_best m))); [|exact Hq].
  set (m1 := if negb (fps_n (mix_info m) =? best_fps_n (update_src_caps_best m))
                || negb (fps_d (mix_info m) =? best_fps_d (update_src_caps_best m))
             then reanchor_cadence m else m).
  assert (H1 : qos_quiet m1).
  { unfold m1, reanchor_cadence. destruct Hq. repeat break_match; split; assumption. }
  simpl (modify_src_pad_info gst_videomixer2_class). cbv iota beta.
  assert (H2 : qos_quiet (fst (fst (gst_videomixer2_modify_src_pad_info m1
                                       (update_src_caps_proposal m1 (update_src_caps_best m)))))).
  { unfold gst_videomixer2_modify_src_pad_info.
    destruct (fold_left modify_scan_pad (sinkpads m1) (-1, -1)) as [bw bh].
    destruct ((bw >? 0) && (bh >? 0)); [|exact H1].
    unfold set_functions. destruct H1.
    destruct (GST_VIDEO_INFO_FORMAT _); split; assumption. }
  destruct (gst_videomixer2_modify_src_pad_info m1 _) as [[m2 info] ok].
  simpl in H2.
  destruct (negb ok); [exact H2|].
  destruct gst_pad_peer_query_caps as [peercaps|].
  - destruct (gst_caps_is_empty _); [exact H2|].
    destruct (caps_fixate_nearest _ _ _ _ _) as [[w h] [n d]].
    apply src_setcaps_quiet. exact H2.
  - apply src_setcaps_quiet. exact H2.
Qed.

Lemma videomixer2_prepare_quiet (m m0 : GstBasemixer) (eff_caps : list Effect) :
  qos_quiet m -> aggregate_prepare gst_videomixer2_class m = (m0, eff_caps) ->
  qos_quiet m0.
Proof.
  intros Hq. unfold aggregate_prepare. cbv zeta.
  set (m1 := if srcpad_need_reconfigure (agg m)
             then fst (gst_basemixer_update_src_caps gst_videomixer2_class
                         (clear_reconfigure m))
             else m).
  assert (H1 : qos_quiet m1).
  { unfold m1. destruct (srcpad_need_reconfigure (agg m)); [|exact Hq].
    apply videomixer2_update_src_caps_quiet. exact Hq. }
  destruct (send_caps m1); intros H; inversion H; subst; exact H1.
Qed.

Lemma quiet_tick (m mix' : GstBasemixer) (eff : list Effect) (ret : GstFlowReturn) :
  qos_quiet m ->
  gst_basemixer_aggregate gst_videomixer2_class m = Some (mix', eff, ret) ->
  qos_dropped mix' = 0
  /\ forall rt st ts du j pr q pc dr,
       ~ In (PostQosMessage rt st ts du j pr q pc dr) eff.
Proof.
  intros Hq.
  destruct (format_eqb (GST_VIDEO_INFO_FORMAT (mix_info m)) GST_VIDEO_FORMAT_UNKNOWN)
    eqn:Hf.
  - unfold gst_basemixer_aggregate. rewrite Hf. intros H; inversion H; subst.
    split; [exact (proj2 Hq)|]. intros; intros [].
  - destruct (aggregate_prepare gst_videomixer2_class m) as [m0 eff_caps] eqn:Hp.
    destruct (videomixer2_prepare_quiet m m0 eff_caps Hq Hp) as [Q1 Q2].
    rewrite (gst_basemixer_aggregate_unfold _ m m0 eff_caps Hf Hp).
    destruct (aggregate_locked_no_observation gst_videomixer2_class m0 (or_introl Q1))
      as [_ [Hnever _]].
    destruct (aggregate_locked gst_videomixer2_class m0) as [[[m2 effl] r]|] eqn:E;
      [|discriminate].
    intros H; inversion H; subst.
    destruct (Hnever _ _ _ eq_refl) as [Hd Hno].
    split; [congruence|].
    intros rt st ts du j pr q pc dr Hin. apply in_app_or in Hin.
    destruct Hin as [Hin|Hin].
    + destruct (aggregate_prepare_effects _ m m0 eff_caps Hp _ Hin) as [c Hc].
      discriminate.
    + exact (Hno _ _ _ _ _ _ _ _ _ Hin).
Qed.

(** X19: QoS observations do not survive a flush or a seek: after the
    flush-stop event of a sink pad, and after an accepted seek, the mixer has
    no observation and zero counts, and the next tick of the positioned mixer
    drops no frame and posts no QoS message. *)
Theorem no_qos_drop_after_flush_or_seek (mix m : GstBasemixer) (name : Z)
    (ev : SeekEvent) :
  m = gst_basemixer_sink_event_flush_stop mix name
  \/ (SFleb (seek_rate ev) d_zero = false
      /\ m = fst (gst_basemixer_src_event_seek mix ev)) ->
  earliest_time m = GST_CLOCK_TIME_NONE
  /\ qos_processed m = 0 /\ qos_dropped m = 0
  /\ forall mix' eff ret,
       gst_basemixer_aggregate gst_videomixer2_class m = Some (mix', eff, ret) ->
       qos_dropped mix' = 0
       /\ forall rt st ts du j pr q pc dr,
            ~ In (PostQosMessage rt st ts du j pr q pc dr) eff.
Proof.
  intros Hm.
  assert (H : earliest_time m = GST_CLOCK_TIME_NONE
              /\ qos_processed m = 0 /\ qos_dropped m = 0).
  { destruct Hm as [-> |[Hrate ->]].
    - unfold gst_basemixer_sink_event_flush_stop. rewrite reset_qos_eq.
      repeat split; reflexivity.
    - unfold gst_basemixer_src_event_seek. rewrite Hrate. cbv zeta.
      rewrite reset_qos_eq.
      destruct (parent_src_event_seek ev _) as [a result].
      repeat split; reflexivity. }
  destruct H as [H1 [H2 H3]]. repeat split; try assumption.
  - eapply quiet_tick; [split; eassumption|eassumption].
  - eapply quiet_tick; [split; eassumption|eassumption].
Qed.



(** * Properties of the duration and latency queries *)

(** An iteration over sink pads whose peers all answer. *)
Definition answered {A : Type} (answers : list A) : list (GstIteratorResult (option A)) :=
  map (fun a => GST_ITERATOR_OK (Some a)) answers.

Lemma query_duration_loop_known (durations : list Z) (max : Z) :
  Forall (fun d => d <> -1) durations ->
  query_duration_loop (answered durations) max true
  = (fold_left Z.max durations max, true).
Proof.
  intros H. revert max. induction H as [|d tl Hd _ IH]; intros max; [reflexivity|].
  simpl. apply Z.eqb_neq in Hd. rewrite Hd.
  destruct (d >? max) eqn:E; rewrite IH.
  - apply Z.gtb_lt in E. replace (Z.max max d) with d by lia. reflexivity.
  - rewrite Z.gtb_ltb in E. apply Z.ltb_ge in E.
    replace (Z.max max d) with max by lia. reflexivity.
Qed.

Lemma query_duration_loop_failed (rest : list (option Z)) (max : Z) :
  snd (query_duration_loop (map GST_ITERATOR_OK rest) max false) = false.
Proof.
  revert max. induction rest as [|a tl IH]; intros max; [reflexivity|].
  simpl. destruct a; apply IH.
Qed.

Lemma query_duration_loop_app (pre : list Z) (it : list (GstIteratorResult (option Z)))
    (max : Z) :
  Forall (fun d => d <> -1) pre ->
  query_duration_loop (answered pre ++ it) max true
  = query_duration_loop it (fold_left Z.max pre max) true.
Proof.
  intros H. revert max. induction H as [|d tl Hd _ IH]; intros max; [reflexivity|].
  simpl. apply Z.eqb_neq in Hd. rewrite Hd.
  destruct (d >? max) eqn:E; rewrite IH.
  - apply Z.gtb_lt in E. replace (Z.max max d) with d by lia. reflexivity.
  - rewrite Z.gtb_ltb in E. apply Z.ltb_ge in E.
    replace (Z.max max d) with max by lia. reflexivity.
Qed.

(** X21: when every peer answers the duration query with a known duration,
    the mixer answers with the maximum of these durations (-1, unknown, when
    it has no sink pad); what was collected before the iterator asked for a
    resync is discarded. *)
Theorem query_duration_is_the_maximum (durations pre : list Z) :
  Forall (fun d => d <> -1) durations ->
  Forall (fun d => d <> -1) pre ->
  gst_basemixer_query_duration (answered durations)
  = (true, Some (fold_left Z.max durations (-1)))
  /\ (forall d, In d durations -> d <= fold_left Z.max durations (-1))
  /\ gst_basemixer_query_duration (answered pre ++ GST_ITERATOR_RESYNC :: answered durations)
     = gst_basemixer_query_duration (answered durations).
Proof.
  intros H Hpre. unfold gst_basemixer_query_duration. split; [|split].
  - rewrite (query_duration_loop_known _ _ H). reflexivity.
  - intros d Hd. clear H. generalize (-1). revert Hd.
    induction durations as [|x tl IH]; intros Hd z; [destruct Hd|].
    simpl. destruct Hd as [-> |Hd]; [|apply IH; exact Hd].
    clear IH. revert z. induction tl as [|y tl IH]; intros z; simpl; [lia|].
    specialize (IH (Z.max z y)).
    replace (Z.max (Z.max z d) y) with (Z.max (Z.max z y) d) by lia. exact IH.
  - rewrite (query_duration_loop_app _ _ _ Hpre). reflexivity.
Qed.

(** X22: the duration query fails as soon as one peer cannot answer it or
    the iterator reports an error, whatever the peers after it answer, and
    the first peer that reports an unknown duration makes the total unknown
    without the remaining peers being asked. *)
Theorem query_duration_failure_and_unknown (pre : list Z) (rest : list (option Z))
    (it : list (GstIteratorResult (option Z))) :
  Forall (fun d => d <> -1) pre ->
  gst_basemixer_query_duration
    (answered pre ++ GST_ITERATOR_OK None :: map GST_ITERATOR_OK rest)
  = (false, None)
  /\ gst_basemixer_query_duration (answered pre ++ GST_ITERATOR_ERROR :: it)
     = (false, None)
  /\ gst_basemixer_query_duration (answered pre ++ GST_ITERATOR_OK (Some (-1)) :: it)
     = (true, Some (-1)).
Proof.
  intros Hpre. unfold gst_basemixer_query_duration.
  rewrite !(query_duration_loop_app _ _ _ Hpre). split; [|split].
  - simpl.
    pose proof (query_duration_loop_failed rest (fold_left Z.max pre (-1))) as Hf.
    destruct (query_duration_loop _ _ false) as [max res]. simpl in Hf. subst res.
    reflexivity.
  - reflexivity.
  - reflexivity.
Qed.

(** What the latency loop has collected from the peers [seen]. *)
Record latency_facts (seen : list LatencyAnswer) (live : bool) (min max : Z) : Prop := {
  live_some : live = true <-> exists a, In a seen /\ fst (fst a) = true;
  min_upper : forall a, In a seen -> snd (fst a) <= min;
  min_attained : min = 0 \/ exists a, In a seen /\ min = snd (fst a);
  max_upper :
    forall a, In a seen -> snd a <> GST_CLOCK_TIME_NONE ->
      max <> GST_CLOCK_TIME_NONE /\ snd a <= max;
  max_attained :
    max = GST_CLOCK_TIME_NONE
    \/ exists a, In a seen /\ max = snd a /\ snd a <> GST_CLOCK_TIME_NONE
}.

Lemma latency_facts_step (seen : list LatencyAnswer) (live : bool) (min max : Z)
    (live_cur : bool) (min_cur max_cur : Z) :
  latency_facts seen live min max ->
  latency_facts (seen ++ [(live_cur, min_cur, max_cur)])
    (live || live_cur)
    (if min_cur >? min then min_cur else min)
    (if negb (max_cur =? GST_CLOCK_TIME_NONE)
        && ((negb (max =? GST_CLOCK_TIME_NONE) && (max_cur >? max))
            || (max =? GST_CLOCK_TIME_NONE))
     then max_cur else max).
Proof.
  intros [L M1 M2 X1 X2].
  assert (Hin : forall a, In a (seen ++ [(live_cur, min_cur, max_cur)])
                          <-> In a seen \/ a = (live_cur, min_cur, max_cur)).
  { intros a. rewrite in_app_iff. simpl. intuition. }
  constructor.
  - rewrite orb_true_iff, L. split.
    + intros [[a [Ha Hl]]|Hl].
      * exists a. rewrite Hin. auto.
      * exists (live_cur, min_cur, max_cur). rewrite Hin. auto.
    + intros [a [Ha Hl]]. apply Hin in Ha. destruct Ha as [Ha| ->]; [left; eauto|].
      right. exact Hl.
  - intros a Ha. apply Hin in Ha.
    destruct (min_cur >? min) eqn:E;
      [apply Z.gtb_lt in E|rewrite Z.gtb_ltb in E; apply Z.ltb_ge in E];
      destruct Ha as [Ha| ->]; simpl; try lia; specialize (M1 a Ha); lia.
  - destruct (min_cur >? min) eqn:E.
    + right. exists (live_cur, min_cur, max_cur). rewrite Hin. auto.
    + destruct M2 as [M2|[a [Ha Hm]]]; [left; exact M2|right].
      exists a. rewrite Hin. auto.
  - intros a Ha Hv. apply Hin in Ha.
    destruct (max_cur =? GST_CLOCK_TIME_NONE) eqn:Ec;
      [apply Z.eqb_eq in Ec|apply Z.eqb_neq in Ec];
      destruct (max =? GST_CLOCK_TIME_NONE) eqn:Em;
      [apply Z.eqb_eq in Em|apply Z.eqb_neq in Em| apply Z.eqb_eq in Em
       |apply Z.eqb_neq in Em];
      cbn [negb andb orb].
    + destruct Ha as [Ha| ->]; [exact (X1 a Ha Hv)|simpl in Hv; contradiction].
    + destruct Ha as [Ha| ->]; [exact (X1 a Ha Hv)|simpl in Hv; contradiction].
    + destruct Ha as [Ha| ->]; [|simpl; split; [exact Ec|lia]].
      destruct (X1 a Ha Hv) as [Hne _]. contradiction.
    + rewrite orb_false_r.
      destruct (max_cur >? max) eqn:E;
        [apply Z.gtb_lt in E|rewrite Z.gtb_ltb in E; apply Z.ltb_ge in E];
        (destruct Ha as [Ha| ->];
         [destruct (X1 a Ha Hv) as [_ Hle]; split; [assumption|lia]
         |simpl; split; [assumption|lia]]).
  - destruct (negb (max_cur =? GST_CLOCK_TIME_NONE)
              && ((negb (max =? GST_CLOCK_TIME_NONE) && (max_cur >? max))
                  || (max =? GST_CLOCK_TIME_NONE))) eqn:E.
    + right. exists (live_cur, min_cur, max_cur). rewrite Hin.
      apply andb_true_iff in E. destruct E as [E _].
      apply negb_true_iff, Z.eqb_neq in E. auto.
    + destruct X2 as [X2|[a [Ha Hm]]]; [left; exact X2|right].
      exists a. rewrite Hin. auto.
Qed.

Lemma query_latency_loop_answered (l seen : list LatencyAnswer) (live : bool)
    (min max : Z) :
  latency_facts seen live min max ->
  exists live' min' max',
    query_latency_loop (answered l) live min max true = (live', min', max', true)
    /\ latency_facts (seen ++ l) live' min' max'.
Proof.
  revert seen live min max. induction l as [|[[lc mc] xc] tl IH];
    intros seen live min max H.
  - exists live, min, max. rewrite app_nil_r. split; [reflexivity|exact H].
  - simpl.
    destruct (IH _ _ _ _ (latency_facts_step seen live min max lc mc xc H))
      as [live' [min' [max' [Hq Hf]]]].
    exists live', min', max'. split; [exact Hq|].
    rewrite <- app_assoc in Hf. exact Hf.
Qed.

Lemma query_latency_loop_failed (rest : list (option LatencyAnswer)) (live : bool)
    (min max : Z) :
  snd (query_latency_loop (map GST_ITERATOR_OK rest) live min max false) = false.
Proof.
  revert live min max. induction rest as [|a tl IH]; intros live min max; [reflexivity|].
  simpl. destruct a as [[[lc mc] xc]|]; apply IH.
Qed.

Lemma query_latency_loop_fails (l : list LatencyAnswer)
    (rest : list (option LatencyAnswer)) (live : bool) (min max : Z) :
  snd (query_latency_loop
         (answered l ++ GST_ITERATOR_OK None :: map GST_ITERATOR_OK rest)
         live min max true) = false.
Proof.
  revert live min max. induction l as [|[[lc mc] xc] tl IH]; intros live min max.
  - simpl. apply query_latency_loop_failed.
  - simpl. apply IH.
Qed.

(** X23: when every peer answers the latency query, the mixer answers live
    when some peer is live, with the largest of the minimum latencies (0
    without sink pads) and with the largest of the maximum latencies that are
    defined, a peer without a maximum not making the total unbounded unless
    no peer has one; and the query fails when a peer cannot answer. *)
Theorem query_latency_combines_the_peers (latencies : list LatencyAnswer)
    (rest : list (option LatencyAnswer)) :
  (exists live min max,
     gst_basemixer_query_latency (answered latencies) = (true, Some (live, min, max))
     /\ (live = true <-> exists a, In a latencies /\ fst (fst a) = true)
     /\ (forall a, In a latencies -> snd (fst a) <= min)
     /\ (min = 0 \/ exists a, In a latencies /\ min = snd (fst a))
     /\ (max = GST_CLOCK_TIME_NONE
         <-> forall a, In a latencies -> snd a = GST_CLOCK_TIME_NONE)
     /\ (forall a, In a latencies -> snd a <> GST_CLOCK_TIME_NONE -> snd a <= max)
     /\ (max = GST_CLOCK_TIME_NONE \/ exists a, In a latencies /\ max = snd a))
  /\ gst_basemixer_query_latency
       (answered latencies ++ GST_ITERATOR_OK None :: map GST_ITERATOR_OK rest)
     = (false, None).
Proof.
  assert (H0 : latency_facts [] false 0 GST_CLOCK_TIME_NONE).
  { constructor; auto.
    - split; [discriminate|intros [a [[] _]]].
    - intros a []. - intros a []. }
  split.
  - destruct (query_latency_loop_answered latencies [] _ _ _ H0)
      as [live [min [max [Hq [L M1 M2 X1 X2]]]]].
    simpl in L, M1, M2, X1, X2.
    exists live, min, max. unfold gst_basemixer_query_latency. rewrite Hq.
    split; [reflexivity|]. split; [exact L|]. split; [exact M1|]. split; [exact M2|].
    split; [|split].
    + split.
      * intros Hm a Ha. destruct (Z.eq_dec (snd a) GST_CLOCK_TIME_NONE) as [E|E]; [exact E|].
        destruct (X1 a Ha E) as [Hne _]. contradiction.
      * intros Hall. destruct X2 as [X2|[a [Ha [_ Hv]]]]; [exact X2|].
        exfalso. exact (Hv (Hall a Ha)).
    + intros a Ha Hv. exact (proj2 (X1 a Ha Hv)).
    + destruct X2 as [X2|[a [Ha [Hm _]]]]; [left; exact X2|right; eauto].
  - unfold gst_basemixer_query_latency.
    pose proof (query_latency_loop_fails latencies rest false 0 GST_CLOCK_TIME_NONE)
      as Hf.
    destruct (query_latency_loop _ false 0 GST_CLOCK_TIME_NONE true) as [[[a b] c] d].
    simpl in Hf. subst d. reflexivity.
Qed.

(** * Exact halving, and the round trip of a rate change *)

Lemma div_two_exact (mz : positive) (ez : Z) :
  Zpos (digits2_pos mz) = 53 -> -52 <= ez <= 1 ->
  ddiv (S754_finite false mz ez) d_two = S754_finite false mz (ez - 1).
Proof.
  intros Hd He. change d_two with (S754_finite false 4503599627370496 (-51)).
  unfold ddiv, SFdiv, SFdiv_core_binary. simpl xorb.
  change (Zdigits2 (Z.pos mz)) with (Zpos (digits2_pos mz)). rewrite Hd.
  change (Zdigits2 4503599627370496) with 53.
  unfold fexp, emin, dbl_prec, dbl_emax.
  replace (Z.min (Z.max (53 + ez - (53 + -51) - 53) (3 - 1024 - 53)) (ez - -51))
    with (ez - 2) by lia.
  replace (ez - -51 - (ez - 2)) with 53 by lia.
  cbv iota.
  assert (Hdiv : Z.div_eucl (Z.shiftl (Z.pos mz) 53) 4503599627370496
                 = (Zpos (xO mz), 0)).
  { assert (Hm : Z.shiftl (Z.pos mz) 53 = Zpos (xO mz) * 4503599627370496).
    { rewrite Z.shiftl_mul_pow2 by lia. change (2 ^ 53) with 9007199254740992.
      change (Zpos (xO mz)) with (2 * Zpos mz). ring. }
    pose proof (Z.div_eucl_eq (Z.shiftl (Z.pos mz) 53) 4503599627370496 ltac:(lia))
      as Heq.
    pose proof (Z.mod_pos_bound (Z.shiftl (Z.pos mz) 53) 4503599627370496 ltac:(lia))
      as Hb.
    unfold Z.modulo in Hb.
    destruct (Z.div_eucl (Z.shiftl (Z.pos mz) 53) 4503599627370496) as [q r].
    rewrite Hm in Heq. f_equal; nia. }
  rewrite Hdiv.
  change (new_location 4503599627370496 0) with loc_Exact.
  change (Z.pos mz~0) with (Zpos (Pos.iter xO mz 1)).
  rewrite binary_round_aux_shift by (try exact Hd; lia). f_equal. lia.
Qed.

(** At rate 2.0 an even time below [2^53] nanoseconds is halved exactly. *)
Lemma div_by_two_exact (t : Z) : 0 <= t < 2 ^ 52 -> div_by_double (2 * t) d_two = t.
Proof.
  intros Ht. unfold div_by_double. change (2 ^ 52) with 4503599627370496 in Ht.
  destruct t as [|p|p]; [reflexivity| |lia].
  change (2 * Zpos p) with (Zpos (xO p)).
  destruct (double_of_Z_exact (xO p)) as [mz [ez [Hf [Hd [He Hv]]]]].
  { change (2 ^ 53) with 9007199254740992. lia. }
  rewrite Hf, div_two_exact by (try assumption; lia).
  unfold guint64_of_double, double_trunc.
  destruct (ez - 1) as [|k|k] eqn:Ek; [lia|lia|].
  rewrite Z.shiftr_div_pow2 by lia. rewrite Hv.
  replace (Zpos k) with (- ez + 1) by lia.
  rewrite Z.pow_add_r by lia.
  change (Zpos (xO p)) with (2 * Zpos p).
  replace (2 * Zpos p * 2 ^ (- ez)) with (Zpos p * (2 ^ (- ez) * 2 ^ 1)) by ring.
  rewrite Z.div_mul by (apply Z.neq_mul_0; split; apply Z.pow_nonzero; lia).
  apply u64_small. change (2 ^ 64) with 18446744073709551616. lia.
Qed.

Lemma seek_pad_up (p : GstBasemixerPad) :
  seek_pad false d_one (ABS d_two) p
  = if has_buffer p
    then set_times p (mul_by_double (start_time p) d_two)
           (mul_by_double (end_time p) d_two)
    else p.
Proof.
  unfold seek_pad, has_buffer.
  assert (E1 : deq (ABS d_one) (ABS d_two) = false) by reflexivity.
  assert (E2 : deq (ABS d_one) d_one = true) by reflexivity.
  assert (E3 : deq (ABS d_two) d_one = false) by reflexivity.
  rewrite E1, E2, E3. change (ABS d_two) with d_two.
  destruct (pad_buffer p); reflexivity.
Qed.

Lemma seek_pad_down (p : GstBasemixerPad) :
  seek_pad false d_two (ABS d_one) p
  = if has_buffer p
    then set_times p (div_by_double (start_time p) d_two)
           (div_by_double (end_time p) d_two)
    else p.
Proof.
  unfold seek_pad, has_buffer.
  assert (E1 : deq (ABS d_two) (ABS d_one) = false) by reflexivity.
  assert (E2 : deq (ABS d_two) d_one = false) by reflexivity.
  assert (E3 : deq (ABS d_one) d_one = true) by reflexivity.
  rewrite E1, E2, E3. change (ABS d_two) with d_two.
  destruct (pad_buffer p); reflexivity.
Qed.

(** X24: a seek without flush from rate 1.0 to rate 2.0 doubles the times of
    the current buffer of every pad that holds one, and the seek back to rate
    1.0 restores them exactly (for times below [2^52] ns); pads without a
    current buffer are not touched by either. *)
Theorem rate_change_round_trip (mix : GstBasemixer) (up down : SeekEvent) :
  rate (segment (agg mix)) = d_one ->
  seek_rate up = d_two -> seek_flush up = false ->
  seek_rate down = d_one -> seek_flush down = false ->
  let m1 := fst (gst_basemixer_src_event_seek mix up) in
  rate (segment (agg m1)) = d_two ->
  Forall (fun p => has_buffer p = true ->
                   0 <= start_time p < 2 ^ 52 /\ 0 <= end_time p < 2 ^ 52)
    (sinkpads mix) ->
  let m2 := fst (gst_basemixer_src_event_seek m1 down) in
  sinkpads m1
  = map (fun p => if has_buffer p
                  then set_times p (2 * start_time p) (2 * end_time p) else p)
      (sinkpads mix)
  /\ sinkpads m2 = sinkpads mix.
Proof.
  intros Hr Hup Hupf Hdown Hdownf m1 Hr1 Hsmall m2.
  assert (H1 : sinkpads m1 = map (seek_pad false d_one (ABS d_two)) (sinkpads mix)).
  { unfold m1, gst_basemixer_src_event_seek. rewrite Hup, Hupf, Hr.
    change (SFleb d_two d_zero) with false. cbv iota zeta.
    destruct (parent_src_event_seek up _) as [a res]. reflexivity. }
  assert (H2 : sinkpads m2 = map (seek_pad false d_two (ABS d_one)) (sinkpads m1)).
  { unfold m2, gst_basemixer_src_event_seek. rewrite Hdown, Hdownf, Hr1.
    change (SFleb d_one d_zero) with false. cbv iota zeta.
    destruct (parent_src_event_seek down _) as [a res]. reflexivity. }
  assert (Hup' : sinkpads m1
                 = map (fun p => if has_buffer p
                                 then set_times p (2 * start_time p) (2 * end_time p)
                                 else p) (sinkpads mix)).
  { rewrite H1. apply map_ext_in. intros p Hp. rewrite seek_pad_up.
    destruct (has_buffer p) eqn:Hb; [|reflexivity].
    destruct (proj1 (List.Forall_forall _ _) Hsmall p Hp Hb) as [Hs He].
    change (2 ^ 52) with 4503599627370496 in Hs, He.
    rewrite !mul_by_two_exact
      by (change (2 ^ 53) with 9007199254740992; lia).
    reflexivity. }
  split; [exact Hup'|].
  rewrite H2, Hup', List.map_map.
  rewrite <- (List.map_id (sinkpads mix)) at 2.
  apply map_ext_in. intros p Hp. rewrite seek_pad_down.
  destruct (has_buffer p) eqn:Hb.
  - destruct (proj1 (List.Forall_forall _ _) Hsmall p Hp Hb) as [Hs He].
    assert (Hb' : has_buffer (set_times p (2 * start_time p) (2 * end_time p)) = true)
      by exact Hb.
    rewrite Hb'.
    change (start_time (set_times p (2 * start_time p) (2 * end_time p)))
      with (2 * start_time p).
    change (end_time (set_times p (2 * start_time p) (2 * end_time p)))
      with (2 * end_time p).
    rewrite !div_by_two_exact by assumption.
    destruct p; reflexivity.
  - rewrite Hb. reflexivity.
Qed.

(** * The caps event of a sink pad, and the ways the converter update fails *)

Lemma update_converters_pads_infos (best : GstVideoInfo) (pads : list GstBasemixerPad) :
  map pad_info (fst (update_converters_pads best pads)) = map pad_info pads.
Proof.
  induction pads as [|p tl IH]; simpl; [reflexivity|].
  destruct (update_converters_pads best tl) as [tl' ok]. simpl in IH.
  repeat break_match; simpl; rewrite ?IH; reflexivity.
Qed.

Lemma update_converters_infos (klass : GstBasemixerClass) (mix : GstBasemixer) :
  map pad_info (sinkpads (fst (fst (gst_basemixer_update_converters klass mix))))
  = map pad_info (sinkpads mix).
Proof.
  unfold gst_basemixer_update_converters.
  destruct (allowed_downstream_caps klass mix) as [ds|]; [|reflexivity].
  destruct (gst_caps_is_empty ds); [reflexivity|].
  destruct (elect_format ds (sinkpads mix)) as [best one_alpha].
  destruct (one_alpha && negb (info_has_alpha best)); [reflexivity|].
  simpl.
  pose proof (update_converters_pads_infos best (sinkpads mix)) as H.
  destruct (update_converters_pads best (sinkpads mix)) as [pads ok].
  exact H.
Qed.

(** Whether caps with the info [info] are compatible with a negotiated
    output: same pixel aspect ratio and interlace mode. *)
Definition matches_output (mix : GstBasemixer) (info : GstVideoInfo) : bool :=
  format_eqb (GST_VIDEO_INFO_FORMAT (mix_info mix)) GST_VIDEO_FORMAT_UNKNOWN
  || ((par_n (mix_info mix) =? par_n info) && (par_d (mix_info mix) =? par_d info)
      && (interlace_mode (mix_info mix) =? interlace_mode info)).

(** X25: the caps event of a sink pad of the positioned mixer.  Caps that
    cannot be parsed, and caps whose pixel aspect ratio or interlace mode
    differ from those of a negotiated output, are refused and change nothing.
    Other caps are stored in the pad before anything is negotiated: whether
    the event then succeeds or fails, the pad has the new info afterwards and
    the other pads keep theirs. *)
Theorem sink_caps_are_stored (mix : GstBasemixer) (name : Z) (caps : GstCaps) :
  (gst_video_info_from_caps caps = None ->
   gst_basemixer_pad_sink_setcaps gst_videomixer2_class mix name caps = (mix, [], false))
  /\ (forall info,
        gst_video_info_from_caps caps = Some info ->
        (matches_output mix info = false ->
         gst_basemixer_pad_sink_setcaps gst_videomixer2_class mix name caps
         = (mix, [], false))
        /\ (matches_output mix info = true ->
            let mix' :=
              fst (fst (gst_basemixer_pad_sink_setcaps gst_videomixer2_class mix
                          name caps)) in
            map pad_name (sinkpads mix') = map pad_name (sinkpads mix)
            /\ map pad_info (sinkpads mix')
               = map (fun p => if pad_name p =? name then info else pad_info p)
                   (sinkpads mix))).
Proof.
  assert (Hcond : forall info,
            negb (format_eqb (GST_VIDEO_INFO_FORMAT (mix_info mix)) GST_VIDEO_FORMAT_UNKNOWN)
            && (negb (par_n (mix_info mix) =? par_n info)
                || negb (par_d (mix_info mix) =? par_d info)
                || negb (interlace_mode (mix_info mix) =? interlace_mode info))
            = negb (matches_output mix info)).
  { intros info. unfold matches_output.
    destruct (format_eqb _ _), (par_n (mix_info mix) =? par_n info),
      (par_d (mix_info mix) =? par_d info),
      (interlace_mode (mix_info mix) =? interlace_mode info); reflexivity. }
  unfold gst_basemixer_pad_sink_setcaps. split.
  - intros ->. reflexivity.
  - intros info ->. rewrite Hcond. split; intros ->; [reflexivity|].
    cbn [negb].
    set (m1 := set_pads mix
                 (map (fun p => if pad_name p =? name then set_pad_info p info else p)
                    (sinkpads mix))).
    pose proof (update_converters_names gst_videomixer2_class m1) as Hn.
    pose proof (update_converters_infos gst_videomixer2_class m1) as Hi.
    destruct (gst_basemixer_update_converters gst_videomixer2_class m1)
      as [[m2 eff] ret].
    cbn [fst] in Hn, Hi.
    destruct (videomixer2_update_src_caps_pads m2) as [Hp _].
    assert (Hn1 : map pad_name (sinkpads m1) = map pad_name (sinkpads mix)).
    { unfold m1. simpl. rewrite List.map_map. apply List.map_ext. intros p.
      destruct (pad_name p =? name); reflexivity. }
    assert (Hi1 : map pad_info (sinkpads m1)
                  = map (fun p => if pad_name p =? name then info else pad_info p)
                      (sinkpads mix)).
    { unfold m1. simpl. rewrite List.map_map. apply List.map_ext. intros p.
      destruct (pad_name p =? name); reflexivity. }
    destruct ret.
    + destruct (gst_basemixer_update_src_caps gst_videomixer2_class m2) as [m3 r3].
      simpl in Hp. simpl. rewrite Hp. split; congruence.
    + simpl. split; congruence.
Qed.

(** A pad that needs a converter to the output [best] which cannot be
    made. *)
Definition converter_missing (best : GstVideoInfo) (p : GstBasemixerPad) : Prop :=
  format_known p = true /\ needs_conversion best p = true
  /\ videoconvert_convert_new (pad_info p) best = None.

Lemma needs_conversion_eq (best : GstVideoInfo) (p : GstBasemixerPad)
    (fi : GstVideoFormatInfo) :
  finfo (pad_info p) = Some fi ->
  needs_conversion best p
  = negb (format_eqb (GST_VIDEO_INFO_FORMAT best) (format fi))
    || g_strcmp0 (gst_video_colorimetry_to_string (colorimetry (pad_info p)))
         (gst_video_colorimetry_to_string (colorimetry best))
    || g_strcmp0 (gst_video_chroma_to_string (chroma_site (pad_info p)))
         (gst_video_chroma_to_string (chroma_site best)).
Proof.
  intros H. unfold needs_conversion. unfold GST_VIDEO_INFO_FORMAT at 2.
  rewrite H. reflexivity.
Qed.

Lemma update_converters_pads_fail (best : GstVideoInfo) (pads : list GstBasemixerPad) :
  snd (update_converters_pads best pads) = false
  <-> exists p, In p pads /\ converter_missing best p.
Proof.
  induction pads as [|p tl IH].
  - simpl. split; [discriminate|intros [p [[] _]]].
  - simpl. destruct (update_converters_pads best tl) as [tl' ok]. simpl in IH.
    assert (Htl : ok = false -> exists q, In q (p :: tl) /\ converter_missing best q).
    { intros Hok. destruct (proj1 IH Hok) as [q [Hq Hm]]. exists q. split; [right|]; auto. }
    destruct (finfo (pad_info p)) as [fi|] eqn:Efi.
    + destruct (format_eqb (format fi) GST_VIDEO_FORMAT_UNKNOWN) eqn:Ef.
      * simpl. split; [exact Htl|].
        intros [q [[<-|Hq] Hm]]; [|apply IH; eauto].
        destruct Hm as [Hm _]. unfold format_known in Hm. rewrite Efi, Ef in Hm.
        discriminate.
      * cbn [pad_info set_convert colorimetry chroma_site].
        rewrite <- (needs_conversion_eq best p fi Efi).
        destruct (needs_conversion best p) eqn:En.
        -- destruct (videoconvert_convert_new (pad_info p) best) as [c|] eqn:Ec.
           ++ simpl. split; [exact Htl|].
              intros [q [[<-|Hq] Hm]]; [|apply IH; eauto].
              destruct Hm as [_ [_ Hm]]. rewrite Ec in Hm. discriminate.
           ++ simpl. split; [|reflexivity]. intros _.
              exists p. split; [left; reflexivity|].
              unfold converter_missing, format_known. rewrite Efi, Ef. auto.
        -- simpl. split; [exact Htl|].
           intros [q [[<-|Hq] Hm]]; [|apply IH; eauto].
           destruct Hm as [_ [Hm _]]. rewrite En in Hm. discriminate.
    + simpl. split; [exact Htl|].
      intros [q [[<-|Hq] Hm]]; [|apply IH; eauto].
      destruct Hm as [Hm _]. unfold format_known in Hm. rewrite Efi in Hm.
      discriminate.
Qed.

(** X26: with caps allowed by downstream and no alpha channel missing,
    [gst_basemixer_update_converters] fails exactly when some pad with a known
    format differs from the elected output and no converter can be made for
    it; it posts no error then. *)
Theorem converters_fail_without_converter (klass : GstBasemixerClass)
    (mix : GstBasemixer) (ds : GstCaps) :
  allowed_downstream_caps klass mix = Some ds ->
  gst_caps_is_empty ds = false ->
  snd (elect_format ds (sinkpads mix))
  && negb (info_has_alpha (fst (elect_format ds (sinkpads mix)))) = false ->
  let '(mix', eff, ok) := gst_basemixer_update_converters klass mix in
  eff = []
  /\ (ok = false
      <-> exists p, In p (sinkpads mix)
                    /\ converter_missing (fst (elect_format ds (sinkpads mix))) p).
Proof.
  intros Hds Hne Halpha. unfold gst_basemixer_update_converters. rewrite Hds, Hne.
  destruct (elect_format ds (sinkpads mix)) as [best one_alpha]. simpl in Halpha.
  rewrite Halpha. cbn [sinkpads set_mix_info].
  pose proof (update_converters_pads_fail best (sinkpads mix)) as Hf.
  destruct (update_converters_pads best (sinkpads mix)) as [pads ok].
  simpl in *. split; [reflexivity|exact Hf].
Qed.

(** * The announcement of the source caps *)

Lemma aggregate_locked_caps (klass : GstBasemixerClass) (m0 mix' : GstBasemixer)
    (eff : list Effect) (ret : GstFlowReturn) :
  aggregate_locked klass m0 = Some (mix', eff, ret) ->
  send_caps mix' = send_caps m0 /\ current_caps mix' = current_caps m0
  /\ forall c, ~ In (SetSrcCaps c) eff.
Proof.
  rewrite aggregate_locked_unfold.
  destruct (gst_basemixer_fill_queues m0 _ _) as [[m1 r]|]; [|discriminate].
  cbv zeta.
  set (m := set_pads (set_pending_tags m0 None) (sinkpads m1)).
  assert (Htags : forall c, ~ In (SetSrcCaps c) (tags_effect m0)).
  { intros c Hin. destruct (tags_effect_is_tags _ _ Hin) as [t Ht]. discriminate. }
  destruct (r =? 0); [|destruct (r =? -1); [|destruct (r =? -2)]].
  - intros H; inversion H; subst. repeat split; auto.
  - intros H; inversion H; subst. repeat split; auto.
    intros c Hin. apply in_app_or in Hin. destruct Hin as [Hin|[Hin|[]]].
    + exact (Htags c Hin).
    + discriminate.
  - intros H; inversion H; subst. repeat split; auto.
  - destruct (gst_basemixer_do_qos m0 (output_start_time_of m0) <=? 0).
    + unfold aggregate_blend.
      pose proof (blend_buffers_frame klass m (output_start_time_of m0)
                    (output_end_time_of m0)) as Fr.
      pose proof (blend_buffers_effects klass m (output_start_time_of m0)
                    (output_end_time_of m0)) as Fe.
      destruct (gst_basemixer_blend_buffers klass m _ _) as [[mb effb] ob].
      simpl in Fr, Fe.
      intros H; inversion H; subst. split; [|split].
      * rewrite Fr. reflexivity.
      * rewrite Fr. reflexivity.
      * intros c Hin. apply in_app_or in Hin. destruct Hin as [Hin|Hin].
        -- exact (Htags c Hin).
        -- apply in_app_or in Hin. destruct Hin as [Hin|[Hin|[]]].
           ++ destruct (Fe _ Hin) as [p [s Hs]]. discriminate.
           ++ discriminate.
    + unfold aggregate_drop. cbv zeta.
      intros H; inversion H; subst. repeat split; auto.
      intros c Hin. apply in_app_or in Hin. destruct Hin as [Hin|[Hin|[]]].
      * exact (Htags c Hin).
      * discriminate.
Qed.

(** X27: the source caps are announced once.  A tick of a negotiated mixer
    with caps to send, without a pending reconfigure, announces the current
    caps first and clears the flag; the current caps stay, and the tick that
    follows, whatever the pads have received, announces nothing. *)
Theorem caps_are_announced_once (klass : GstBasemixerClass)
    (mix mix1 : GstBasemixer) (eff1 : list Effect) (ret1 : GstFlowReturn) :
  format_eqb (GST_VIDEO_INFO_FORMAT (mix_info mix)) GST_VIDEO_FORMAT_UNKNOWN = false ->
  srcpad_need_reconfigure (agg mix) = false ->
  send_caps mix = true ->
  gst_basemixer_aggregate klass mix = Some (mix1, eff1, ret1) ->
  (exists rest, eff1 = SetSrcCaps (current_caps mix) :: rest
                /\ forall c, ~ In (SetSrcCaps c) rest)
  /\ send_caps mix1 = false /\ current_caps mix1 = current_caps mix
  /\ forall upstream mix2 eff2 ret2,
       gst_basemixer_aggregate klass (set_pads mix1 (feed (sinkpads mix1) upstream))
       = Some (mix2, eff2, ret2) ->
       forall c, ~ In (SetSrcCaps c) eff2.
Proof.
  intros Hf Hr Hs Hagg.
  destruct (aggregate_timing klass mix mix1 eff1 ret1 Hr Hagg) as [Hinfo [_ Hcad]].
  assert (Hp : aggregate_prepare klass mix
               = (set_caps mix (current_caps mix) false, [SetSrcCaps (current_caps mix)])).
  { unfold aggregate_prepare. rewrite Hr, Hs. reflexivity. }
  rewrite (gst_basemixer_aggregate_unfold klass mix _ _ Hf Hp) in Hagg.
  destruct (aggregate_locked klass _) as [[[m effl] r]|] eqn:E; [|discriminate].
  inversion Hagg; subst. clear Hagg.
  destruct (aggregate_locked_caps klass _ _ _ _ E) as [C1 [C2 C3]].
  simpl in C1, C2.
  split; [exists effl; split; [reflexivity|exact C3]|].
  split; [exact C1|]. split; [exact C2|].
  intros upstream mix2 eff2 ret2 Hagg2.
  set (m' := set_pads mix1 (feed (sinkpads mix1) upstream)) in *.
  assert (Hr' : srcpad_need_reconfigure (agg m') = false).
  { unfold m'. simpl. destruct Hcad as [[Ha _]|[Ha _]]; rewrite Ha; [exact Hr|reflexivity]. }
  assert (Hf' : format_eqb (GST_VIDEO_INFO_FORMAT (mix_info m')) GST_VIDEO_FORMAT_UNKNOWN
                = false).
  { unfold m'. simpl. rewrite Hinfo. exact Hf. }
  assert (Hp' : aggregate_prepare klass m' = (m', [])).
  { unfold aggregate_prepare. rewrite Hr'.
    change (send_caps m') with (send_caps mix1). rewrite C1. reflexivity. }
  rewrite (gst_basemixer_aggregate_unfold klass m' _ _ Hf' Hp') in Hagg2.
  destruct (aggregate_locked klass m') as [[[m2 effl2] r2]|] eqn:E2; [|discriminate].
  inversion Hagg2; subst.
  destruct (aggregate_locked_caps klass _ _ _ _ E2) as [_ [_ C3']].
  exact C3'.
Qed.

(** * Every frame is either pushed or counted as dropped *)

(** X28: a tick of a negotiated mixer whose queue filler answers OK always
    completes and accounts for one frame: it pushes a buffer exactly when the
    QoS jitter is not positive and posts a QoS message exactly when it is
    positive; either way the frame count is incremented, the position moves
    to the end of the frame, and the sum of the processed and dropped counts
    grows by one. *)
Theorem frame_is_pushed_or_dropped (klass : GstBasemixerClass) (mix m0 : GstBasemixer)
    (eff_caps : list Effect) :
  format_eqb (GST_VIDEO_INFO_FORMAT (mix_info mix)) GST_VIDEO_FORMAT_UNKNOWN = false ->
  aggregate_prepare klass mix = (m0, eff_caps) ->
  fill_answer m0 = Some 1 ->
  exists mix' eff ret,
    gst_basemixer_aggregate klass mix = Some (mix', eff, ret)
    /\ ((exists b, In (FinishBuffer b) eff)
        <-> gst_basemixer_do_qos m0 (output_start_time_of m0) <= 0)
    /\ ((exists rt st ts du j pr q pc dr,
           In (PostQosMessage rt st ts du j pr q pc dr) eff)
        <-> 0 < gst_basemixer_do_qos m0 (output_start_time_of m0))
    /\ nframes mix' = u64 (nframes m0 + 1)
    /\ position (segment (agg mix')) = output_end_time_of m0
    /\ u64 (qos_processed mix' + qos_dropped mix')
       = u64 (qos_processed m0 + qos_dropped m0 + 1).
Proof.
  intros Hf Hp Hfill.
  rewrite (gst_basemixer_aggregate_unfold klass mix m0 eff_caps Hf Hp).
  destruct (aggregate_locked_ok klass m0 Hfill) as [m1 Hagg].
  rewrite Hagg. cbv zeta.
  assert (Hcaps : forall e, In e eff_caps -> exists c, e = SetSrcCaps c)
    by exact (aggregate_prepare_effects klass mix m0 eff_caps Hp).
  destruct (gst_basemixer_do_qos m0 (output_start_time_of m0) <=? 0) eqn:E.
  - apply Z.leb_le in E. unfold aggregate_blend.
    set (m := set_pads (set_pending_tags m0 None) (sinkpads m1)).
    pose proof (blend_buffers_frame klass m (output_start_time_of m0)
                  (output_end_time_of m0)) as Fr.
    pose proof (blend_buffers_effects klass m (output_start_time_of m0)
                  (output_end_time_of m0)) as Fe.
    destruct (gst_basemixer_blend_buffers klass m _ _) as [[mb effb] ob].
    simpl in Fr, Fe.
    eexists _, _, _. split; [reflexivity|]. split; [|split; [|split; [|split]]].
    + split; [intros _; exact E|]. intros _. exists ob.
      apply in_or_app. right. apply in_or_app. right. apply in_or_app. right.
      left. reflexivity.
    + split; [|lia].
      intros [rt [st [ts [du [j [pr [q [pc [dr Hin]]]]]]]]]. exfalso.
      apply in_app_or in Hin. destruct Hin as [Hin|Hin].
      * destruct (Hcaps _ Hin) as [c Hc]. discriminate.
      * apply in_app_or in Hin. destruct Hin as [Hin|Hin].
        -- exact (tags_effect_no_qos _ _ _ _ _ _ _ _ _ _ Hin).
        -- apply in_app_or in Hin. destruct Hin as [Hin|[Hin|[]]]; [|discriminate].
           destruct (Fe _ Hin) as [p [s Hs]]. discriminate.
    + rewrite Fr. reflexivity.
    + rewrite Fr. reflexivity.
    + rewrite Fr. simpl. unfold u64. rewrite Zplus_mod_idemp_l. f_equal. lia.
  - apply Z.leb_gt in E. unfold aggregate_drop. cbv zeta.
    eexists _, _, _. split; [reflexivity|]. split; [|split; [|split; [|split]]].
    + split; [|lia]. intros [b Hin]. exfalso.
      apply in_app_or in Hin. destruct Hin as [Hin|Hin].
      * destruct (Hcaps _ Hin) as [c Hc]. discriminate.
      * apply in_app_or in Hin. destruct Hin as [Hin|[Hin|[]]]; [|discriminate].
        destruct (tags_effect_is_tags _ _ Hin) as [t Ht]. discriminate.
    + split; [intros _; exact E|]. intros _.
      do 9 eexists. apply in_or_app. right. apply in_or_app. right. left. reflexivity.
    + reflexivity.
    + reflexivity.
    + simpl. unfold u64. rewrite Zplus_mod_idemp_r. f_equal. lia.
Qed.

(** * The format election without alpha *)

(** Whether [pad] counts for the format with the integer value [code]. *)
Definition pad_votes (ds : GstCaps) (code : Z) (pad : GstBasemixerPad) : bool :=
  eligible ds pad && (format_code (GST_VIDEO_INFO_FORMAT (pad_info pad)) =? code).

(** The number of the pads of [pads] that count for [code]. *)
Definition votes (ds : GstCaps) (code : Z) (pads : list GstBasemixerPad) : Z :=
  Z.of_nat (List.length (List.filter (pad_votes ds code) pads)).

Lemma votes_snoc (ds : GstCaps) (code : Z) (seen : list GstBasemixerPad)
    (pad : GstBasemixerPad) :
  votes ds code (seen ++ [pad])
  = votes ds code seen + (if pad_votes ds code pad then 1 else 0).
Proof.
  unfold votes. rewrite List.filter_app, length_app. simpl.
  destruct (pad_votes ds code pad); simpl; lia.
Qed.

Lemma votes_nonneg (ds : GstCaps) (code : Z) (pads : list GstBasemixerPad) :
  0 <= votes ds code pads.
Proof. unfold votes. lia. Qed.

(** What the election loop knows after the pads [seen], none of which has an
    alpha format. *)
Record tally_facts (ds : GstCaps) (seen : list GstBasemixerPad) (e : Election)
  : Prop := {
  tf_no_alpha : need_alpha e = false;
  tf_table : forall code, default 0 (formats_table e !! code) = votes ds code seen;
  tf_bound : forall code, votes ds code seen <= best_format_number e;
  tf_best :
    (best_format_number e = 0
     /\ best_format e = GST_VIDEO_FORMAT_UNKNOWN
     /\ Forall (fun p => eligible ds p = false) seen)
    \/ (exists pad, In pad seen /\ eligible ds pad = true
                    /\ best_info e = pad_info pad
                    /\ best_format e = GST_VIDEO_INFO_FORMAT (pad_info pad)
                    /\ best_format_number e
                       = votes ds (format_code (best_format e)) seen)
}.

Lemma tally_facts_skip (ds : GstCaps) (seen : list GstBasemixerPad) (e e' : Election)
    (pad : GstBasemixerPad) :
  tally_facts ds seen e ->
  eligible ds pad = false ->
  need_alpha e' = need_alpha e ->
  best_format e' = best_format e ->
  best_info e' = best_info e ->
  best_format_number e' = best_format_number e ->
  formats_table e' = formats_table e ->
  tally_facts ds (seen ++ [pad]) e'.
Proof.
  intros [F1 F2 F3 F4] He H1 H2 H3 H4 H5.
  assert (Hv : forall code, votes ds code (seen ++ [pad]) = votes ds code seen).
  { intros code. rewrite votes_snoc. unfold pad_votes. rewrite He. simpl. lia. }
  constructor.
  - congruence.
  - intros code. rewrite H5, Hv. apply F2.
  - intros code. rewrite H4, Hv. apply F3.
  - rewrite H2, H3, H4. destruct F4 as [[G1 [G2 G3]]|[p [G1 [G2 [G3 [G4 G5]]]]]].
    + left. split; [exact G1|]. split; [exact G2|].
      apply Forall_app. split; [exact G3|]. constructor; [exact He|constructor].
    + right. exists p. split; [apply in_or_app; left; exact G1|].
      split; [exact G2|]. split; [exact G3|]. split; [exact G4|].
      rewrite Hv. exact G5.
Qed.

Lemma tally_facts_step (ds : GstCaps) (seen : list GstBasemixerPad) (e : Election)
    (pad : GstBasemixerPad) :
  tally_facts ds seen e ->
  info_has_alpha (pad_info pad) = false ->
  tally_facts ds (seen ++ [pad]) (elect_pad ds e pad).
Proof.
  intros F Ha. pose proof F as [F1 F2 F3 F4].
  unfold elect_pad. unfold info_has_alpha in Ha.
  destruct (finfo (pad_info pad)) as [fi|] eqn:Efi.
  2:{ apply (tally_facts_skip ds seen e e pad F); try reflexivity.
      unfold eligible. rewrite Efi. reflexivity. }
  rewrite F1, Ha. cbn [andb negb].
  destruct (format_eqb (format fi) GST_VIDEO_FORMAT_UNKNOWN) eqn:Ef.
  { apply (tally_facts_skip ds seen e _ pad F); try reflexivity;
      try (cbn; congruence).
    unfold eligible. rewrite Efi, Ef. reflexivity. }
  destruct (gst_caps_can_intersect ds
              (caps_remove_geometry_fields (gst_video_info_to_caps (pad_info pad))))
    eqn:Ec; cbn [negb].
  2:{ apply (tally_facts_skip ds seen e _ pad F); try reflexivity;
      try (cbn; congruence).
      unfold eligible. rewrite Efi, Ef, Ec. reflexivity. }
  assert (He : eligible ds pad = true).
  { unfold eligible. rewrite Efi, Ef, Ec. reflexivity. }
  assert (Hfmt : GST_VIDEO_INFO_FORMAT (pad_info pad) = format fi).
  { unfold GST_VIDEO_INFO_FORMAT. rewrite Efi. reflexivity. }
  set (key := format_code (format fi)).
  assert (Hkey : votes ds key (seen ++ [pad]) = votes ds key seen + 1).
  { rewrite votes_snoc. unfold pad_votes. rewrite He, Hfmt. fold key.
    rewrite Z.eqb_refl. reflexivity. }
  assert (Hne : forall code, code <> key ->
                  votes ds code (seen ++ [pad]) = votes ds code seen).
  { intros code Hc. rewrite votes_snoc. unfold pad_votes. rewrite He, Hfmt. fold key.
    replace (key =? code) with false by (symmetry; apply Z.eqb_neq; congruence).
    simpl. lia. }
  assert (Htable : forall code,
            default 0 (<[key := votes ds key seen + 1]> (formats_table e) !! code)
            = votes ds code (seen ++ [pad])).
  { intros code. destruct (Z.eq_dec code key) as [->|Hc].
    - rewrite lookup_insert_eq. simpl. rewrite Hkey. reflexivity.
    - rewrite lookup_insert_ne by congruence. rewrite Hne by exact Hc. apply F2. }
  rewrite F2.
  destruct (votes ds key seen + 1 >? best_format_number e) eqn:Eg.
  - apply Z.gtb_lt in Eg. constructor; cbn.
    + reflexivity.
    + exact Htable.
    + intros code. destruct (Z.eq_dec code key) as [->|Hc].
      * rewrite Hkey. lia.
      * rewrite Hne by exact Hc. specialize (F3 code). lia.
    + right. exists pad. split; [apply in_or_app; right; left; reflexivity|].
      split; [exact He|]. split; [reflexivity|]. split; [symmetry; exact Hfmt|].
      fold key. symmetry. exact Hkey.
  - rewrite Z.gtb_ltb in Eg. apply Z.ltb_ge in Eg. constructor; cbn.
    + reflexivity.
    + exact Htable.
    + intros code. destruct (Z.eq_dec code key) as [->|Hc].
      * rewrite Hkey. lia.
      * rewrite Hne by exact Hc. apply F3.
    + destruct F4 as [[G1 _]|[p [G1 [G2 [G3 [G4 G5]]]]]].
      * pose proof (votes_nonneg ds key seen). lia.
      * right. exists p. split; [apply in_or_app; left; exact G1|].
        split; [exact G2|]. split; [exact G3|]. split; [exact G4|].
        rewrite Hne; [exact G5|]. intros Hc. rewrite Hc in G5. lia.
Qed.

Lemma tally_facts_fold (ds : GstCaps) (pads seen : list GstBasemixerPad) (e : Election) :
  tally_facts ds seen e ->
  Forall (fun p => info_has_alpha (pad_info p) = false) pads ->
  tally_facts ds (seen ++ pads) (fold_left (elect_pad ds) pads e).
Proof.
  revert seen e. induction pads as [|p tl IH]; intros seen e F Ha.
  - simpl. rewrite app_nil_r. exact F.
  - inversion Ha as [|? ? Hp Htl]; subst. simpl.
    replace (seen ++ p :: tl) with ((seen ++ [p]) ++ tl)
      by (rewrite <- app_assoc; reflexivity).
    apply IH; [|exact Htl]. apply tally_facts_step; assumption.
Qed.

Lemma tally_facts_init (ds : GstCaps) : tally_facts ds [] election_init.
Proof.
  constructor.
  - reflexivity.
  - intros code. reflexivity.
  - intros code. simpl. unfold votes. simpl. lia.
  - left. split; [reflexivity|]. split; [reflexivity|]. constructor.
Qed.

(** X29: when no pad has an alpha format and some pad has a known format that
    downstream accepts, the election retains the info of such a pad, and no
    format is carried by more of these pads than the format of the retained
    info. *)
Theorem elected_format_has_the_most_pads (ds : GstCaps) (pads : list GstBasemixerPad) :
  Forall (fun p => info_has_alpha (pad_info p) = false) pads ->
  (exists p, In p pads /\ eligible ds p = true) ->
  exists pad,
    In pad pads /\ eligible ds pad = true
    /\ fst (elect_format ds pads) = pad_info pad
    /\ forall code,
         votes ds code pads
         <= votes ds (format_code (GST_VIDEO_INFO_FORMAT (pad_info pad))) pads.
Proof.
  intros Ha [p [Hin Hp]].
  pose proof (tally_facts_fold ds pads [] election_init (tally_facts_init ds) Ha) as F.
  simpl in F. destruct F as [F1 F2 F3 F4].
  destruct F4 as [[_ [_ G]]|[pad [G1 [G2 [G3 [G4 G5]]]]]].
  - rewrite List.Forall_forall in G. rewrite (G p Hin) in Hp. discriminate.
  - exists pad. split; [exact G1|]. split; [exact G2|]. split.
    + unfold elect_format. cbv zeta. cbn [fst]. rewrite G4.
      unfold eligible in G2. unfold GST_VIDEO_INFO_FORMAT.
      destruct (finfo (pad_info pad)) as [fi|]; [|discriminate].
      apply andb_true_iff in G2. destruct G2 as [G2 _].
      apply negb_true_iff in G2. rewrite G2. exact G3.
    + intros code. rewrite <- G4, <- G5. apply F3.
Qed.

End Properties.

(** * The properties on the sample pipelines *)

Example scenario_two_inputs :
  let b := update_src_caps_best two_input_mixer in
  (best_width b, best_height b, best_fps_n b, best_fps_d b) = (320, 240, 10, 1).
Proof. reflexivity. Qed.

Example scenario_alpha_downstream :
  gst_basemixer_update_converters gst_videomixer2_class alpha_mixer
  = (alpha_mixer, [ElementErrorNegotiation], false).
Proof. reflexivity. Qed.

Example scenario_late_frame :
  option_map (fun x => (qos_dropped (fst (fst x)), position (segment (agg (fst (fst x)))),
                        emitted_timestamps (snd (fst x))))
    (gst_basemixer_aggregate gst_videomixer2_class late_mixer)
  = Some (1, 40000000, []).
Proof. reflexivity. Qed.

Example scenario_seek_rate_two :
  rate (segment (agg double_rate_mixer)) = d_two
  /\ ts_offset double_rate_mixer = 0 /\ nframes double_rate_mixer = 0
  /\ position (segment (agg double_rate_mixer)) = GST_CLOCK_TIME_NONE
  /\ map pad_buffer (sinkpads double_rate_mixer) = [None].
Proof. repeat split; reflexivity. Qed.

(** C1, the claim as it is stated fails: at rate 2.0 a buffer whose
    running-time interval is [1 s, 2 s] is assigned [2 s, 4 s] by the clip
    step and by the queue filler, not [0.5 s, 1 s]. *)
Lemma rate_two_doubles_intervals :
  clip_to_running (host := open_host) (bpad_segment (bpad late_pad))
    1000000000 2000000000
  = (1000000000, 2000000000)
  /\ sink_clip_interval double_rate_mixer late_pad second_second
     = Some (2000000000, 4000000000)
  /\ (exists pad',
        fill_queues_pad (host := open_host)
          (rate (segment (agg double_rate_mixer))) 0 4000000000 late_pad
        = PadNext pad' false true
        /\ pad_buffer pad' = Some second_second
        /\ start_time pad' = 2000000000 /\ end_time pad' = 4000000000)
  /\ sink_clip_interval double_rate_mixer late_pad second_second
     <> Some (div_by_double 1000000000 d_two, div_by_double 2000000000 d_two).
Proof.
  split; [reflexivity|]. split; [reflexivity|]. split.
  - eexists. split; [reflexivity|]. repeat split; reflexivity.
  - vm_compute. discriminate.
Qed.

Lemma interval_multiplied_by_rate_witness :
  deq (ABS (rate (segment (agg double_rate_mixer)))) d_one = false
  /\ mul_by_double 1000000000 (ABS (rate (segment (agg double_rate_mixer))))
     = 2 * 1000000000.
Proof.
  split; [reflexivity|].
  apply (interval_multiplied_by_rate double_rate_mixer late_pad late_pad
           second_second second_second info_i420_25 0 0 false 0 0 eq_refl).
  - reflexivity.
  - vm_compute. split; [discriminate|reflexivity].
Defined.


(** A caps event on a sink pad does not keep the cadence anchored: after
    four ticks at 25 frames per second the position is 160 ms; caps at 60
    frames per second on the sink pad are accepted without a flush, a seek or
    a pending renegotiation, the output framerate becomes 60/1 with the frame
    count and the time offset as they were, and the next frame ends at 83 ms.
    The ticks that follow push buffers stamped 160 ms, 83 ms and 100 ms. *)
Example sink_caps_event_moves_cadence_back :
  option_map trace_timestamps
    (run_ticks gst_videomixer2_class i420_mixer
       [[bpad fed_pad]; [bpad fed_pad]; [bpad fed_pad]; [bpad fed_pad]])
  = Some [0; 40000000; 80000000; 120000000]
  /\ snd (gst_basemixer_pad_sink_setcaps gst_videomixer2_class four_ticks_mixer 1
            caps_i420_60) = true
  /\ srcpad_need_reconfigure (agg faster_caps_mixer) = false
  /\ (fps_n (mix_info faster_caps_mixer), fps_d (mix_info faster_caps_mixer)) = (60, 1)
  /\ (nframes faster_caps_mixer, ts_offset faster_caps_mixer) = (4, 0)
  /\ output_start_time_of faster_caps_mixer = 160000000
  /\ output_end_time_of faster_caps_mixer = 83333333
  /\ option_map trace_timestamps
       (run_ticks gst_videomixer2_class faster_caps_mixer
          [[bpad fed_pad]; [bpad fed_pad]; [bpad fed_pad]])
     = Some [160000000; 83333333; 100000000].
Proof. repeat split; reflexivity. Qed.

Lemma update_src_caps_selects_best_witness :
  (forall p, In p (sinkpads two_input_mixer) -> contributes p -> 0 <= fps_d (pad_info p))
  /\ update_src_caps_best two_input_mixer
     = update_src_caps_scan (sinkpads two_input_mixer)
  /\ best_fps_n (update_src_caps_best two_input_mixer) = 10
  /\ best_fps_d (update_src_caps_best two_input_mixer) = 1.
Proof.
  assert (Hden : forall p, In p (sinkpads two_input_mixer) -> contributes p ->
                   0 <= fps_d (pad_info p)).
  { intros p [<-|[<-|[]]] _; simpl; lia. }
  assert (Hex : exists p, In p (sinkpads two_input_mixer) /\ contributes p
                          /\ dlt d_zero (cur_fps_of (pad_info p)) = true).
  { exists (sample_pad 2 info_ayuv_10 None false).
    split; [right; left; reflexivity|]. split; [split; discriminate|reflexivity]. }
  pose proof (update_src_caps_selects_best gst_videomixer2_class two_input_mixer) as H.
  cbv zeta in H. destruct H as [_ [_ [_ [_ [_ [H _]]]]]].
  split; [exact Hden|]. split; [exact (proj1 (H Hden Hex))|]. split; reflexivity.
Defined.


Lemma late_frame_is_dropped_witness :
  aggregate_prepare gst_videomixer2_class late_mixer = (late_mixer, [])
  /\ fill_answer late_mixer = Some 1
  /\ 0 < gst_basemixer_do_qos late_mixer (output_start_time_of late_mixer)
  /\ gst_basemixer_do_qos late_mixer (output_start_time_of late_mixer)
     = GST_CLOCK_DIFF
         (gst_segment_to_running_time (GstHost := open_host) (segment (agg late_mixer))
            (output_start_time_of late_mixer))
         (earliest_time late_mixer).
Proof.
  split; [reflexivity|]. split; [reflexivity|]. split; [reflexivity|].
  apply (late_frame_is_dropped gst_videomixer2_class late_mixer late_mixer []);
    reflexivity.
Defined.

Lemma alpha_input_needs_alpha_output_witness :
  allowed_downstream_caps gst_videomixer2_class alpha_mixer
  = Some [sample_info GST_VIDEO_FORMAT_I420 0 0 0 1]
  /\ gst_basemixer_update_converters gst_videomixer2_class alpha_mixer
     = (alpha_mixer, [ElementErrorNegotiation], false).
Proof.
  split; [reflexivity|].
  apply (alpha_input_needs_alpha_output gst_videomixer2_class alpha_mixer
           [sample_info GST_VIDEO_FORMAT_I420 0 0 0 1]).
  - reflexivity.
  - reflexivity.
  - exists (sample_pad 1 info_ayuv_10 None false). split; [left; reflexivity|reflexivity].
  - reflexivity.
Defined.

(** C7, the claim as it is stated fails: a buffer that ends exactly at the
    pad's current [end_time] passes the clip step. *)
Lemma clip_keeps_buffer_ending_at_end_time :
  sink_clip_interval plain_mixer held_pad second_second
  = Some (1000000000, 2000000000)
  /\ end_time held_pad = 2000000000
  /\ bpad_buffer (bpad held_pad) <> None
  /\ gst_basemixer_sink_clip plain_mixer held_pad second_second
     = (GST_FLOW_OK, Some second_second).
Proof. repeat split; try reflexivity. discriminate. Qed.

(** C8, the claim as it is stated fails: the transition to READY leaves the
    announced caps and the queued buffer of a pad in place. *)
Lemma ready_keeps_caps_and_queued :
  let mix' := gst_basemixer_change_state announced_mixer GST_STATE_CHANGE_PAUSED_TO_READY in
  current_caps mix' = Some [info_i420_25]
  /\ map queued (sinkpads mix') = [Some first_second].
Proof. split; reflexivity. Qed.

Lemma zorder_sorted_and_composited_in_order_witness :
  pads_inv fresh_mixer
  /\ Forall op_in_range sample_pad_ops
  /\ Z.of_nat (List.length (sinkpads fresh_mixer))
     + Z.of_nat (List.length sample_pad_ops) < 2 ^ 31
  /\ zsorted (sinkpads (fold_left (apply_pad_op gst_videomixer2_class) sample_pad_ops
                          fresh_mixer)).
Proof.
  assert (Hops : Forall op_in_range sample_pad_ops).
  { repeat constructor; simpl; lia. }
  assert (Hlen : Z.of_nat (List.length (sinkpads fresh_mixer))
                 + Z.of_nat (List.length sample_pad_ops) < 2 ^ 31) by reflexivity.
  split; [apply init_pads_inv|]. split; [exact Hops|]. split; [exact Hlen|].
  exact (proj1 (zorder_sorted_and_composited_in_order fresh_mixer sample_pad_ops 0 0
                  init_pads_inv Hops Hlen) 5%nat).
Defined.

Lemma no_drop_without_observation_witness :
  aggregate_prepare gst_videomixer2_class plain_mixer = (plain_mixer, [])
  /\ earliest_time plain_mixer = GST_CLOCK_TIME_NONE
  /\ gst_basemixer_do_qos plain_mixer (output_start_time_of plain_mixer) = -1.
Proof.
  split; [reflexivity|]. split; [reflexivity|].
  apply (no_drop_without_observation gst_videomixer2_class plain_mixer plain_mixer []).
  - reflexivity.
  - reflexivity.
  - left. reflexivity.
Defined.

(** * Instances of the further properties *)

Lemma zorder_write_is_stable_witness :
  Forall zorder_small (sinkpads stacked_mixer)
  /\ 0 <= 2 <= 10000
  /\ map pad_name
       (List.filter (fun p => zorder p =? 2)
          (sinkpads (gst_basemixer_pad_set_property stacked_mixer 1 2)))
     = [1; 3].
Proof.
  assert (H1 : Forall zorder_small (sinkpads stacked_mixer)).
  { apply zorder_small_check. reflexivity. }
  assert (H2 : 0 <= 2 <= 10000) by lia.
  split; [exact H1|]. split; [exact H2|].
  rewrite (zorder_write_is_stable stacked_mixer 1 2 2 H1 H2). reflexivity.
Defined.

Lemma requested_pads_stack_in_order_witness :
  Z.of_nat (List.length [new_pad 7; new_pad 5; new_pad 9]) < 2 ^ 31
  /\ map pad_name
       (sinkpads (request_pads (host := open_host) (gst_basemixer_init zeroed_basemixer)
                    [new_pad 7; new_pad 5; new_pad 9]))
     = [7; 5; 9].
Proof.
  assert (H : Z.of_nat (List.length [new_pad 7; new_pad 5; new_pad 9]) < 2 ^ 31)
    by reflexivity.
  split; [exact H|].
  exact (proj1 (requested_pads_stack_in_order (host := open_host)
                  [new_pad 7; new_pad 5; new_pad 9] H)).
Defined.

Lemma release_of_unknown_pad_witness :
  ~ In 4 (map pad_name (sinkpads stacked_mixer))
  /\ gst_basemixer_release_pad gst_videomixer2_class stacked_mixer 4
     = (stacked_mixer, []).
Proof.
  assert (H : ~ In 4 (map pad_name (sinkpads stacked_mixer))).
  { simpl. intros [H|[H|[H|[]]]]; discriminate. }
  split; [exact H|].
  exact (release_of_unknown_pad gst_videomixer2_class stacked_mixer 4 H).
Defined.

Lemma request_then_release_witness :
  ~ In 4 (map pad_name (sinkpads stacked_mixer))
  /\ 0 <= numpads stacked_mixer < 2 ^ 32
  /\ let '(m1, eff1) := gst_basemixer_request_new_pad stacked_mixer (Some (new_pad 4)) in
     let '(m2, eff2) :=
       gst_basemixer_release_pad gst_videomixer2_class m1 (pad_name (new_pad 4)) in
     map pad_name (sinkpads m2) = map pad_name (sinkpads stacked_mixer)
     /\ map zorder (sinkpads m2) = map zorder (sinkpads stacked_mixer)
     /\ numpads m2 = numpads stacked_mixer
     /\ eff1 = [ChildAdded (pad_name (new_pad 4))]
     /\ exists eff, eff2 = ChildRemoved (pad_name (new_pad 4)) :: eff.
Proof.
  assert (H1 : ~ In 4 (map pad_name (sinkpads stacked_mixer))).
  { simpl. intros [H|[H|[H|[]]]]; discriminate. }
  assert (H2 : 0 <= numpads stacked_mixer < 2 ^ 32).
  { change (numpads stacked_mixer) with 3. change (2 ^ 32) with 4294967296. lia. }
  split; [exact H1|]. split; [exact H2|].
  exact (request_then_release stacked_mixer (new_pad 4) H1 H2).
Defined.

Lemma children_are_indexed_witness :
  pads_inv fresh_mixer
  /\ Forall op_in_range sample_pad_ops
  /\ Z.of_nat (List.length (sinkpads fresh_mixer))
     + Z.of_nat (List.length sample_pad_ops) < 2 ^ 31
  /\ (gst_basemixer_child_proxy_get_child_by_index
        (fold_left (apply_pad_op gst_videomixer2_class) sample_pad_ops fresh_mixer) 1
      <> None
      <-> 1 < gst_basemixer_child_proxy_get_children_count
                (fold_left (apply_pad_op gst_videomixer2_class) sample_pad_ops
                   fresh_mixer)).
Proof.
  assert (Hops : Forall op_in_range sample_pad_ops).
  { repeat constructor; simpl; lia. }
  assert (Hlen : Z.of_nat (List.length (sinkpads fresh_mixer))
                 + Z.of_nat (List.length sample_pad_ops) < 2 ^ 31) by reflexivity.
  split; [apply init_pads_inv|]. split; [exact Hops|]. split; [exact Hlen|].
  exact (proj1 (children_are_indexed fresh_mixer sample_pad_ops
                  init_pads_inv Hops Hlen) 1 ltac:(lia)).
Defined.

Lemma update_src_caps_without_geometry_witness :
  (forall p, In p (sinkpads empty_mixer) -> ~ contributes p)
  /\ gst_basemixer_update_src_caps gst_videomixer2_class empty_mixer
     = (empty_mixer, true).
Proof.
  assert (H : forall p, In p (sinkpads empty_mixer) -> ~ contributes p).
  { intros p []. }
  split; [exact H|].
  exact (update_src_caps_without_geometry gst_videomixer2_class empty_mixer H).
Defined.

Lemma videomixer2_output_is_bounding_box_witness :
  (forall p, In p (sinkpads positioned_mixer) -> contributes p -> edges_in_range p)
  /\ snd (gst_videomixer2_modify_src_pad_info positioned_mixer info_i420_25) = true
  /\ forall p, In p (sinkpads positioned_mixer) -> contributes p ->
       width (pad_info p) + Z.max (xpos p) 0
       <= width (snd (fst (gst_videomixer2_modify_src_pad_info positioned_mixer
                             info_i420_25))).
Proof.
  assert (Hr : forall p, In p (sinkpads positioned_mixer) -> contributes p ->
                 edges_in_range p).
  { intros p [<-|[<-|[]]] _; vm_compute; intuition discriminate. }
  assert (Hok : snd (gst_videomixer2_modify_src_pad_info positioned_mixer info_i420_25)
                = true) by reflexivity.
  split; [exact Hr|]. split; [exact Hok|].
  pose proof (videomixer2_output_is_bounding_box positioned_mixer info_i420_25 Hr) as H.
  destruct (gst_videomixer2_modify_src_pad_info positioned_mixer info_i420_25)
    as [[mix' info'] ok].
  simpl in Hok. simpl. intros p Hp Hc.
  exact (proj1 (proj1 (proj1 H Hok) p Hp Hc)).
Defined.

Lemma eligible_alpha_pad_elects_alpha_witness :
  allowed_downstream_caps gst_videomixer2_class mixed_formats_mixer
  = Some [sample_info GST_VIDEO_FORMAT_AYUV 0 0 0 1]
  /\ info_has_alpha
       (fst (elect_format (host := ayuv_host) [sample_info GST_VIDEO_FORMAT_AYUV 0 0 0 1]
               (sinkpads mixed_formats_mixer))) = true.
Proof.
  split; [reflexivity|].
  apply (eligible_alpha_pad_elects_alpha gst_videomixer2_class mixed_formats_mixer
           [sample_info GST_VIDEO_FORMAT_AYUV 0 0 0 1]).
  - reflexivity.
  - reflexivity.
  - exists (sample_pad 1 info_ayuv_10 None false).
    split; [left; reflexivity|split; reflexivity].
Defined.

Lemma converters_match_the_output_witness :
  exists mix' : @GstBasemixer ayuv_host,
    gst_basemixer_update_converters gst_videomixer2_class mixed_formats_mixer
    = (mix', [], true)
    /\ Forall2 (converter_set (host := ayuv_host) (mix_info mix'))
         (sinkpads mixed_formats_mixer) (sinkpads mix').
Proof.
  destruct (gst_basemixer_update_converters gst_videomixer2_class mixed_formats_mixer)
    as [[mix' eff] ok] eqn:E.
  assert (Hr : snd (gst_basemixer_update_converters gst_videomixer2_class
                      mixed_formats_mixer) = true) by reflexivity.
  assert (He : snd (fst (gst_basemixer_update_converters gst_videomixer2_class
                           mixed_formats_mixer)) = []) by reflexivity.
  rewrite E in Hr, He. simpl in Hr, He. subst ok eff.
  exists mix'. split; [reflexivity|].
  exact (proj2 (proj2 (converters_match_the_output gst_videomixer2_class
                         mixed_formats_mixer mix' [] E))).
Defined.

Lemma src_setcaps_twice_witness :
  gst_video_info_from_caps (GstHost := open_host) [info_i420_5] <> None
  /\ gst_caps_is_equal (GstHost := open_host) [info_i420_5] [info_i420_5] = true
  /\ gst_basemixer_src_setcaps
       (fst (gst_basemixer_src_setcaps plain_mixer [info_i420_5])) [info_i420_5]
     = (fst (gst_basemixer_src_setcaps plain_mixer [info_i420_5]), true).
Proof.
  assert (H1 : gst_video_info_from_caps (GstHost := open_host) [info_i420_5] <> None)
    by discriminate.
  assert (H2 : gst_caps_is_equal (GstHost := open_host) [info_i420_5] [info_i420_5]
               = true) by reflexivity.
  split; [exact H1|]. split; [exact H2|].
  exact (src_setcaps_twice plain_mixer [info_i420_5] H1 H2).
Defined.

Lemma framerate_change_reanchors_witness :
  gst_video_info_from_caps (GstHost := open_host) [info_i420_5] = Some info_i420_5
  /\ position (segment (agg running_mixer)) <> GST_CLOCK_TIME_NONE
  /\ cadence_end (fst (gst_basemixer_src_setcaps running_mixer [info_i420_5]))
     = 1000000000 + (GST_SECOND * 1 + 5 / 2) / 5.
Proof.
  assert (H1 : gst_video_info_from_caps (GstHost := open_host) [info_i420_5]
               = Some info_i420_5) by reflexivity.
  assert (H2 : fps_n (mix_info running_mixer) <> fps_n info_i420_5
               \/ fps_d (mix_info running_mixer) <> fps_d info_i420_5)
    by (left; discriminate).
  assert (H3 : position (segment (agg running_mixer)) <> GST_CLOCK_TIME_NONE)
    by discriminate.
  assert (H4 : 0 <= start (segment (agg running_mixer))
               <= position (segment (agg running_mixer))) by (simpl; lia).
  assert (H5 : 0 < fps_n info_i420_5 <= G_MAXINT).
  { simpl. unfold G_MAXINT. change (2 ^ 31 - 1) with 2147483647. lia. }
  assert (H6 : 0 < fps_d info_i420_5 <= G_MAXINT).
  { simpl. unfold G_MAXINT. change (2 ^ 31 - 1) with 2147483647. lia. }
  assert (H7 : position (segment (agg running_mixer)) + GST_SECOND * fps_d info_i420_5
               < G_MAXUINT64).
  { simpl. unfold G_MAXUINT64, GST_SECOND.
    change (2 ^ 64 - 1) with 18446744073709551615. lia. }
  split; [exact H1|]. split; [exact H3|].
  exact (proj1 (proj2 (proj2 (proj2
           (framerate_change_reanchors running_mixer [info_i420_5] info_i420_5
              H1 H2 H3 H4 H5 H6 H7))))).
Defined.

Lemma untimestamped_buffer_is_an_error_witness :
  gst_basemixer_fill_queues unstamped_mixer 0 40000000 = Some (unstamped_mixer, -2)
  /\ exists pad, In pad (sinkpads unstamped_mixer) /\ untimestamped (host := open_host) pad.
Proof.
  assert (H : gst_basemixer_fill_queues unstamped_mixer 0 40000000
              = Some (unstamped_mixer, -2)) by reflexivity.
  split; [exact H|].
  exact (proj1 (proj1 (untimestamped_buffer_is_an_error unstamped_mixer unstamped_mixer
                         0 40000000 (-2) H)) eq_refl).
Defined.

Lemma idle_mixer_is_eos_witness :
  aggregate_prepare gst_videomixer2_class empty_mixer = (empty_mixer, [])
  /\ Forall (idle (host := open_host)) (sinkpads empty_mixer)
  /\ gst_basemixer_aggregate gst_videomixer2_class empty_mixer
     = Some (set_pending_tags empty_mixer None,
             [] ++ tags_effect empty_mixer ++ [PushEosEvent], GST_FLOW_EOS).
Proof.
  assert (H1 : format_eqb (GST_VIDEO_INFO_FORMAT (mix_info empty_mixer))
                 GST_VIDEO_FORMAT_UNKNOWN = false) by reflexivity.
  assert (H2 : aggregate_prepare gst_videomixer2_class empty_mixer = (empty_mixer, []))
    by reflexivity.
  assert (H3 : Forall (idle (host := open_host)) (sinkpads empty_mixer)) by constructor.
  split; [exact H2|]. split; [exact H3|].
  exact (idle_mixer_is_eos gst_videomixer2_class empty_mixer empty_mixer [] H1 H2 H3).
Defined.

Lemma tick_without_frame_witness :
  aggregate_prepare gst_videomixer2_class unstamped_mixer = (unstamped_mixer, [])
  /\ fill_answer unstamped_mixer = Some (-2)
  /\ gst_basemixer_aggregate gst_videomixer2_class unstamped_mixer
     = Some (unstamped_mixer, [], GST_FLOW_ERROR)
  /\ GST_FLOW_ERROR
     = (if -2 =? 0 then GST_FLOW_OK
        else if -2 =? -1 then GST_FLOW_EOS else GST_FLOW_ERROR).
Proof.
  assert (H1 : format_eqb (GST_VIDEO_INFO_FORMAT (mix_info unstamped_mixer))
                 GST_VIDEO_FORMAT_UNKNOWN = false) by reflexivity.
  assert (H2 : aggregate_prepare gst_videomixer2_class unstamped_mixer
               = (unstamped_mixer, [])) by reflexivity.
  assert (H3 : fill_answer unstamped_mixer = Some (-2)) by reflexivity.
  assert (H4 : -2 <> 1) by discriminate.
  assert (H5 : gst_basemixer_aggregate gst_videomixer2_class unstamped_mixer
               = Some (unstamped_mixer, [], GST_FLOW_ERROR)) by reflexivity.
  split; [exact H2|]. split; [exact H3|]. split; [exact H5|].
  exact (proj2 (proj2 (proj2 (proj2 (proj2 (proj2 (proj2
           (tick_without_frame gst_videomixer2_class unstamped_mixer unstamped_mixer
              unstamped_mixer [] [] GST_FLOW_ERROR (-2) H1 H2 H3 H4 H5)))))))).
Defined.

Lemma queue_filler_promotes_overlapping_buffers_witness :
  exists m1 : @GstBasemixer open_host,
    gst_basemixer_fill_queues plain_mixer 0 40000000 = Some (m1, 1)
    /\ Forall2 (fill_step (host := open_host) 0 40000000)
         (sinkpads plain_mixer) (sinkpads m1).
Proof.
  destruct (gst_basemixer_fill_queues plain_mixer 0 40000000) as [[m1 r]|] eqn:E.
  - assert (Hr : option_map snd (gst_basemixer_fill_queues plain_mixer 0 40000000)
                 = Some 1) by reflexivity.
    rewrite E in Hr. simpl in Hr. inversion Hr; subst r.
    exists m1. split; [reflexivity|].
    exact (proj2 (queue_filler_promotes_overlapping_buffers plain_mixer m1
                    0 40000000 1 E)).
  - assert (Hr : option_map snd (gst_basemixer_fill_queues plain_mixer 0 40000000)
                 = Some 1) by reflexivity.
    rewrite E in Hr. discriminate.
Defined.

Lemma blend_composites_pads_with_buffers_witness :
  Forall (fun p => mixed_frame p = None) (sinkpads holding_mixer)
  /\ composited
       (out_paint (snd (gst_basemixer_blend_buffers gst_videomixer2_class
                          holding_mixer 0 40000000)))
     = [1].
Proof.
  assert (H : Forall (fun p => mixed_frame p = None) (sinkpads holding_mixer)).
  { repeat constructor. }
  split; [exact H|].
  pose proof (blend_composites_pads_with_buffers holding_mixer 0 40000000 H) as Hb.
  destruct (gst_basemixer_blend_buffers gst_videomixer2_class holding_mixer 0 40000000)
    as [[m eff] ob].
  destruct Hb as [Hb _]. simpl. rewrite Hb. reflexivity.
Defined.

Lemma no_output_before_negotiation_witness :
  exists tr,
    run_ticks gst_videomixer2_class fresh_mixer [[bpad fed_pad]; [bpad fed_pad]] = Some tr
    /\ List.length tr = 2%nat.
Proof.
  destruct (no_output_before_negotiation gst_videomixer2_class zeroed_basemixer
              fresh_mixer [[bpad fed_pad]; [bpad fed_pad]] (or_introl eq_refl))
    as [tr [H1 [H2 _]]].
  exists tr. split; [exact H1|exact H2].
Defined.

Lemma no_qos_drop_after_flush_or_seek_witness :
  earliest_time (gst_basemixer_sink_event_flush_stop late_mixer 1) = GST_CLOCK_TIME_NONE
  /\ earliest_time late_mixer = 40000000.
Proof.
  split; [|reflexivity].
  exact (proj1 (no_qos_drop_after_flush_or_seek late_mixer
                  (gst_basemixer_sink_event_flush_stop late_mixer 1) 1 seek_up
                  (or_introl eq_refl))).
Defined.

Lemma query_duration_is_the_maximum_witness :
  Forall (fun d => d <> -1) [3000000000; 7000000000; 5000000000]
  /\ gst_basemixer_query_duration (answered [3000000000; 7000000000; 5000000000])
     = (true, Some 7000000000).
Proof.
  assert (H : Forall (fun d => d <> -1) [3000000000; 7000000000; 5000000000]).
  { repeat constructor; discriminate. }
  split; [exact H|].
  exact (proj1 (query_duration_is_the_maximum [3000000000; 7000000000; 5000000000] []
                  H (List.Forall_nil _))).
Defined.

Lemma query_duration_failure_and_unknown_witness :
  Forall (fun d => d <> -1) [3000000000]
  /\ gst_basemixer_query_duration
       (answered [3000000000] ++ GST_ITERATOR_OK None
        :: map GST_ITERATOR_OK [Some 7000000000])
     = (false, None).
Proof.
  assert (H : Forall (fun d => d <> -1) [3000000000]).
  { repeat constructor; discriminate. }
  split; [exact H|].
  exact (proj1 (query_duration_failure_and_unknown [3000000000] [Some 7000000000] []
                  H)).
Defined.

Lemma rate_change_round_trip_witness :
  rate (segment (agg holding_mixer)) = d_one
  /\ rate (segment (agg (fst (gst_basemixer_src_event_seek holding_mixer seek_up))))
     = d_two
  /\ sinkpads (fst (gst_basemixer_src_event_seek
                      (fst (gst_basemixer_src_event_seek holding_mixer seek_up))
                      seek_down))
     = sinkpads holding_mixer.
Proof.
  assert (H1 : rate (segment (agg holding_mixer)) = d_one) by reflexivity.
  assert (H2 : rate (segment (agg (fst (gst_basemixer_src_event_seek holding_mixer
                                          seek_up)))) = d_two) by reflexivity.
  assert (H3 : Forall (fun p => has_buffer p = true ->
                               0 <= start_time p < 2 ^ 52 /\ 0 <= end_time p < 2 ^ 52)
                 (sinkpads holding_mixer)).
  { repeat constructor; simpl; try lia; reflexivity. }
  split; [exact H1|]. split; [exact H2|].
  exact (proj2 (rate_change_round_trip holding_mixer seek_up seek_down
                  H1 eq_refl eq_refl eq_refl eq_refl H2 H3)).
Defined.

Lemma converters_fail_without_converter_witness :
  allowed_downstream_caps gst_videomixer2_class mixed_formats_mixer
  = Some [sample_info GST_VIDEO_FORMAT_AYUV 0 0 0 1]
  /\ snd (fst (gst_basemixer_update_converters gst_videomixer2_class
                 mixed_formats_mixer)) = [].
Proof.
  split; [reflexivity|].
  pose proof (converters_fail_without_converter gst_videomixer2_class
                mixed_formats_mixer [sample_info GST_VIDEO_FORMAT_AYUV 0 0 0 1]
                eq_refl eq_refl eq_refl) as H.
  destruct (gst_basemixer_update_converters gst_videomixer2_class mixed_formats_mixer)
    as [[m eff] ok].
  exact (proj1 H).
Defined.

Lemma caps_are_announced_once_witness :
  send_caps announcing_mixer = true
  /\ match gst_basemixer_aggregate gst_videomixer2_class announcing_mixer with
     | Some (mix1, _, _) => send_caps mix1 = false
     | None => False
     end.
Proof.
  split; [reflexivity|].
  destruct (gst_basemixer_aggregate gst_videomixer2_class announcing_mixer)
    as [[[mix1 eff1] ret1]|] eqn:E.
  - exact (proj1 (proj2 (caps_are_announced_once gst_videomixer2_class announcing_mixer
                           mix1 eff1 ret1 eq_refl eq_refl eq_refl E))).
  - assert (H : option_map snd (gst_basemixer_aggregate gst_videomixer2_class
                                  announcing_mixer) = Some GST_FLOW_OK) by reflexivity.
    rewrite E in H. discriminate.
Defined.

Lemma frame_is_pushed_or_dropped_witness :
  aggregate_prepare gst_videomixer2_class late_mixer = (late_mixer, [])
  /\ fill_answer late_mixer = Some 1
  /\ exists mix' eff ret,
       gst_basemixer_aggregate gst_videomixer2_class late_mixer = Some (mix', eff, ret)
       /\ nframes mix' = u64 (nframes late_mixer + 1).
Proof.
  split; [reflexivity|]. split; [reflexivity|].
  destruct (frame_is_pushed_or_dropped gst_videomixer2_class late_mixer late_mixer []
              eq_refl eq_refl eq_refl)
    as [mix' [eff [ret [Hagg [_ [_ [Hn _]]]]]]].
  exists mix', eff, ret. split; [exact Hagg | exact Hn].
Defined.

Lemma elected_format_has_the_most_pads_witness :
  exists pad,
    In pad voting_pads
    /\ fst (elect_format (host := open_host) voting_caps voting_pads) = pad_info pad
    /\ votes (host := open_host) voting_caps (format_code GST_VIDEO_FORMAT_YUY2)
         voting_pads
       <= votes (host := open_host) voting_caps
            (format_code (GST_VIDEO_INFO_FORMAT (pad_info pad))) voting_pads.
Proof.
  assert (Ha : Forall (fun p => info_has_alpha (pad_info p) = false) voting_pads).
  { repeat constructor. }
  assert (He : exists p, In p voting_pads
                         /\ eligible (host := open_host) voting_caps p = true).
  { exists (sample_pad 2 info_i420_25 None false).
    split; [right; left; reflexivity | reflexivity]. }
  destruct (elected_format_has_the_most_pads (host := open_host) voting_caps
              voting_pads Ha He) as [pad [Hin [_ [Hf Hv]]]].
  exists pad. split; [exact Hin|]. split; [exact Hf|]. apply Hv.
Defined.
